(* ===== verification/_CoqProject ===== *)
-Q . S2P
Prelude.v
Number.v
Vector.v
Scene.v
Camera.v
Render.v
App.v
Scroll.v
Animate.v
Loop.v
Construction.v
Frames.v
Lifecycle.v
Interleave.v
Markup.v
Machine.v
Rings.v
RingsLoop.v
Component.v
Exact.v
Orbit.v
Process.v
Binary64.v
Scenario.v
