(* ===== verification/Prelude.v ===== *)
(** * Verification of the scroll-driven three.js scene of [src/src/App.jsx]

    The program is one React component.  Its effect ([useEffect], lines
    12-117) builds a three.js scene once: a camera, a renderer, a torus, two
    lights, an orbit controller, 200 randomly placed stars, a background
    texture and two textured meshes ("jeff" and the moon).  It then installs
    two callbacks that share the objects it built:

    - [moveCamera] (lines 89-102) is bound to [document.body.onscroll]; on
      every scroll event it reads the page offset, turns the moon and the
      jeff box by fixed angles and places the camera at
      [30 + t * -0.01] on the z axis;
    - [animate] (lines 105-116) re-registers itself with
      [requestAnimationFrame], turns the torus by fixed angles, lets the
      orbit controller update the camera and renders one frame.

    The file ends with a second version of the component, kept in a
    comment (lines 143-218, "For multiple rings"): four tori built from a
    table of settings, each turned on every tick by a speed stored on the
    ring itself, and no scroll handler.  It is not executed; it is
    modelled as the program it is without the comment marks.

    ** Files, in the order they are compiled

    - [Prelude] (this file): the error taxonomy, the outcome of a handler
      that may throw, the builder monad [ST] in which the scene is
      assembled, [forEach] over indices and [forEach_of] over elements,
      the same loop as the language runs it ([forEach_js], a [while_loop]
      by index with fuel) and the proof that it ends and agrees with
      them, the hint databases [anim], the list lemmas the components
      share, and the lemmas on runs of a reactive system (an invariant of
      every reaction holds after every run; a quantity turned by the
      selected events has been turned once per selected event).
    - [Number]: JavaScript numbers as an interface ([Number]) with two
      implementations, the rationals (the arithmetic the specification
      reasons in) and IEEE binary64 (the arithmetic the browser executes),
      and the laws ([ExactNumber]) only the first satisfies.
    - [Vector]: [Vector3]/[Euler] triples and their field updates.
    - [Scene]: geometry, material and object descriptors, the object heap,
      the texture heap, [scene.add], [TextureLoader.load], [Math.random],
      and the well-formedness [store_wf] every operation preserves.
    - [Camera]: the perspective camera and what is asked of an orbit
      controller ([orbit_disjoint]).
    - [Render]: the render sink (settings, the log of rendered frames, the
      loss of the graphics context).
    - [App]: the environment the effect reads ([Env]), the state it leaves
      behind ([App]), [addStar], [setup] (lines 13-86 statement by
      statement), the closed form [app0] of what [setup] builds and the
      proof that it builds it, the invariant [wf].
    - [Scroll]: [moveCamera]; [Animate]: [animate].  Each handler comes
      with its effect in one piece (a closed form proved equal to the
      statement-by-statement definition, on both branches of [animate])
      and with the lemmas that say what it writes and what it leaves
      alone, and is opaque afterwards.
    - [Loop]: [mount] (the whole effect), the host's events as a step
      function [step] and as a relation [Step], runs, reachable worlds,
      the invariant [inv] of the reachable worlds, and the main theorems:
      the depth follows the last scroll offset, the torus turns once per
      tick, the moon and the jeff box once per scroll event, the loop
      never stops.
    - [Construction]: what never changes after the effect (kinds,
      positions, the stars, the scene's children, the viewport, the images
      the textures are loaded from), and the load state of the textures.
    - [Frames]: the frame log: one frame per display refresh, each showing
      a finished tick; the error path after a loss of the graphics
      context.
    - [Lifecycle]: a page on which the effect runs more than once: every
      run leaves a loop running, the scroll slot belongs to the newest,
      and all of them draw on the one canvas, which shows the newest.
    - [Interleave]: worlds up to the contents of the frame log as a setoid,
      the handlers as morphisms of it, and the exchange of a scroll event
      with an adjacent display refresh.
    - [Markup]: the element tree the component returns (lines 119-139)
      with every [className] as the string the source writes, the class
      list the browser reads from it (and the round trip between the
      two), the element the ref is attached to, and the orbit controller
      of this page, which is inert because its canvas receives no pointer
      events.

    - [Machine]: the state machine of the specification and the proof that
      the program refines it, up to the two points where it does not
      (teardown, render failure).
    - [Rings]: the multi-ring variant: [ringsConfig], the construction
      ([setup_rings], lines 152-196), [animate_rings] (lines 199-208) as
      the source writes it, a loop over the array [rings] through
      references into the scene, and the reference definition it is
      proved equal to; the typing [rings_typed] of the references; the
      termination of the file's three [forEach] loops.
    - [RingsLoop]: the variant under the host's events: the invariant of
      its worlds and the rotation of each ring after any run.
    - [Component]: the function [App] itself (lines 9-139), and that of
      the variant (lines 148-216), as React calls them: the hook cells of
      [useRef] and [useEffect], the commit that puts the canvas in the ref
      and runs the effect, re-renders and unmounts.  The interface
      [MountsOnce] says what React needs of a component; both implement
      it, and the run of a component under React is proved against it:
      one mount per render of a component that was not mounted.  For the
      live component that is the page of [Lifecycle].
    - [Exact]: closed forms in exact arithmetic (of the live component and
      of the variant's rings), the direction in which scrolling moves the
      camera, and the bounds of the star field.
    - [Orbit]: the camera alone.  [camera_track] is the program projected
      onto the camera and the number of controller updates, and the
      program follows it whatever the controller does.  The update of
      [OrbitControls] for two gestures over the rationals, a drag about
      the vertical axis and a wheel step ([orbit_update]): a drag keeps
      the distance to the target and is undone by the opposite drag, and
      a drag that reaches the controller breaks [orbit_disjoint] and
      [orbit_commutes] and takes the depth off the scroll offset.
    - [Process]: the browser's event loop as an interaction tree, written
      once against the interface [Handlers], which the program, the
      variant and the document with several mounts implement; a browser
      with a finite queue ([host]) that interprets it; the tree ends
      where the run ends and has shown the host that world's frames and
      exceptions, and it can be left in the reachable worlds only.
    - [Binary64]: the same theorems evaluated at doubles: exact scroll
      depths, the rounding error of the rotation against the
      specification's tolerance.
    - [Scenario]: a concrete page over the rationals and one over doubles,
      and every theorem with a hypothesis applied to it.

    ** How the state corresponds to the code

    JavaScript objects are shared by reference: [torus] is both a variable
    of the closure and an element of [scene.children].  The model keeps one
    heap of objects ([objects : list Object3D], an object's identity is its
    index) and represents both the scene's children and the closure
    variables [torus], [moon], [jeffBox] as indices into it, so a rotation
    written through a variable is the rotation a rendered frame reads.  The
    invariant [wf] says the indices are valid, distinct and of the right
    kind; every handler preserves it, which is why the out-of-range branch
    of a heap update (where the model does nothing) is unreachable.

    In the variant a ring is reached through the scene's children and
    through the array [rings]; both hold indices into the same heap.  The
    [userData] of the objects, which only the variant uses, is a table of
    the variant's state keyed by the object's index and the property name
    ([gmap nat (gmap string R)]); a property that was never set reads as
    [None], JavaScript's [undefined].

    Numbers are kept abstract ([Number R]): every definition is executable
    at [Q] and at [float].  Decimal literals are injected with [lit];
    [x += d] is [x ⊕ lit d], and [30 + t * -0.01] is written with the
    operators in the order the source has them.  Arithmetic on
    [undefined] gives [NaN], written [0 / 0]: NaN on doubles, and [0] on
    the rationals, which have no NaN; the typing of the variant's
    references shows that the case does not arise.

    What the effect reads from its surroundings is the record [Env]: the
    window's metrics, whether the canvas gives a graphics context, the
    sequence of values [Math.random()] returns, and the two library
    functions whose results matter but whose code is not in [src/]
    ([randFloatSpread], [OrbitControls.update]).  Theorems that need a
    promise about them state it as a hypothesis ([orbit_disjoint],
    [orbit_commutes]) or a class ([UnitRandom], [ThreeJsSpread]).
    The handlers read the page offset as their argument: [EvScroll t]
    carries the value of [document.body.getBoundingClientRect().top] at
    the time of the event.

    A world ([World]) is the state of the component and the list of
    exceptions the host has been handed.  The host's single-threaded event
    loop is [run]: a list of events applied in order, each handler run to
    completion.  [requestAnimationFrame] is a counter of pending
    callbacks; a display refresh runs the pending ones and those they
    register wait for the next refresh.

    React keeps the hooks of a mounted component as cells in the order
    of the calls ([Hooks]); the ref object of [useRef] is its cell, and
    an element of the document is named by its position in the markup.
    [App_function] is the body of [App] in the state monad over the
    cells; the closure it hands to [useEffect] is [App_effect], which is
    [mount] run on the page with the canvas read from the ref.
    [Rings_function] and [Rings_effect] are those of the variant.

    On a page with several instances every renderer was constructed on
    the same canvas.  [drawn] is the log of that canvas: the frames of
    all instances in the order of the render calls, the oldest instance
    first within a display refresh.

    Library code that [src/] only calls is modelled from the specification
    and from the library's documented behaviour: [scene.add], the
    renderer, the texture loader, [randFloatSpread], the orbit
    controller.  So is the host: React's hooks and commit, the browser's
    dispatch of events and its reading of [className], and the
    language's [forEach].

    The orbit controller appears twice.  For the theorems of the loop it
    is any function of the environment, and what they need of it is a
    hypothesis.  In [Orbit] it is three.js's update for a sequence of
    gestures: a turn is given by its cosine and sine, so that the
    positions stay rational, and the target is the origin, where the
    constructor puts it.

    The event loop appears twice as well: as the fold [run] over a list
    of events, with which the theorems are proved, and in [Process] as
    a tree that waits for each event and tells the host what each handler
    rendered and threw.  The second is proved to compute the first.

    ** Bounds

    Every handler is a straight-line function and a run is a fold over a
    finite list of events; the theorems on runs hold for every list.  The
    constructs that loop are [forEach] and, in [addStar], a [map] over
    three elements, which is written out as its three calls.  The handlers
    are written with the loop over the elements ([forEach],
    [forEach_of]); [forEach_js] is the loop as the language runs it, by
    index and with fuel, and [None] when the fuel is spent.  Fuel equal
    to the length the array has at the start is enough whatever the
    callback does ([forEach_js_terminates]), more fuel changes nothing
    ([while_loop_mono]), and for the three loops of the file the result
    is that of the loop over the elements.  [populate] is evaluated once,
    symbolically, on the 200 stars of the source.  The rounding error
    on doubles is checked exhaustively for the first 10000 ticks and at
    single later ticks, by evaluation of the kernel's primitive floats.
    The tree of [Process] has no fuel: it is an [iter] of the library of
    interaction trees, productive by construction, and a host with a
    queue of [n] events interprets it in [n + 1] turns.

    ** What is not modelled

    The layout and painting of the markup (the tree itself is modelled),
    the quaternion three.js derives from an Euler rotation, and
    rasterisation itself (a frame is the snapshot of the state it was
    rendered from): on a page with several mounts the canvas is the log
    of the frames drawn on it, not the pixels two renderers sharing a
    graphics context would leave.  Of React, reconciliation of the tree
    against the document, batching and scheduling priorities are not
    modelled: a render is followed at once by its commit.  Of the orbit
    controller, the vertical drag (the polar angle needs a square root,
    which the rationals do not have), panning and damping (they need the
    controller's own state and the orientation of the camera) and the
    orientation [lookAt] writes are not modelled; on this page none of
    them can happen, because the canvas receives no pointer event.  The
    module imports (lines 1-7, 145-146) and the export statements have no
    behaviour of their own; with them every line of the source that does
    something is modelled.  The animation loop is meant not to end: what
    is proved of it is that it never stops, while each of its ticks, a
    total function, returns. *)

From Stdlib Require Export ZArith QArith Lia.
From stdpp Require Export base tactics option list.

Declare Scope anim_scope.
Delimit Scope anim_scope with anim.
Open Scope anim_scope.

Create HintDb anim discriminated.
Create Rewrite HintDb anim.

(** ** Errors and outcomes

    A JavaScript statement that throws leaves the mutations made before it
    in place.  A handler therefore returns the state it reached together
    with the exception, if any. *)

Inductive Error : Type :=
| ConstructionError
| AssetLoadFailure
| TickFailure.

#[export] Instance Error_eq_dec : EqDecision Error.
Proof. solve_decision. Defined.

Inductive Outcome (St : Type) : Type :=
| Done (s : St)
| Thrown (e : Error) (s : St).
Arguments Done {St} s.
Arguments Thrown {St} e s.

Definition final {St} (o : Outcome St) : St :=
  match o with Done s | Thrown _ s => s end.

Definition thrown {St} (o : Outcome St) : option Error :=
  match o with Done _ => None | Thrown e _ => Some e end.

Definition Outcome_map {St St'} (f : St → St') (o : Outcome St) : Outcome St' :=
  match o with Done s => Done (f s) | Thrown e s => Thrown e (f s) end.

(** Sequencing two handlers: the second does not run when the first threw. *)
Definition and_then {St} (o : Outcome St) (k : St → Outcome St) :
  Outcome St :=
  match o with Done s => k s | Thrown e s => Thrown e s end.

(** ** The builder monad

    The effect body threads three growing stores (objects, textures, the
    scene's children) and the random-number oracle through some thirty
    statements.  [ST S A] is the state monad they are written in. *)

Definition ST (St A : Type) : Type := St → A * St.

Definition st_ret {St A} (a : A) : ST St A := λ s, (a, s).

Definition st_bind {St A B} (c : ST St A) (k : A → ST St B) : ST St B :=
  λ s, let '(a, s') := c s in k a s'.

#[export] Instance ST_ret {St} : MRet (ST St) := λ A, st_ret.
#[export] Instance ST_bind {St} : MBind (ST St) := λ A B k c, st_bind c k.

Definition st_get {St} : ST St St := λ s, (s, s).

Definition st_modify {St} (f : St → St) : ST St unit := λ s, (tt, f s).

Definition st_exec {St A} (c : ST St A) (s : St) : St := snd (c s).

Definition st_eval {St A} (c : ST St A) (s : St) : A := fst (c s).

(** [Array.from({ length: n }).forEach(f)]: [f] is called for the indices
    [0 .. n-1] in increasing order. *)
Fixpoint forEach_from {St} (i n : nat) (f : nat → ST St unit) : ST St unit :=
  match n with
  | O => mret tt
  | S n' => f i;; forEach_from (S i) n' f
  end.

Definition forEach {St} (n : nat) (f : nat → ST St unit) : ST St unit :=
  forEach_from 0 n f.

(** [array.forEach(f)] for an array whose elements matter: [f] is called
    on the elements in increasing order of index.  The callbacks of the
    program do not change the array they iterate over, so the elements
    are those the array has when [forEach] is called. *)
Fixpoint forEach_of {St A} (l : list A) (f : A → ST St unit) : ST St unit :=
  match l with
  | [] => mret tt
  | x :: l' => f x;; forEach_of l' f
  end.

(** ** Loops as the language runs them

    [while (cond) body], run for at most [fuel] iterations: [None] when
    the fuel is spent before the condition fails. *)
Fixpoint while_loop {St} (fuel : nat) (cond : St → bool) (body : St → St)
    (s : St) : option St :=
  if cond s then
    match fuel with
    | O => None
    | S fuel' => while_loop fuel' cond body (body s)
    end
  else Some s.

(** [array.forEach(f)] as the language defines it: the length is read
    once; then, for every index below it in increasing order, the element
    the array holds at that moment is passed to the callback together with
    its index, and an index the array has lost is passed over.  The array
    is read from the state each time ([arr]), since the callback may have
    changed it.  [forEach_ix] is the loop over the elements the array has
    when it starts. *)
Definition forEach_cond {St} (len : nat) (ks : nat * St) : bool :=
  bool_decide (ks.1 < len).

Definition forEach_body {St A} (arr : St → list A) (f : nat → A → ST St unit)
    (ks : nat * St) : nat * St :=
  (S ks.1,
   match arr ks.2 !! ks.1 with
   | Some x => st_exec (f ks.1 x) ks.2
   | None => ks.2
   end).

Definition forEach_js {St A} (arr : St → list A) (f : nat → A → ST St unit)
    (fuel : nat) (s : St) : option St :=
  snd <$> while_loop fuel (forEach_cond (length (arr s))) (forEach_body arr f)
                     (0, s).

Fixpoint forEach_ix {St A} (k : nat) (l : list A) (f : nat → A → ST St unit) :
    ST St unit :=
  match l with
  | [] => mret tt
  | x :: l' => f k x;; forEach_ix (S k) l' f
  end.

(** ** Tactics *)

(** Case analysis on an outcome in the goal or in a hypothesis. *)
Ltac case_outcome :=
  match goal with
  | |- context [and_then ?o _] => destruct o eqn:?; simpl
  | H : context [and_then ?o _] |- _ => destruct o eqn:?; simpl in H
  end.

(** Run a builder computation whose statements are known: unfold the
    monad, leave the store operations folded. *)
Ltac st_run :=
  cbv [st_exec st_eval mbind mret ST_bind ST_ret st_bind st_ret st_modify
       st_get fst snd].

Tactic Notation "st_run" "in" hyp(H) :=
  cbv [st_exec st_eval mbind mret ST_bind ST_ret st_bind st_ret st_modify
       st_get fst snd] in H.

(** Close a goal about list indices with the stdpp lookup lemmas. *)
Ltac solve_lookup :=
  repeat first
    [ rewrite list_lookup_alter_ne by lia
    | rewrite list_lookup_alter_eq
    | rewrite lookup_app_l by (simpl; lia) ];
  try done.

(** ** Generic lemmas *)

Section monad_laws.
Context {St A B C : Type}.

Lemma st_bind_ret_l (a : A) (k : A → ST St B) s : (mret a ≫= k) s = k a s.
Proof. reflexivity. Qed.

Lemma st_bind_ret_r (c : ST St A) s : (c ≫= mret) s = c s.
Proof. unfold mbind, ST_bind, st_bind. by destruct (c s). Qed.

Lemma st_bind_assoc (c : ST St A) (k : A → ST St B) (h : B → ST St C) s :
  ((c ≫= k) ≫= h) s = (c ≫= λ a, k a ≫= h) s.
Proof. unfold mbind, ST_bind, st_bind. by destruct (c s). Qed.

Lemma st_exec_bind (c : ST St A) (k : A → ST St B) s :
  st_exec (c ≫= k) s = st_exec (k (st_eval c s)) (st_exec c s).
Proof. unfold st_exec, st_eval, mbind, ST_bind, st_bind. by destruct (c s). Qed.

Lemma st_eval_bind (c : ST St A) (k : A → ST St B) s :
  st_eval (c ≫= k) s = st_eval (k (st_eval c s)) (st_exec c s).
Proof. unfold st_exec, st_eval, mbind, ST_bind, st_bind. by destruct (c s). Qed.

Lemma st_exec_ret (a : A) (s : St) : st_exec (mret a) s = s.
Proof. reflexivity. Qed.

Lemma st_exec_modify (f : St → St) s : st_exec (st_modify f) s = f s.
Proof. reflexivity. Qed.
End monad_laws.

Section forEach_lemmas.
Context {St : Type}.
Implicit Types (f : nat → ST St unit) (s : St).

Lemma forEach_from_S i n f s :
  st_exec (forEach_from i (S n) f) s
  = st_exec (forEach_from (S i) n f) (st_exec (f i) s).
Proof. simpl. by rewrite st_exec_bind. Qed.

(** An invariant of every call is an invariant of the loop; the index the
    callback receives stays below the bound. *)
Lemma forEach_from_invariant (P : nat → St → Prop) i n f s :
  P i s →
  (∀ j s', i ≤ j < i + n → P j s' → P (S j) (st_exec (f j) s')) →
  P (i + n) (st_exec (forEach_from i n f) s).
Proof.
  revert i s. induction n as [|n IH]; intros i s Hs Hstep.
  - by rewrite Nat.add_0_r.
  - rewrite forEach_from_S. replace (i + S n) with (S i + n) by lia.
    apply IH; [apply Hstep; [lia | done] |].
    intros j s' Hj. apply Hstep. lia.
Qed.

Lemma forEach_invariant (P : nat → St → Prop) n f s :
  P 0 s →
  (∀ j s', j < n → P j s' → P (S j) (st_exec (f j) s')) →
  P n (st_exec (forEach n f) s).
Proof.
  intros Hs Hstep. apply (forEach_from_invariant P 0 n f s Hs).
  intros j s' Hj. apply Hstep. lia.
Qed.
End forEach_lemmas.

Section forEach_of_lemmas.
Context {St A : Type}.
Implicit Types (f : A → ST St unit) (l : list A) (s : St).

(** The loop is the left fold of its callback's effect. *)
Lemma forEach_of_foldl l f s :
  st_exec (forEach_of l f) s = foldl (λ s' x, st_exec (f x) s') s l.
Proof.
  revert s. induction l as [|x l IH]; intros s; [done|].
  simpl. by rewrite st_exec_bind, IH.
Qed.

Lemma forEach_of_snoc l x f s :
  st_exec (forEach_of (l ++ [x]) f) s
  = st_exec (f x) (st_exec (forEach_of l f) s).
Proof. by rewrite !forEach_of_foldl, foldl_snoc. Qed.

(** What every call preserves, the loop preserves. *)
Lemma forEach_of_invariant (P : St → Prop) l f s :
  (∀ x s', x ∈ l → P s' → P (st_exec (f x) s')) →
  P s → P (st_exec (forEach_of l f) s).
Proof.
  intros Hf. induction l as [|x l IH] using rev_ind; [done|].
  intros Hs. rewrite forEach_of_snoc.
  apply Hf; [apply elem_of_app; right; by apply list_elem_of_singleton|].
  apply IH; [|done]. intros y s' Hy. apply Hf. apply elem_of_app. by left.
Qed.
End forEach_of_lemmas.

(** ** Loops with fuel

    A loop whose body lowers a measure ends, and with enough fuel the
    model says so.  [forEach] ends whatever its callback does, because the
    bound is read once; when the callback leaves the array alone it is the
    loop over the array's elements. *)
Section while_lemmas.
Context {St : Type} (cond : St → bool) (body : St → St).
Implicit Types (s : St) (fuel : nat).

Lemma while_loop_false fuel s :
  cond s = false → while_loop fuel cond body s = Some s.
Proof. intros Hc. destruct fuel; simpl; by rewrite Hc. Qed.

Lemma while_loop_true fuel s :
  cond s = true →
  while_loop (S fuel) cond body s = while_loop fuel cond body (body s).
Proof. intros Hc. simpl. by rewrite Hc. Qed.

(** The loop stops only where the condition fails. *)
Lemma while_loop_exit fuel s s' :
  while_loop fuel cond body s = Some s' → cond s' = false.
Proof.
  revert s. induction fuel as [|fuel IH]; intros s; simpl;
    destruct (cond s) eqn:Hc; try done; try (intros [= <-]; done).
  apply IH.
Qed.

(** More fuel does not change a result. *)
Lemma while_loop_mono fuel fuel' s s' :
  fuel ≤ fuel' →
  while_loop fuel cond body s = Some s' →
  while_loop fuel' cond body s = Some s'.
Proof.
  revert fuel' s. induction fuel as [|fuel IH]; intros fuel' s Hle; simpl.
  - destruct (cond s) eqn:Hc; [done|]. intros <-%(inj Some).
    by apply while_loop_false.
  - destruct (cond s) eqn:Hc.
    + destruct fuel' as [|fuel']; [lia|]. rewrite while_loop_true by done.
      apply IH. lia.
    + intros <-%(inj Some). by apply while_loop_false.
Qed.

Section measure.
Context (m : St → nat).
Hypothesis m_decreases : ∀ s, cond s = true → m (body s) < m s.

(** Fuel equal to the measure is enough. *)
Lemma while_loop_terminates fuel s :
  m s ≤ fuel → is_Some (while_loop fuel cond body s).
Proof.
  revert s. induction fuel as [|fuel IH]; intros s Hm; simpl;
    destruct (cond s) eqn:Hc; try done.
  - pose proof (m_decreases s Hc). lia.
  - apply IH. pose proof (m_decreases s Hc). lia.
Qed.
End measure.
End while_lemmas.

Section forEach_js_lemmas.
Context {St A : Type} (arr : St → list A) (f : nat → A → ST St unit).
Implicit Types (s : St) (l : list A) (fuel k : nat).

(** The loop ends after at most as many calls as the array had elements
    at the start, whatever the callback does to the array. *)
Lemma forEach_js_terminates fuel s :
  length (arr s) ≤ fuel → is_Some (forEach_js arr f fuel s).
Proof.
  intros Hfuel. unfold forEach_js. apply fmap_is_Some.
  apply (while_loop_terminates _ _ (λ ks, length (arr s) - ks.1));
    [|simpl; lia].
  intros [k s'] Hk%bool_decide_eq_true. simpl in *. lia.
Qed.

Section stable.
Hypothesis arr_stable : ∀ i x s, arr (st_exec (f i x) s) = arr s.

Lemma forEach_js_from l2 : ∀ l1 s fuel,
  arr s = l1 ++ l2 → length l2 ≤ fuel →
  while_loop fuel (forEach_cond (length (l1 ++ l2))) (forEach_body arr f)
             (length l1, s)
  = Some (length (l1 ++ l2), st_exec (forEach_ix (length l1) l2 f) s).
Proof.
  induction l2 as [|x l2 IH]; intros l1 s fuel Harr Hfuel.
  - rewrite while_loop_false, app_nil_r; [done|].
    apply bool_decide_eq_false. rewrite app_nil_r. simpl. lia.
  - destruct fuel as [|fuel]; [simpl in Hfuel; lia|].
    rewrite while_loop_true
      by (apply bool_decide_eq_true; rewrite length_app; simpl; lia).
    unfold forEach_body at 2. cbn [fst snd].
    rewrite Harr, list_lookup_middle by done.
    rewrite (cons_middle x l1 l2), app_assoc.
    replace (S (length l1)) with (length (l1 ++ [x]))
      by (rewrite length_app; simpl; lia).
    rewrite IH.
    + replace (length (l1 ++ [x])) with (S (length l1))
        by (rewrite length_app; simpl; lia).
      simpl. by rewrite st_exec_bind.
    + by rewrite arr_stable, Harr, (cons_middle x l1 l2), app_assoc.
    + simpl in Hfuel. lia.
Qed.

(** When the callback leaves the array alone, [forEach] is the loop over
    the elements the array has. *)
Lemma forEach_js_stable fuel s :
  length (arr s) ≤ fuel →
  forEach_js arr f fuel s = Some (st_exec (forEach_ix 0 (arr s) f) s).
Proof.
  intros Hfuel. unfold forEach_js.
  pose proof (forEach_js_from (arr s) [] s fuel eq_refl Hfuel) as Hloop.
  simpl in Hloop. by rewrite Hloop.
Qed.
End stable.
End forEach_js_lemmas.

Section forEach_ix_lemmas.
Context {St A : Type}.
Implicit Types (s : St) (l : list A) (k : nat).

Lemma forEach_ix_of k l (f : A → ST St unit) s :
  st_exec (forEach_ix k l (λ _, f)) s = st_exec (forEach_of l f) s.
Proof.
  revert k s. induction l as [|x l IH]; intros k s; [done|].
  simpl. by rewrite !st_exec_bind, IH.
Qed.

Lemma forEach_ix_from k n (x : A) (f : nat → ST St unit) s :
  st_exec (forEach_ix k (replicate n x) (λ i _, f i)) s
  = st_exec (forEach_from k n f) s.
Proof.
  revert k s. induction n as [|n IH]; intros k s; [done|].
  simpl. by rewrite !st_exec_bind, IH.
Qed.
End forEach_ix_lemmas.

Section list_lemmas.
Context {A : Type} `{EqDecision A}.
Implicit Types (x : A) (l : list A).

Lemma Forall_filter (P : A → Prop) (Q : A → Prop) `{∀ x, Decision (Q x)} l :
  Forall P l → Forall P (filter Q l).
Proof.
  rewrite !Forall_forall. intros HP x [_ Hx]%list_elem_of_filter. by apply HP.
Qed.

(** Removing an element that is not there changes nothing. *)
Lemma filter_ne_id x l : x ∉ l → filter (λ y, y ≠ x) l = l.
Proof.
  induction l as [|y l IH]; [done|].
  intros [? ?]%not_elem_of_cons.
  rewrite filter_cons_True by done. f_equal. by apply IH.
Qed.

Lemma filter_ne_snoc x l : filter (λ y, y ≠ x) (l ++ [x]) = filter (λ y, y ≠ x) l.
Proof.
  rewrite filter_app, filter_cons_False, filter_nil, app_nil_r by naive_solver.
  done.
Qed.

Lemma NoDup_3 x y z : NoDup [x; y; z] ↔ x ≠ y ∧ x ≠ z ∧ y ≠ z.
Proof.
  rewrite !NoDup_cons, !not_elem_of_cons, !elem_of_nil.
  pose proof (NoDup_nil_2 (A:=A)). tauto.
Qed.

(** A heap update that preserves a projection of the updated element
    preserves that projection of every element. *)
Lemma lookup_alter_fmap_inv {B} (g : A → B) (f : A → A) l (i j : nat) :
  (∀ x, g (f x) = g x) → g <$> alter f i l !! j = g <$> l !! j.
Proof.
  intros Hg. rewrite list_lookup_alter. case_decide; [subst|done].
  destruct (l !! j); simpl; by f_equal.
Qed.
(** Updating the elements at distinct indices one after the other is one
    pass over the list. *)
Lemma foldl_alter_imap (F : nat → A → A) (ids : list nat) l :
  NoDup ids →
  foldl (λ l' i, alter (F i) i l') l ids
  = imap (λ j x, if bool_decide (j ∈ ids) then F j x else x) l.
Proof.
  revert l. induction ids as [|i ids IH]; intros l Hnd; simpl.
  { apply list_eq. intros j. rewrite list_lookup_imap.
    by destruct (l !! j). }
  apply NoDup_cons in Hnd as [Hi Hnd]. rewrite IH by done.
  apply list_eq. intros j. rewrite !list_lookup_imap, list_lookup_alter.
  destruct (decide (i = j)) as [->|Hne].
  - rewrite bool_decide_false, bool_decide_true by (done || by left).
    by destruct (l !! j).
  - destruct (l !! j); simpl; [|done].
    rewrite (bool_decide_ext (j ∈ ids) (j ∈ i :: ids)); [done|].
    rewrite elem_of_cons. split; [by right | by intros [<-|?]].
Qed.
End list_lemmas.

(** ** Runs of a reactive system

    A system that reacts to events by a total function [react] runs a list
    of events by folding over it.  What every reaction preserves holds
    after every run, what no reaction changes is the same after every
    run, and a quantity that the selected events turn by [f] and the
    others leave alone has been turned once per selected event. *)
Section runs.
Context {W E : Type} (react : E → W → W) (I : W → Prop).
Hypothesis I_react : ∀ e w, I w → I (react e w).
Implicit Types (es : list E) (w : W).

Lemma foldl_invariant es w : I w → I (foldl (λ w e, react e w) w es).
Proof.
  intros Hw. induction es as [|e es IH] using rev_ind; [done|].
  rewrite foldl_snoc. by apply I_react.
Qed.

(** What no reaction changes, no run changes. *)
Lemma foldl_constant {V} (q : W → V) es w :
  (∀ e w', I w' → q (react e w') = q w') →
  I w → q (foldl (λ w e, react e w) w es) = q w.
Proof.
  intros Hq Hw. induction es as [|e es IH] using rev_ind; [done|].
  rewrite foldl_snoc, Hq by by apply foldl_invariant. done.
Qed.

Lemma counted_foldl {V} (q : W → option V) (p : E → bool) (f : V → V) es w :
  (∀ e w', I w' → q (react e w') = (if p e then f else id) <$> q w') →
  I w →
  q (foldl (λ w e, react e w) w es)
  = Nat.iter (length (filter (λ e, p e = true) es)) f <$> q w.
Proof.
  intros Hq Hw. induction es as [|e es IH] using rev_ind.
  { simpl. by destruct (q w). }
  rewrite foldl_snoc, Hq, IH by by apply foldl_invariant.
  rewrite filter_app, length_app. destruct (q w); [simpl|by destruct (p e)].
  destruct (p e) eqn:Hp.
  - rewrite filter_cons_True by done. simpl. by rewrite Nat.add_1_r.
  - rewrite filter_cons_False by congruence. simpl. by rewrite Nat.add_0_r.
Qed.
End runs.

Section outcome_lemmas.
Context {St : Type}.
Implicit Types (o : Outcome St) (k : St → Outcome St).

Lemma final_Outcome_map {St'} (f : St → St') o :
  final (Outcome_map f o) = f (final o).
Proof. by destruct o. Qed.

Lemma thrown_Outcome_map {St'} (f : St → St') o :
  thrown (Outcome_map f o) = thrown o.
Proof. by destruct o. Qed.

(** A handler that threw nothing is done. *)
Lemma Outcome_done o : thrown o = None → o = Done (final o).
Proof. by destruct o. Qed.

Lemma and_then_done s k : and_then (Done s) k = k s.
Proof. reflexivity. Qed.

Lemma and_then_thrown e s k : and_then (Thrown e s) k = Thrown e s.
Proof. reflexivity. Qed.

Lemma thrown_and_then_None o k :
  thrown (and_then o k) = None ↔
  ∃ s, o = Done s ∧ thrown (k s) = None.
Proof.
  destruct o as [s|e s]; simpl; split.
  - eauto.
  - by intros (? & [= <-] & ?).
  - done.
  - by intros (? & ? & ?).
Qed.
End outcome_lemmas.

#[export] Hint Rewrite @and_then_done @and_then_thrown @st_exec_ret
  @st_exec_modify @final_Outcome_map @thrown_Outcome_map : anim.
