(* ===== verification/Number.v ===== *)
(** * JavaScript numbers

    Every number of [src/src/App.jsx] is a JavaScript [Number].  The model
    is written once, over the interface [Number R], and run at two
    implementations:

    - [Q_Number]: the rationals up to [Qeq], the arithmetic in which the
      specification states its formulas ("equals [T * 0.01] exactly");
    - [float_Number]: IEEE-754 binary64 as the kernel's primitive floats,
      the arithmetic a browser executes.

    [ExactNumber] collects the laws of a commutative ring whose literals are
    a homomorphic image of [Q].  The rationals satisfy them; binary64 does
    not (addition is not associative there, see [float_add_not_assoc]).

    [to_number] is what arithmetic makes of a property that may be
    [undefined]: the number itself, or [NaN]. *)

From Stdlib Require Import Floats Uint63 Ring Qring Qabs.
From S2P Require Import Prelude.

(** ** The interface *)

(** [lit q] is the value of the decimal literal that denotes [q];
    the other fields are the operators [+ - * /] and unary minus. *)
Class Number (R : Type) : Type := {
  num_equiv :: Equiv R;
  lit : Q → R;
  num_add : R → R → R;
  num_sub : R → R → R;
  num_mul : R → R → R;
  num_div : R → R → R;
  num_neg : R → R;
}.

Infix "⊕" := num_add (at level 50, left associativity) : anim_scope.
Infix "⊖" := num_sub (at level 50, left associativity) : anim_scope.
Infix "⊗" := num_mul (at level 40, left associativity) : anim_scope.
Infix "⊘" := num_div (at level 40, left associativity) : anim_scope.
Notation "⊝ x" := (num_neg x) (at level 35, right associativity) : anim_scope.

(** [x += d], repeated [n] times. *)
Definition add_times {R} `{Number R} (n : nat) (d x : R) : R :=
  Nat.iter n (λ y, y ⊕ d) x.

(** What arithmetic makes of [undefined], the value of a property that was
    never set: NaN, the result of [0 / 0].  On doubles [0 / 0] is NaN
    ([float_NaN]) and every sum or product with it is NaN again
    ([float_NaN_absorbs]); the rationals have no such value and [0 / 0]
    is [0] there. *)
Definition NaN {R} `{Number R} : R := lit 0 ⊘ lit 0.

Definition to_number {R} `{Number R} (v : option R) : R := default NaN v.

(** The laws of exact arithmetic. *)
Class ExactNumber (R : Type) `{Number R} : Prop := {
  exact_equivalence :: Equivalence (≡@{R});
  exact_add_proper :: Proper ((≡) ==> (≡) ==> (≡)) (num_add (R:=R));
  exact_sub_proper :: Proper ((≡) ==> (≡) ==> (≡)) (num_sub (R:=R));
  exact_mul_proper :: Proper ((≡) ==> (≡) ==> (≡)) (num_mul (R:=R));
  exact_neg_proper :: Proper ((≡) ==> (≡)) (num_neg (R:=R));
  exact_lit_proper :: Proper (Qeq ==> (≡)) (lit (R:=R));
  exact_ring :
    ring_theory (lit 0) (lit 1) num_add num_mul num_sub num_neg (≡@{R});
  lit_add a b : lit (a + b) ≡@{R} lit a ⊕ lit b;
  lit_mul a b : lit (a * b) ≡@{R} lit a ⊗ lit b;
  lit_neg a : lit (- a) ≡@{R} ⊝ lit a;
}.

(** ** The rationals *)

#[export] Instance Q_Number : Number Q := {
  num_equiv := Qeq;
  lit := λ q, q;
  num_add := Qplus;
  num_sub := Qminus;
  num_mul := Qmult;
  num_div := Qdiv;
  num_neg := Qopp;
}.

(** ** IEEE-754 binary64 *)

(** An integer as a double; exact below [2^53], which covers every
    numerator and denominator of a literal of the program. *)
Definition float_of_Z (z : Z) : float :=
  match z with
  | Z0 => PrimFloat.zero
  | Zpos p => PrimFloat.of_uint63 (Uint63.of_Z (Zpos p))
  | Zneg p => PrimFloat.opp (PrimFloat.of_uint63 (Uint63.of_Z (Zpos p)))
  end.

(** A decimal literal denotes the double nearest to it.  Division of two
    doubles is correctly rounded, so the quotient of the (exactly
    represented) numerator and denominator is that double. *)
Definition float_lit (q : Q) : float :=
  PrimFloat.div (float_of_Z (Qnum q)) (float_of_Z (Zpos (Qden q))).

#[export] Instance float_Number : Number float := {
  num_equiv := eq;
  lit := float_lit;
  num_add := PrimFloat.add;
  num_sub := PrimFloat.sub;
  num_mul := PrimFloat.mul;
  num_div := PrimFloat.div;
  num_neg := PrimFloat.opp;
}.

(** The rational a finite double stands for; [None] for infinities and
    NaN. *)
Definition Q_of_float (x : float) : option Q :=
  match Prim2SF x with
  | S754_zero _ => Some 0%Q
  | S754_finite s m e =>
      let mag := (inject_Z (Zpos m) * Qpower 2 e)%Q in
      Some (if s then Qopp mag else mag)
  | S754_infinity _ | S754_nan => None
  end.

(** [x] is within [eps] of the rational [q]. *)
Definition float_near (eps q : Q) (x : float) : bool :=
  match Q_of_float x with
  | Some r => Qle_bool (Qabs (r - q)) eps
  | None => false
  end.

(** ** Lemmas *)

Section add_times.
Context {R : Type} `{Number R}.
Implicit Types (d x : R) (n : nat).

Lemma add_times_0 d x : add_times 0 d x = x.
Proof. reflexivity. Qed.

Lemma add_times_S n d x : add_times (S n) d x = add_times n d x ⊕ d.
Proof. reflexivity. Qed.

Lemma add_times_S_r n d x : add_times (S n) d x = add_times n d (x ⊕ d).
Proof. unfold add_times. by rewrite Nat.iter_succ_r. Qed.

Lemma add_times_plus n m d x :
  add_times (n + m) d x = add_times n d (add_times m d x).
Proof. unfold add_times. by rewrite Nat.iter_add. Qed.

(** Repeated addition with the count in binary, the form in which long
    runs are evaluated. *)
Lemma add_times_pos (p : positive) d x :
  add_times (Pos.to_nat p) d x = Pos.iter (λ y, y ⊕ d) x p.
Proof. unfold add_times, Nat.iter. by rewrite Pos2Nat.inj_iter. Qed.
End add_times.

#[export] Instance Q_Exact : ExactNumber Q.
Proof.
  split; try apply _; try (intros; simpl; reflexivity).
  exact Qsrt.
Qed.

(** In an exact arithmetic the ring tactic is available and repeated
    addition has a closed form. *)
Section exact.
Context {R : Type} `{ExactNumber R}.
Implicit Types (x y d : R) (a b : Q) (n : nat).

Lemma exact_ring_eq_ext :
  ring_eq_ext (num_add (R:=R)) num_mul num_neg (≡).
Proof. split; apply _. Qed.

Add Ring exact_number_ring :
  exact_ring (setoid exact_equivalence exact_ring_eq_ext).

Lemma num_add_0_r x : x ⊕ lit 0 ≡ x.
Proof. ring. Qed.

Lemma num_add_assoc x y d : x ⊕ (y ⊕ d) ≡ x ⊕ y ⊕ d.
Proof. ring. Qed.

Lemma num_add_comm x y : x ⊕ y ≡ y ⊕ x.
Proof. ring. Qed.

(** Adding a product with a negated factor is subtracting the product. *)
Lemma num_add_mul_neg x y d : x ⊕ y ⊗ ⊝ d ≡ x ⊖ y ⊗ d.
Proof. ring. Qed.

Lemma lit_of_nat_S n a :
  lit (inject_Z (Z.of_nat (S n)) * a) ≡@{R} lit (inject_Z (Z.of_nat n) * a) ⊕ lit a.
Proof.
  rewrite <- lit_add. apply exact_lit_proper.
  rewrite Nat2Z.inj_succ. unfold Z.succ. rewrite inject_Z_plus. ring.
Qed.

(** Adding the literal [a] [n] times adds the literal [n * a]. *)
Lemma add_times_closed n a x :
  add_times n (lit a) x ≡ x ⊕ lit (inject_Z (Z.of_nat n) * a).
Proof.
  induction n as [|n IH].
  - rewrite add_times_0.
    rewrite (exact_lit_proper _ 0%Q) by (simpl; ring). by rewrite num_add_0_r.
  - rewrite add_times_S, IH, lit_of_nat_S. ring.
Qed.
(** Adding any number [d] [n] times adds [n * d]. *)
Lemma add_times_scaled n d x :
  add_times n d x ≡ x ⊕ lit (inject_Z (Z.of_nat n)) ⊗ d.
Proof.
  induction n as [|n IH].
  - rewrite add_times_0.
    change (lit (inject_Z (Z.of_nat 0))) with (lit (R:=R) 0). ring.
  - rewrite add_times_S, IH.
    rewrite (exact_lit_proper (inject_Z (Z.of_nat (S n)))
               (inject_Z (Z.of_nat n) + 1)%Q), lit_add.
    + ring.
    + rewrite Nat2Z.inj_succ. unfold Z.succ. by rewrite inject_Z_plus.
Qed.
End exact.

(** The literals of the program, as doubles. *)
Lemma float_lit_0_01 : float_lit (1 # 100) = 0x1.47ae147ae147bp-7%float.
Proof. reflexivity. Qed.

Lemma float_lit_30 : float_lit 30 = 30%float.
Proof. reflexivity. Qed.

Lemma float_NaN : PrimFloat.is_nan (NaN (R:=float)) = true.
Proof. reflexivity. Qed.

Lemma float_NaN_absorbs :
  PrimFloat.is_nan (lit 1 ⊕ to_number (R:=float) None) = true
  ∧ PrimFloat.is_nan (to_number (R:=float) None ⊗ lit 0.6) = true.
Proof. split; reflexivity. Qed.

(** Binary64 addition is not associative: [float] is no [ExactNumber]. *)
Lemma float_add_not_assoc :
  ¬ (∀ x y z : float, x ⊕ (y ⊕ z) = x ⊕ y ⊕ z).
Proof.
  intros Hassoc.
  specialize (Hassoc (lit (1 # 10)) (lit (2 # 10)) (lit (3 # 10))).
  vm_compute in Hassoc. discriminate Hassoc.
Qed.

Lemma float_not_exact : ¬ ExactNumber float.
Proof.
  intros Hex. apply float_add_not_assoc. intros x y z.
  exact (num_add_assoc (R:=float) x y z).
Qed.
