(* ===== verification/Vector.v ===== *)
(** * Vectors

    three.js keeps an object's [position] in a [Vector3] and its [rotation]
    in an [Euler]; the program reads and writes only their [x], [y], [z]
    fields, so both are the record [Vector3].  The operations are the ones
    the source uses: [set(x, y, z)], [setZ(z)], assignment to one field
    ([torus.position.z = -20]) and compound assignment to one field
    ([moon.rotation.x += 0.05]). *)

From S2P Require Import Prelude Number.

Record Vector3 (R : Type) : Type := mkVector3 { vx : R; vy : R; vz : R }.
Arguments mkVector3 {R} vx vy vz.
Arguments vx {R} v.
Arguments vy {R} v.
Arguments vz {R} v.

Section operations.
Context {R : Type} `{Number R}.
Implicit Types (v w : Vector3 R) (a b c d : R).

(** The value three.js gives a new object's position and rotation. *)
Definition vzero : Vector3 R := mkVector3 (lit 0) (lit 0) (lit 0).

(** [v.set(a, b, c)] *)
Definition vset a b c v : Vector3 R := mkVector3 a b c.

(** [v.x = a], [v.y = a], [v.z = a] ([v.setZ(a)] is the last). *)
Definition set_x a v : Vector3 R := mkVector3 a (vy v) (vz v).
Definition set_y a v : Vector3 R := mkVector3 (vx v) a (vz v).
Definition set_z a v : Vector3 R := mkVector3 (vx v) (vy v) a.

(** [v.x += d], [v.y += d], [v.z += d] *)
Definition add_x d v : Vector3 R := set_x (vx v ⊕ d) v.
Definition add_y d v : Vector3 R := set_y (vy v ⊕ d) v.
Definition add_z d v : Vector3 R := set_z (vz v ⊕ d) v.

(** Componentwise sum, the reference the field-by-field updates are
    compared with. *)
Definition vadd v w : Vector3 R :=
  mkVector3 (vx v ⊕ vx w) (vy v ⊕ vy w) (vz v ⊕ vz w).

(** The vector of three literals. *)
Definition vlit (a b c : Q) : Vector3 R := mkVector3 (lit a) (lit b) (lit c).

(** [n] times the vector of literals [(a, b, c)]. *)
Definition vscale_lit (n : nat) (a b c : Q) : Vector3 R :=
  let k := inject_Z (Z.of_nat n) in vlit (k * a) (k * b) (k * c).

(** Vectors are compared componentwise, up to the equivalence of the
    numbers. *)
#[export] Instance Vector3_equiv : Equiv (Vector3 R) :=
  λ v w, vx v ≡ vx w ∧ vy v ≡ vy w ∧ vz v ≡ vz w.

End operations.

Infix "+ᵥ" := vadd (at level 50, left associativity) : anim_scope.

(** ** Lemmas *)

Section lemmas.
Context {R : Type} `{Number R}.
Implicit Types (v w : Vector3 R) (a b c d : R).

Lemma Vector3_eta v : mkVector3 (vx v) (vy v) (vz v) = v.
Proof. by destruct v. Qed.

Lemma Vector3_eq v w : vx v = vx w → vy v = vy w → vz v = vz w → v = w.
Proof. destruct v, w; simpl; congruence. Qed.

(** The three compound assignments of a handler, in the order the source
    writes them, are one vector addition. *)
Lemma add_xyz_vadd a b c v :
  add_z c (add_y b (add_x a v)) = v +ᵥ mkVector3 a b c.
Proof. by destruct v. Qed.

(** Assignments to different fields commute. *)
Lemma add_x_add_y a b v : add_x a (add_y b v) = add_y b (add_x a v).
Proof. reflexivity. Qed.

Lemma add_x_add_z a c v : add_x a (add_z c v) = add_z c (add_x a v).
Proof. reflexivity. Qed.

Lemma add_y_add_z b c v : add_y b (add_z c v) = add_z c (add_y b v).
Proof. reflexivity. Qed.

(** An assignment to [z] forgets the previous [z] and nothing else. *)
Lemma set_z_set_z a b v : set_z a (set_z b v) = set_z a v.
Proof. reflexivity. Qed.

Lemma vz_set_z a v : vz (set_z a v) = a.
Proof. reflexivity. Qed.

Lemma vx_set_z a v : vx (set_z a v) = vx v.
Proof. reflexivity. Qed.

Lemma vy_set_z a v : vy (set_z a v) = vy v.
Proof. reflexivity. Qed.

(** Repeating the three compound assignments [n] times. *)
Lemma iter_add_xyz n a b c v :
  Nat.iter n (λ u, add_z c (add_y b (add_x a u))) v
  = mkVector3 (add_times n a (vx v)) (add_times n b (vy v))
              (add_times n c (vz v)).
Proof.
  induction n as [|n IH]; simpl; [by destruct v|].
  rewrite IH. reflexivity.
Qed.

(** The same for a handler that leaves [x] alone. *)
Lemma iter_add_yz n b c v :
  Nat.iter n (λ u, add_z c (add_y b u)) v
  = mkVector3 (vx v) (add_times n b (vy v)) (add_times n c (vz v)).
Proof.
  induction n as [|n IH]; simpl; [by destruct v|].
  rewrite IH. reflexivity.
Qed.

(** The same for a handler that leaves [z] alone. *)
Lemma iter_add_xy n a b v :
  Nat.iter n (λ u, add_y b (add_x a u)) v
  = mkVector3 (add_times n a (vx v)) (add_times n b (vy v)) (vz v).
Proof.
  induction n as [|n IH]; simpl; [by destruct v|].
  rewrite IH. reflexivity.
Qed.
End lemmas.

#[export] Hint Rewrite @vz_set_z @vx_set_z @vy_set_z @set_z_set_z : anim.

Section equivalence.
Context {R : Type} `{ExactNumber R}.
Implicit Types (v w : Vector3 R).

#[export] Instance Vector3_equivalence : Equivalence (≡@{Vector3 R}).
Proof.
  split.
  - by intros v.
  - intros v w (? & ? & ?). by repeat split.
  - intros u v w (? & ? & ?) (? & ? & ?). repeat split; by etrans.
Qed.

#[export] Instance vadd_proper : Proper ((≡) ==> (≡) ==> (≡)) (vadd (R:=R)).
Proof.
  intros v v' (Hx & Hy & Hz) w w' (Hx' & Hy' & Hz').
  repeat split; simpl; by f_equiv.
Qed.

#[export] Instance vx_proper : Proper ((≡) ==> (≡)) (vx (R:=R)).
Proof. by intros v w (? & ? & ?). Qed.

#[export] Instance vy_proper : Proper ((≡) ==> (≡)) (vy (R:=R)).
Proof. by intros v w (? & ? & ?). Qed.

#[export] Instance vz_proper : Proper ((≡) ==> (≡)) (vz (R:=R)).
Proof. by intros v w (? & ? & ?). Qed.

Lemma vadd_vzero_l v : vzero +ᵥ v ≡ v.
Proof. repeat split; simpl; rewrite num_add_comm; apply num_add_0_r. Qed.

(** [n] rounds of [+= (a, b, c)] add [n * (a, b, c)]. *)
Lemma iter_add_xyz_closed n (a b c : Q) v :
  Nat.iter n (λ u, add_z (lit c) (add_y (lit b) (add_x (lit a) u))) v
  ≡ v +ᵥ vscale_lit n a b c.
Proof.
  rewrite iter_add_xyz. repeat split; simpl; apply add_times_closed.
Qed.

Lemma iter_add_yz_closed n (b c : Q) v :
  Nat.iter n (λ u, add_z (lit c) (add_y (lit b) u)) v
  ≡ v +ᵥ vscale_lit n 0 b c.
Proof.
  rewrite iter_add_yz. repeat split; simpl; try apply add_times_closed.
  rewrite (exact_lit_proper _ 0%Q) by (simpl; ring).
  symmetry. apply num_add_0_r.
Qed.
End equivalence.
