(* ===== verification/Scene.v ===== *)
(** * The scene graph store

    The three.js objects the effect creates, and the scene that holds them.
    An object's identity is its index in the heap [objects]; the scene's
    [children] and every variable of the effect that names an object hold
    such an index, so an update through one alias is seen through all.

    [new_Mesh] and the light constructors model [new THREE.Mesh(...)] and
    friends as the source calls them.  [scene_add], [scene_remove],
    [TextureLoader_load] and [Math_random] model library and host calls
    from the specification: [add] appends (after detaching the object from
    its former place, so a child is listed once); a texture is handed out
    at once and loads later; [Math.random()] is the next value of an
    oracle. *)

From S2P Require Import Prelude Number Vector.

(** The four images of lines 4-7. *)
Inductive Asset : Type := moonImg | spaceImg | jeffImg | normalImg.

#[export] Instance Asset_eq_dec : EqDecision Asset.
Proof. solve_decision. Defined.

Inductive LoadState : Type := Pending | Loaded | Failed.

#[export] Instance LoadState_eq_dec : EqDecision LoadState.
Proof. solve_decision. Defined.

Record Texture : Type := mkTexture { image : Asset; load_state : LoadState }.

#[export] Instance Texture_eq_dec : EqDecision Texture.
Proof. solve_decision. Defined.

Inductive Geometry (R : Type) : Type :=
| TorusGeometry (radius tube : R) (radialSegments tubularSegments : nat)
| SphereGeometry (radius : R) (widthSegments heightSegments : nat)
| BoxGeometry (width height depth : R).
Arguments TorusGeometry {R}.
Arguments SphereGeometry {R}.
Arguments BoxGeometry {R}.

(** The parameter object of [new THREE.MeshStandardMaterial({...})]: a key
    the source does not pass is [None].  Textures are indices into the
    texture heap. *)
Record Material (R : Type) : Type := MeshStandardMaterial {
  mat_color : option Z;
  mat_roughness : option R;
  mat_metalness : option R;
  mat_map : option nat;
  mat_normalMap : option nat;
}.
Arguments MeshStandardMaterial {R}.
Arguments mat_color {R}.
Arguments mat_roughness {R}.
Arguments mat_metalness {R}.
Arguments mat_map {R}.
Arguments mat_normalMap {R}.

(** The constructor calls of the source.  An argument a call leaves out is
    [None]: [new THREE.PointLight(0xffffff)] gives no intensity. *)
Inductive ObjectKind (R : Type) : Type :=
| Mesh (geometry : Geometry R) (material : Material R)
| PointLight (color : Z) (intensity : option R)
| AmbientLight (color : Z) (intensity : option R).
Arguments Mesh {R}.
Arguments PointLight {R}.
Arguments AmbientLight {R}.

Record Object3D (R : Type) : Type := mkObject3D {
  kind : ObjectKind R;
  position : Vector3 R;
  rotation : Vector3 R;
}.
Arguments mkObject3D {R}.
Arguments kind {R}.
Arguments position {R}.
Arguments rotation {R}.

(** [scene] ([children], [background]) with the heaps it points into and
    the number of [Math.random()] calls made so far. *)
Record Store (R : Type) : Type := mkStore {
  objects : list (Object3D R);
  textures : list Texture;
  children : list nat;
  background : option nat;
  draws : nat;
}.
Arguments mkStore {R}.
Arguments objects {R}.
Arguments textures {R}.
Arguments children {R}.
Arguments background {R}.
Arguments draws {R}.

Section operations.
Context {R : Type} `{Number R}.
Implicit Types (s : Store R) (o : Object3D R) (id : nat).

Definition on_position (f : Vector3 R → Vector3 R) o : Object3D R :=
  mkObject3D (kind o) (f (position o)) (rotation o).

Definition on_rotation (f : Vector3 R → Vector3 R) o : Object3D R :=
  mkObject3D (kind o) (position o) (f (rotation o)).

Definition is_mesh o : bool :=
  match kind o with Mesh _ _ => true | _ => false end.

(** [new THREE.Scene()]: no children, no background, empty heaps. *)
Definition Scene : Store R := mkStore [] [] [] None 0.

(** A constructor call: the new object goes to the end of the heap, at the
    origin and unrotated, and its index is returned. *)
Definition new_Object3D (k : ObjectKind R) : ST (Store R) nat :=
  λ s, (length (objects s),
        mkStore (objects s ++ [mkObject3D k vzero vzero]) (textures s)
                (children s) (background s) (draws s)).

Definition new_Mesh (g : Geometry R) (m : Material R) : ST (Store R) nat :=
  new_Object3D (Mesh g m).

(** An assignment through a reference: [obj.position.z = ...],
    [obj.rotation.x += ...]. *)
Definition update_object id (f : Object3D R → Object3D R) :
  ST (Store R) unit :=
  st_modify (λ s, mkStore (alter f id (objects s)) (textures s)
                          (children s) (background s) (draws s)).

(** [scene.remove(obj)] *)
Definition scene_remove id : ST (Store R) unit :=
  st_modify (λ s, mkStore (objects s) (textures s)
                          (filter (λ j, j ≠ id) (children s))
                          (background s) (draws s)).

(** [scene.add(obj)]: the object is detached from where it was and pushed
    at the end of [children]. *)
Definition scene_add id : ST (Store R) unit :=
  st_modify (λ s, mkStore (objects s) (textures s)
                          (filter (λ j, j ≠ id) (children s) ++ [id])
                          (background s) (draws s)).

(** [new THREE.TextureLoader().load(img)]: the texture object exists at
    once; its image arrives later. *)
Definition TextureLoader_load (img : Asset) : ST (Store R) nat :=
  λ s, (length (textures s),
        mkStore (objects s) (textures s ++ [mkTexture img Pending])
                (children s) (background s) (draws s)).

(** [scene.background = tex] *)
Definition set_background (tex : nat) : ST (Store R) unit :=
  st_modify (λ s, mkStore (objects s) (textures s) (children s)
                          (Some tex) (draws s)).

(** [Math.random()]: the next value of the oracle [random]. *)
Definition Math_random (random : nat → R) : ST (Store R) R :=
  λ s, (random (draws s),
        mkStore (objects s) (textures s) (children s) (background s)
                (S (draws s))).

(** The end of an image load, successful or not. *)
Definition texture_settled (tex : nat) (st : LoadState) s : Store R :=
  mkStore (objects s)
          (alter (λ t, mkTexture (image t) st) tex (textures s))
          (children s) (background s) (draws s).

(** ** Reading the store *)

Definition rotation_of id s : option (Vector3 R) := rotation <$> objects s !! id.

Definition position_of id s : option (Vector3 R) := position <$> objects s !! id.

(** The textures a material refers to. *)
Definition material_textures (m : Material R) : list nat :=
  option_list (mat_map m) ++ option_list (mat_normalMap m).

Definition object_textures o : list nat :=
  match kind o with
  | Mesh _ m => material_textures m
  | _ => []
  end.

(** ** Well-formedness

    Every child is an object of the heap and is listed once; the background
    and the maps of every material are textures of the heap. *)
Record store_wf s : Prop := {
  wf_children : Forall (λ id, id < length (objects s)) (children s);
  wf_nodup : NoDup (children s);
  wf_background : ∀ t, background s = Some t → t < length (textures s);
  wf_materials :
    Forall (λ o, Forall (λ t, t < length (textures s)) (object_textures o))
           (objects s);
}.

End operations.

(** ** Lemmas *)

Section lemmas.
Context {R : Type} `{Number R}.
Implicit Types (s : Store R) (o : Object3D R) (id j : nat).

Lemma kind_on_position f o : kind (on_position f o) = kind o.
Proof. reflexivity. Qed.

Lemma kind_on_rotation f o : kind (on_rotation f o) = kind o.
Proof. reflexivity. Qed.

Lemma on_rotation_on_position f g o :
  on_rotation f (on_position g o) = on_position g (on_rotation f o).
Proof. reflexivity. Qed.

(** A store is determined by its five fields. *)
Lemma Store_eq s s' :
  objects s = objects s' → textures s = textures s' →
  children s = children s' → background s = background s' →
  draws s = draws s' → s = s'.
Proof. destruct s, s'; simpl; congruence. Qed.

Lemma Scene_wf : store_wf (Scene (R:=R)).
Proof. split; simpl; [constructor | constructor | done | constructor]. Qed.

(** *** Allocation *)

Lemma new_Object3D_id k s : st_eval (new_Object3D k) s = length (objects s).
Proof. reflexivity. Qed.

Lemma new_Object3D_lookup k s :
  objects (st_exec (new_Object3D k) s) !! length (objects s)
  = Some (mkObject3D k vzero vzero).
Proof. simpl. by rewrite list_lookup_middle. Qed.

Lemma new_Object3D_lookup_old k s j :
  j < length (objects s) →
  objects (st_exec (new_Object3D k) s) !! j = objects s !! j.
Proof. intros Hj. simpl. by rewrite lookup_app_l. Qed.

Lemma new_Object3D_wf k s :
  Forall (λ t, t < length (textures s))
         (object_textures (mkObject3D k vzero vzero)) →
  store_wf s → store_wf (st_exec (new_Object3D k) s).
Proof.
  intros Hk [Hc Hn Hb Hm]. split; simpl; [|done|done|].
  - eapply Forall_impl; [exact Hc|]. intros j Hj; simpl in *.
    rewrite length_app. lia.
  - apply Forall_app. split; [done | by constructor].
Qed.

(** *** Updates through a reference *)

Lemma update_object_lookup id f s j :
  objects (st_exec (update_object id f) s) !! j
  = if decide (id = j) then f <$> objects s !! id else objects s !! j.
Proof. apply list_lookup_alter. Qed.

Lemma update_object_lookup_ne id f s j :
  id ≠ j → objects (st_exec (update_object id f) s) !! j = objects s !! j.
Proof. intros. by apply list_lookup_alter_ne. Qed.

Lemma update_object_lookup_eq id f s :
  objects (st_exec (update_object id f) s) !! id = f <$> objects s !! id.
Proof. apply list_lookup_alter_eq. Qed.

Lemma update_object_length id f s :
  length (objects (st_exec (update_object id f) s)) = length (objects s).
Proof. apply length_alter. Qed.

(** An update that keeps the kind of the object keeps the store
    well-formed; an update through a dangling index changes nothing. *)
Lemma update_object_wf id f s :
  (∀ o, kind (f o) = kind o) →
  store_wf s → store_wf (st_exec (update_object id f) s).
Proof.
  intros Hf [Hc Hn Hb Hm]. split; simpl; [|done|done|].
  - by rewrite length_alter.
  - apply Forall_alter; [done|]. intros o _.
    unfold object_textures. by rewrite Hf.
Qed.

Lemma update_object_dangling id f s :
  length (objects s) ≤ id → st_exec (update_object id f) s = s.
Proof.
  intros Hid. destruct s as [os ts cs bg d]. cbv [st_exec update_object st_modify].
  simpl in *. f_equal.
  apply list_eq. intros j. rewrite list_lookup_alter.
  case_decide; [subst|done]. by rewrite (lookup_ge_None_2 os j).
Qed.

(** Well-formedness looks at the kinds of the objects only: a heap with
    the same kinds at the same indices is as well-formed. *)
Lemma store_wf_kinds s s' :
  (∀ j, kind <$> objects s' !! j = kind <$> objects s !! j) →
  textures s' = textures s → children s' = children s →
  background s' = background s →
  store_wf s → store_wf s'.
Proof.
  intros Hk Ht Hc Hb [Hch Hn Hbg Hm].
  assert (length (objects s') = length (objects s)) as Hlen.
  { rewrite <- (length_fmap kind (objects s')), <- (length_fmap kind (objects s)).
    f_equal. apply list_eq. intros j. by rewrite !list_lookup_fmap. }
  split; rewrite ?Hc, ?Hb, ?Ht, ?Hlen; try done.
  apply Forall_lookup. intros j o' Ho'. specialize (Hk j). rewrite Ho' in Hk.
  destruct (objects s !! j) as [o|] eqn:Ho; [|done].
  injection Hk as Hk. unfold object_textures. rewrite Hk.
  exact (proj1 (Forall_lookup _ _) Hm j o Ho).
Qed.

(** *** The scene's children *)

Lemma scene_add_fresh id s :
  id ∉ children s →
  children (st_exec (scene_add id) s) = children s ++ [id].
Proof.
  intros Hid. simpl. by rewrite filter_ne_id.
Qed.

Lemma scene_add_elem id s : id ∈ children (st_exec (scene_add id) s).
Proof. simpl. apply elem_of_app. right. by apply list_elem_of_singleton. Qed.

Lemma scene_add_elem_old id j s :
  j ∈ children s → j ∈ children (st_exec (scene_add id) s).
Proof.
  intros Hj. simpl. destruct (decide (j = id)) as [->|Hne].
  - apply elem_of_app. right. by apply list_elem_of_singleton.
  - apply elem_of_app. left. by apply list_elem_of_filter.
Qed.

Lemma scene_add_wf id s :
  id < length (objects s) → store_wf s → store_wf (st_exec (scene_add id) s).
Proof.
  intros Hid [Hc Hn Hb Hm]. split; simpl; [| |done|done].
  - apply Forall_app. split; [by apply Forall_filter | by apply Forall_singleton].
  - apply NoDup_app. split_and!.
    + by apply NoDup_filter.
    + intros j [Hne _]%list_elem_of_filter ->%list_elem_of_singleton.
      by destruct Hne.
    + apply NoDup_singleton.
Qed.

(** After [remove] the scene no longer refers to the object. *)
Lemma scene_remove_not_elem id s :
  id ∉ children (st_exec (scene_remove id) s).
Proof. simpl. by intros [? _]%list_elem_of_filter. Qed.

Lemma scene_remove_wf id s :
  store_wf s → store_wf (st_exec (scene_remove id) s).
Proof.
  intros [Hc Hn Hb Hm]. split; simpl; [| |done|done].
  - by apply Forall_filter.
  - by apply NoDup_filter.
Qed.

(** Adding a new child and removing it again restores the scene. *)
Lemma scene_remove_add id s :
  id ∉ children s →
  st_exec (scene_remove id) (st_exec (scene_add id) s) = s.
Proof.
  intros Hid. destruct s as [os ts cs bg d].
  cbv [st_exec scene_remove scene_add st_modify]. simpl in *. f_equal.
  rewrite filter_ne_snoc, (filter_ne_id id cs) by done. by apply filter_ne_id.
Qed.

(** *** Textures, background, random numbers *)

Lemma TextureLoader_load_id img s :
  st_eval (TextureLoader_load img) s = length (textures s).
Proof. reflexivity. Qed.

Lemma TextureLoader_load_wf img s :
  store_wf s → store_wf (st_exec (TextureLoader_load img) s).
Proof.
  intros [Hc Hn Hb Hm]. split; simpl; [done|done| |].
  - intros t Ht. rewrite length_app. specialize (Hb t Ht). lia.
  - eapply Forall_impl; [exact Hm|]. intros o Ho; simpl in *.
    eapply Forall_impl; [exact Ho|]. intros t Ht; simpl in *.
    rewrite length_app. lia.
Qed.

Lemma set_background_wf tex s :
  tex < length (textures s) →
  store_wf s → store_wf (st_exec (set_background tex) s).
Proof. intros Ht [Hc Hn Hb Hm]. split; simpl; [done|done| |done]. by intros ? [= <-]. Qed.

Lemma Math_random_wf random s :
  store_wf s → store_wf (st_exec (Math_random random) s).
Proof. by intros [Hc Hn Hb Hm]. Qed.

Lemma texture_settled_wf tex st s :
  store_wf s → store_wf (texture_settled tex st s).
Proof.
  intros [Hc Hn Hb Hm]. split; simpl; [done|done| |].
  - intros t Ht. rewrite length_alter. by apply Hb.
  - by rewrite length_alter.
Qed.
End lemmas.

#[export] Hint Resolve Scene_wf new_Object3D_wf update_object_wf scene_add_wf
  scene_remove_wf TextureLoader_load_wf set_background_wf Math_random_wf
  texture_settled_wf : anim.
