(* ===== verification/Camera.v ===== *)
(** * The camera rig

    [new THREE.PerspectiveCamera(fov, aspect, near, far)] (lines 14-19) and
    the one write the effect makes to it, [camera.position.setZ(30)]
    (line 20).  Two drivers write the camera afterwards: the scroll handler
    ([Scroll]) assigns [position.z]; the orbit controller, which [src/] only
    calls, is the function [controls_update] of the environment.  What the
    specification promises about the controller, that it leaves
    [position.z] and the lens to the other driver, is the predicate
    [orbit_disjoint]. *)

From S2P Require Import Prelude Number Vector.

Record Camera (R : Type) : Type := mkCamera {
  fov : R;
  aspect : R;
  near : R;
  far : R;
  cam_position : Vector3 R;
  cam_rotation : Vector3 R;
}.
Arguments mkCamera {R}.
Arguments fov {R}.
Arguments aspect {R}.
Arguments near {R}.
Arguments far {R}.
Arguments cam_position {R}.
Arguments cam_rotation {R}.

Section operations.
Context {R : Type} `{Number R}.
Implicit Types (c : Camera R).

(** A new camera sits at the origin, unrotated. *)
Definition PerspectiveCamera (fov aspect near far : R) : Camera R :=
  mkCamera fov aspect near far vzero vzero.

Definition on_cam_position (f : Vector3 R → Vector3 R) c : Camera R :=
  mkCamera (fov c) (aspect c) (near c) (far c) (f (cam_position c))
           (cam_rotation c).

(** The lens: the fields neither driver may touch. *)
Definition lens c : R * R * R * R := (fov c, aspect c, near c, far c).

(** The part of the camera the scroll driver does not write. *)
Definition off_depth c : R * R * Vector3 R * (R * R * R * R) :=
  (vx (cam_position c), vy (cam_position c), cam_rotation c, lens c).

(** An orbit controller writes fields disjoint from the scroll driver's:
    its [k]-th update keeps [position.z] and the lens. *)
Definition orbit_disjoint (update : nat → Camera R → Camera R) : Prop :=
  ∀ k c, vz (cam_position (update k c)) = vz (cam_position c)
         ∧ lens (update k c) = lens c.

(** The controller that never receives input. *)
Definition inert_controls : nat → Camera R → Camera R := λ _ c, c.

End operations.

Section lemmas.
Context {R : Type} `{Number R}.
Implicit Types (c : Camera R).

Lemma cam_position_on_cam_position f c :
  cam_position (on_cam_position f c) = f (cam_position c).
Proof. reflexivity. Qed.

Lemma lens_on_cam_position f c : lens (on_cam_position f c) = lens c.
Proof. reflexivity. Qed.

(** Assigning [position.z] leaves everything else of the camera alone. *)
Lemma off_depth_set_z a c : off_depth (on_cam_position (set_z a) c) = off_depth c.
Proof. reflexivity. Qed.

(** A second assignment of [position.z] overwrites the first. *)
Lemma on_cam_position_set_z_twice a b c :
  on_cam_position (set_z a) (on_cam_position (set_z b) c)
  = on_cam_position (set_z a) c.
Proof. reflexivity. Qed.

Lemma inert_controls_disjoint : orbit_disjoint (inert_controls (R:=R)).
Proof. by intros k c. Qed.

(** A camera is determined by its depth and the rest. *)
Lemma Camera_eq c c' :
  vz (cam_position c) = vz (cam_position c') →
  off_depth c = off_depth c' → c = c'.
Proof.
  destruct c as [f a n fr [x y z] r], c' as [f' a' n' fr' [x' y' z'] r'].
  unfold off_depth, lens; simpl. intros -> [= -> -> -> -> -> -> ->]. done.
Qed.
End lemmas.

#[export] Hint Resolve inert_controls_disjoint : anim.
#[export] Hint Rewrite @cam_position_on_cam_position @lens_on_cam_position
  @off_depth_set_z : anim.
