(* ===== verification/Render.v ===== *)
(** * The render sink

    [new THREE.WebGLRenderer({ canvas, antialias: true })] and its
    configuration (lines 21-27), and [renderer.render(scene, camera)]
    (line 113).  The renderer is library code: it is modelled from the
    specification as a sink that either records the frame it was given or
    fails.  A frame is the snapshot of the store and the camera at the
    moment of the call: what a rasteriser would read.  Construction fails
    with [ConstructionError] when the host has no graphics context;
    rendering fails with [TickFailure] once the context is lost. *)

From S2P Require Import Prelude Number Vector Scene Camera.

Inductive ColorSpace : Type := SRGBColorSpace | LinearSRGBColorSpace.

#[export] Instance ColorSpace_eq_dec : EqDecision ColorSpace.
Proof. solve_decision. Defined.

Record Frame (R : Type) : Type := mkFrame {
  frame_store : Store R;
  frame_camera : Camera R;
}.
Arguments mkFrame {R}.
Arguments frame_store {R}.
Arguments frame_camera {R}.

(** A setting the effect has not made yet is [None]. *)
Record Renderer (R : Type) : Type := mkRenderer {
  antialias : bool;
  pixelRatio : option R;
  size : option (R * R);
  outputColorSpace : option ColorSpace;
  context_lost : bool;
  frames : list (Frame R);
}.
Arguments mkRenderer {R}.
Arguments antialias {R}.
Arguments pixelRatio {R}.
Arguments size {R}.
Arguments outputColorSpace {R}.
Arguments context_lost {R}.
Arguments frames {R}.

Section operations.
Context {R : Type} `{Number R}.
Implicit Types (r : Renderer R) (s : Store R) (c : Camera R).

(** The constructor throws when no graphics context can be had. *)
Definition WebGLRenderer (webgl : bool) (antialias : bool) :
  Error + Renderer R :=
  if webgl then inr (mkRenderer antialias None None None false [])
  else inl ConstructionError.

Definition setPixelRatio (p : R) r : Renderer R :=
  mkRenderer (antialias r) (Some p) (size r) (outputColorSpace r)
             (context_lost r) (frames r).

Definition setSize (w h : R) r : Renderer R :=
  mkRenderer (antialias r) (pixelRatio r) (Some (w, h)) (outputColorSpace r)
             (context_lost r) (frames r).

Definition set_outputColorSpace (cs : ColorSpace) r : Renderer R :=
  mkRenderer (antialias r) (pixelRatio r) (size r) (Some cs)
             (context_lost r) (frames r).

(** What the effect configures of the renderer. *)
Definition settings r : bool * option R * option (R * R) * option ColorSpace :=
  (antialias r, pixelRatio r, size r, outputColorSpace r).

(** The host takes the graphics context away. *)
Definition lose_context r : Renderer R :=
  mkRenderer (antialias r) (pixelRatio r) (size r) (outputColorSpace r)
             true (frames r).

(** [renderer.render(scene, camera)]: one frame is produced, or the call
    throws and produces none. *)
Definition render s c r : Outcome (Renderer R) :=
  if context_lost r then Thrown TickFailure r
  else Done (mkRenderer (antialias r) (pixelRatio r) (size r)
                        (outputColorSpace r) (context_lost r)
                        (frames r ++ [mkFrame s c])).

End operations.

Section lemmas.
Context {R : Type} `{Number R}.
Implicit Types (r : Renderer R) (s : Store R) (c : Camera R).

Lemma WebGLRenderer_error webgl aa :
  (WebGLRenderer webgl aa : Error + Renderer R) = inl ConstructionError
  ↔ webgl = false.
Proof. unfold WebGLRenderer. destruct webgl; naive_solver. Qed.

Lemma render_ok s c r :
  context_lost r = false →
  ∃ r', render s c r = Done r'
        ∧ frames r' = frames r ++ [mkFrame s c]
        ∧ context_lost r' = false.
Proof. intros Hok. unfold render. rewrite Hok. by eexists. Qed.

Lemma render_lost s c r :
  context_lost r = true → render s c r = Thrown TickFailure r.
Proof. intros Hlost. unfold render. by rewrite Hlost. Qed.

(** Rendering never removes a frame, and adds at most one. *)
Lemma render_frames s c r :
  frames (final (render s c r))
  = frames r ++ (if context_lost r then [] else [mkFrame s c]).
Proof. unfold render. destruct (context_lost r); simpl; by rewrite ?app_nil_r. Qed.

Lemma render_context_lost s c r :
  context_lost (final (render s c r)) = context_lost r.
Proof. unfold render. by destruct (context_lost r) eqn:?. Qed.

Lemma render_settings s c r : settings (final (render s c r)) = settings r.
Proof. unfold render. by destruct (context_lost r). Qed.

Lemma lose_context_settings r : settings (lose_context r) = settings r.
Proof. reflexivity. Qed.
End lemmas.
