(* ===== verification/App.v ===== *)
(** * The state of the component and the construction of the scene

    [Env] is what the effect reads from its surroundings: the window
    metrics, whether the canvas can give a graphics context, the values
    [Math.random()] returns, and the two library functions whose results
    the program depends on but whose code [src/] does not contain
    ([THREE.MathUtils.randFloatSpread] and [OrbitControls.update]).

    [App] is what the effect leaves behind for its two callbacks: the
    scene, the camera, the renderer, the closure variables that alias
    objects of the scene, and the two registrations it made with the host
    ([document.body.onscroll] and [requestAnimationFrame]).

    [setup] is lines 13-86 of [src/src/App.jsx], in source order; the
    pieces are named after the comment that heads each block of the
    source. *)

From S2P Require Import Prelude Number Vector Scene Camera Render.

Record Env (R : Type) : Type := mkEnv {
  innerWidth : R;
  innerHeight : R;
  devicePixelRatio : R;
  webgl : bool;
  random : nat → R;
  spread : R → R → R;
  controls_update : nat → Camera R → Camera R;
}.
Arguments mkEnv {R}.
Arguments innerWidth {R}.
Arguments innerHeight {R}.
Arguments devicePixelRatio {R}.
Arguments webgl {R}.
Arguments random {R}.
Arguments spread {R}.
Arguments controls_update {R}.

Record App (R : Type) : Type := mkApp {
  scene : Store R;
  camera : Camera R;
  renderer : Renderer R;
  torus : nat;
  pointLight : nat;
  ambientLight : nat;
  spaceTexture : nat;
  jeffTexture : nat;
  jeffBox : nat;
  moonTexture : nat;
  normalTexture : nat;
  moon : nat;
  updates : nat;
  onscroll : bool;
  raf : nat;
}.
Arguments mkApp {R}.
Arguments scene {R}.
Arguments camera {R}.
Arguments renderer {R}.
Arguments torus {R}.
Arguments pointLight {R}.
Arguments ambientLight {R}.
Arguments spaceTexture {R}.
Arguments jeffTexture {R}.
Arguments jeffBox {R}.
Arguments moonTexture {R}.
Arguments normalTexture {R}.
Arguments moon {R}.
Arguments updates {R}.
Arguments onscroll {R}.
Arguments raf {R}.

(** The variables of the effect that name objects and textures. *)
Record Refs : Type := mkRefs {
  r_torus : nat;
  r_pointLight : nat;
  r_ambientLight : nat;
  r_spaceTexture : nat;
  r_jeffTexture : nat;
  r_jeffBox : nat;
  r_moonTexture : nat;
  r_normalTexture : nat;
  r_moon : nat;
}.

Section construction.
Context {R : Type} `{Number R}.
Implicit Types (env : Env R) (s : Store R) (a : App R).

(** Field updates of [App]. *)
Definition with_scene s a : App R :=
  mkApp s (camera a) (renderer a) (torus a) (pointLight a) (ambientLight a)
        (spaceTexture a) (jeffTexture a) (jeffBox a) (moonTexture a)
        (normalTexture a) (moon a) (updates a) (onscroll a) (raf a).

Definition with_camera (c : Camera R) a : App R :=
  mkApp (scene a) c (renderer a) (torus a) (pointLight a) (ambientLight a)
        (spaceTexture a) (jeffTexture a) (jeffBox a) (moonTexture a)
        (normalTexture a) (moon a) (updates a) (onscroll a) (raf a).

Definition with_updates (n : nat) a : App R :=
  mkApp (scene a) (camera a) (renderer a) (torus a) (pointLight a)
        (ambientLight a) (spaceTexture a) (jeffTexture a) (jeffBox a)
        (moonTexture a) (normalTexture a) (moon a) n (onscroll a) (raf a).

Definition with_renderer (r : Renderer R) a : App R :=
  mkApp (scene a) (camera a) r (torus a) (pointLight a) (ambientLight a)
        (spaceTexture a) (jeffTexture a) (jeffBox a) (moonTexture a)
        (normalTexture a) (moon a) (updates a) (onscroll a) (raf a).

Definition with_onscroll (bound : bool) a : App R :=
  mkApp (scene a) (camera a) (renderer a) (torus a) (pointLight a)
        (ambientLight a) (spaceTexture a) (jeffTexture a) (jeffBox a)
        (moonTexture a) (normalTexture a) (moon a) (updates a) bound (raf a).

Definition with_raf (pending : nat) a : App R :=
  mkApp (scene a) (camera a) (renderer a) (torus a) (pointLight a)
        (ambientLight a) (spaceTexture a) (jeffTexture a) (jeffBox a)
        (moonTexture a) (normalTexture a) (moon a) (updates a) (onscroll a)
        pending.

(** [THREE.MathUtils.randFloatSpread(range)]: one call of [Math.random()],
    spread over an interval of length [range] around zero. *)
Definition randFloatSpread env (range : R) : ST (Store R) R :=
  u ← Math_random (random env); mret (spread env range u).

(** Lines 29-38. *)
Definition make_torus : ST (Store R) nat :=
  let geometry := TorusGeometry (lit 10) (lit 3) 16 100 in
  let material :=
    MeshStandardMaterial (Some 0xff6347%Z) (Some (lit 0.4)) (Some (lit 0.3))
                         None None in
  torus ← new_Mesh geometry material;
  update_object torus (on_position (set_z (⊝ lit 20)));;
  scene_add torus;;
  mret torus.

(** Lines 40-44; [scene.add(a, b)] adds [a], then [b]. *)
Definition make_lights : ST (Store R) (nat * nat) :=
  pointLight ← new_Object3D (PointLight 0xffffff%Z (Some (lit 2)));
  update_object pointLight (on_position (vset (lit 20) (lit 20) (lit 20)));;
  ambientLight ← new_Object3D (AmbientLight 0xffffff%Z (Some (lit 0.7)));
  scene_add pointLight;;
  scene_add ambientLight;;
  mret (pointLight, ambientLight).

(** Lines 50-59.  [forEach] passes the element and the index; [addStar]
    looks at neither. *)
Definition addStar env (_ : nat) : ST (Store R) unit :=
  let geometry := SphereGeometry (lit 0.25) 24 24 in
  let material := MeshStandardMaterial (Some 0xffffff%Z) None None None None in
  star ← new_Mesh geometry material;
  x ← randFloatSpread env (lit 100);
  y ← randFloatSpread env (lit 100);
  z ← randFloatSpread env (lit 100);
  update_object star (on_position (vset x y z));;
  scene_add star.

(** Line 60, for a star count [n] (200 in the source). *)
Definition make_stars env (n : nat) : ST (Store R) unit :=
  forEach n (addStar env).

(** Line 60 as the language runs it: [Array.from({ length: n })] is an
    array of [n] times [undefined], which no variable names, and
    [forEach] walks it by index. *)
Definition make_stars_js env (n fuel : nat) : Store R → option (Store R) :=
  forEach_js (λ _, replicate n ()) (λ i _, addStar env i) fuel.

(** The star [addStar] creates when [d] random numbers have been drawn
    before: its coordinates are the next three, in the order x, y, z. *)
Definition star env (d : nat) : Object3D R :=
  mkObject3D
    (Mesh (SphereGeometry (lit 0.25) 24 24)
          (MeshStandardMaterial (Some 0xffffff%Z) None None None None))
    (mkVector3 (spread env (lit 100) (random env d))
               (spread env (lit 100) (random env (S d)))
               (spread env (lit 100) (random env (S (S d)))))
    vzero.

(** The [n] stars created from draw [d] on. *)
Definition stars env (d n : nat) : list (Object3D R) :=
  (λ i, star env (d + 3 * i)) <$> seq 0 n.

(** Lines 62-64. *)
Definition make_background : ST (Store R) nat :=
  spaceTexture ← TextureLoader_load spaceImg;
  set_background spaceTexture;;
  mret spaceTexture.

(** Lines 66-73. *)
Definition make_jeff : ST (Store R) (nat * nat) :=
  jeffTexture ← TextureLoader_load jeffImg;
  jeffBox ← new_Mesh (BoxGeometry (lit 3) (lit 3) (lit 3))
                     (MeshStandardMaterial None None None (Some jeffTexture)
                                           None);
  update_object jeffBox (on_position (vset (lit 2) (lit 0) (⊝ lit 5)));;
  scene_add jeffBox;;
  mret (jeffTexture, jeffBox).

(** Lines 75-86. *)
Definition make_moon : ST (Store R) (nat * nat * nat) :=
  moonTexture ← TextureLoader_load moonImg;
  normalTexture ← TextureLoader_load normalImg;
  moon ← new_Mesh (SphereGeometry (lit 3) 32 32)
                  (MeshStandardMaterial None None None (Some moonTexture)
                                        (Some normalTexture));
  update_object moon (on_position (vset (⊝ lit 10) (lit 0) (lit 30)));;
  scene_add moon;;
  mret (moonTexture, normalTexture, moon).

(** Everything the effect puts into the scene, in source order. *)
Definition populate env : ST (Store R) Refs :=
  torus ← make_torus;
  '(pointLight, ambientLight) ← make_lights;
  make_stars env 200;;
  spaceTexture ← make_background;
  '(jeffTexture, jeffBox) ← make_jeff;
  '(moonTexture, normalTexture, moon) ← make_moon;
  mret (mkRefs torus pointLight ambientLight spaceTexture jeffTexture jeffBox
               moonTexture normalTexture moon).

(** Lines 13-86: the scene, the camera, the renderer (whose constructor may
    throw, before anything is added to the scene), then the objects.  No
    callback is registered yet. *)
Definition setup env : Error + App R :=
  let camera :=
    PerspectiveCamera (lit 75) (innerWidth env ⊘ innerHeight env) (lit 0.1)
                      (lit 1000) in
  let camera := on_cam_position (set_z (lit 30)) camera in
  match WebGLRenderer (webgl env) true with
  | inl e => inl e
  | inr renderer =>
      let renderer := setPixelRatio (devicePixelRatio env) renderer in
      let renderer := setSize (innerWidth env) (innerHeight env) renderer in
      let renderer := set_outputColorSpace SRGBColorSpace renderer in
      let '(refs, scene) := populate env Scene in
      inr (mkApp scene camera renderer (r_torus refs) (r_pointLight refs)
                 (r_ambientLight refs) (r_spaceTexture refs)
                 (r_jeffTexture refs) (r_jeffBox refs) (r_moonTexture refs)
                 (r_normalTexture refs) (r_moon refs) 0 false 0)
  end.

(** ** The result of the construction, in closed form

    The objects of the scene as [setup] leaves them: the torus, the two
    lights, the stars, the jeff box and the moon, in this order in the heap
    and among the scene's children. *)
Definition torus0 : Object3D R :=
  mkObject3D
    (Mesh (TorusGeometry (lit 10) (lit 3) 16 100)
          (MeshStandardMaterial (Some 0xff6347%Z) (Some (lit 0.4))
                                (Some (lit 0.3)) None None))
    (mkVector3 (lit 0) (lit 0) (⊝ lit 20)) vzero.

Definition pointLight0 : Object3D R :=
  mkObject3D (PointLight 0xffffff%Z (Some (lit 2)))
             (mkVector3 (lit 20) (lit 20) (lit 20)) vzero.

Definition ambientLight0 : Object3D R :=
  mkObject3D (AmbientLight 0xffffff%Z (Some (lit 0.7))) vzero vzero.

Definition jeffBox0 : Object3D R :=
  mkObject3D
    (Mesh (BoxGeometry (lit 3) (lit 3) (lit 3))
          (MeshStandardMaterial None None None (Some 1) None))
    (mkVector3 (lit 2) (lit 0) (⊝ lit 5)) vzero.

Definition moon0 : Object3D R :=
  mkObject3D
    (Mesh (SphereGeometry (lit 3) 32 32)
          (MeshStandardMaterial None None None (Some 2) (Some 3)))
    (mkVector3 (⊝ lit 10) (lit 0) (lit 30)) vzero.

Definition scene0 env : Store R :=
  mkStore ([torus0; pointLight0; ambientLight0] ++ stars env 0 200
           ++ [jeffBox0; moon0])
          [mkTexture spaceImg Pending; mkTexture jeffImg Pending;
           mkTexture moonImg Pending; mkTexture normalImg Pending]
          (seq 0 205) (Some 0) 600.

Definition refs0 : Refs := mkRefs 0 1 2 0 1 203 2 3 204.

Definition camera0 env : Camera R :=
  mkCamera (lit 75) (innerWidth env ⊘ innerHeight env) (lit 0.1) (lit 1000)
           (mkVector3 (lit 0) (lit 0) (lit 30)) vzero.

Definition renderer0 env : Renderer R :=
  mkRenderer true (Some (devicePixelRatio env))
             (Some (innerWidth env, innerHeight env)) (Some SRGBColorSpace)
             false [].

Definition app0 env : App R :=
  mkApp (scene0 env) (camera0 env) (renderer0 env) 0 1 2 0 1 203 2 3 204
        0 false 0.

(** ** Frames

    [kept a a']: in going from [a] to [a'] the variables of the effect
    still name the same objects and textures, the scene has the same
    children and background, no random number was drawn, and the scroll
    binding is as it was.  Both callbacks keep all of this. *)
Record kept a a' : Prop := Kept {
  kept_torus : torus a' = torus a;
  kept_moon : moon a' = moon a;
  kept_jeffBox : jeffBox a' = jeffBox a;
  kept_lights : (pointLight a', ambientLight a') = (pointLight a, ambientLight a);
  kept_textures :
    (spaceTexture a', jeffTexture a', moonTexture a', normalTexture a')
    = (spaceTexture a, jeffTexture a, moonTexture a, normalTexture a);
  kept_children : children (scene a') = children (scene a);
  kept_background : background (scene a') = background (scene a);
  kept_draws : draws (scene a') = draws (scene a);
  kept_size : length (objects (scene a')) = length (objects (scene a));
  kept_onscroll : onscroll a' = onscroll a;
}.

(** ** Well-formedness

    The store is well-formed, and the three variables the callbacks write
    through name three different meshes that are children of the scene. *)
Definition mesh_at (id : nat) s : Prop :=
  ∃ o, objects s !! id = Some o ∧ is_mesh o = true.

Record wf a : Prop := {
  wf_store : store_wf (scene a);
  wf_torus : mesh_at (torus a) (scene a);
  wf_moon : mesh_at (moon a) (scene a);
  wf_jeffBox : mesh_at (jeffBox a) (scene a);
  wf_distinct : NoDup [torus a; moon a; jeffBox a];
  wf_shown :
    torus a ∈ children (scene a) ∧ moon a ∈ children (scene a)
    ∧ jeffBox a ∈ children (scene a);
}.

End construction.

Section lemmas.
Context {R : Type} `{Number R}.
Implicit Types (env : Env R) (s : Store R) (a : App R) (id : nat).

#[export] Instance kept_preorder : PreOrder (kept (R:=R)).
Proof.
  split.
  - by intros a.
  - intros a b c [] []. split; congruence.
Qed.

(** *** The star field *)

Lemma addStar_exec env i s :
  length (objects s) ∉ children s →
  st_exec (addStar env i) s
  = mkStore (objects s ++ [star env (draws s)]) (textures s)
            (children s ++ [length (objects s)]) (background s)
            (3 + draws s).
Proof.
  intros Hfresh. unfold addStar, randFloatSpread, new_Mesh, new_Object3D,
    Math_random, update_object, scene_add. st_run. simpl. f_equal.
  - by rewrite <- (Nat.add_0_r (length (objects s))), alter_app_r.
  - by rewrite filter_ne_id.
Qed.

Lemma stars_S env d n : stars env d (S n) = stars env d n ++ [star env (d + 3 * n)].
Proof. unfold stars. by rewrite seq_S, fmap_app. Qed.

Lemma length_stars env d n : length (stars env d n) = n.
Proof. unfold stars. by rewrite length_fmap, length_seq. Qed.

Lemma stars_lookup env d n i :
  i < n → stars env d n !! i = Some (star env (d + 3 * i)).
Proof.
  intros Hi. unfold stars. rewrite list_lookup_fmap, lookup_seq_lt by done.
  reflexivity.
Qed.

Lemma elem_of_stars env d n o :
  o ∈ stars env d n ↔ ∃ i, i < n ∧ o = star env (d + 3 * i).
Proof.
  unfold stars. rewrite list_elem_of_fmap. split.
  - intros (i & -> & Hi%elem_of_seq). exists i. split; [lia | done].
  - intros (i & Hi & ->). exists i. split; [done|]. apply elem_of_seq. lia.
Qed.

(** The store after [n] calls of [addStar]: [n] more objects, each a star
    placed by three consecutive random numbers, [n] more children, [3 n]
    more draws, and nothing else. *)
Lemma make_stars_exec env n s :
  store_wf s →
  st_exec (make_stars env n) s
  = mkStore (objects s ++ stars env (draws s) n) (textures s)
            (children s ++ seq (length (objects s)) n) (background s)
            (3 * n + draws s).
Proof.
  intros [Hc _ _ _]. unfold make_stars.
  apply (forEach_invariant (λ j s',
    s' = mkStore (objects s ++ stars env (draws s) j) (textures s)
                 (children s ++ seq (length (objects s)) j) (background s)
                 (3 * j + draws s))).
  - destruct s; simpl. by rewrite !app_nil_r.
  - intros j s' _ ->.
    rewrite addStar_exec; cbn [objects children draws textures background].
    + rewrite stars_S, seq_S, !length_app, length_stars, <- !app_assoc.
      replace (3 * j + draws s) with (draws s + 3 * j) by lia.
      f_equal. lia.
    + rewrite length_app, length_stars, elem_of_app, elem_of_seq.
      rewrite Forall_forall in Hc. intros [Hin%Hc|?]; lia.
Qed.

(** The loop of line 60 ends after [n] calls, and is [make_stars]. *)
Lemma make_stars_js_ends env n fuel s :
  n ≤ fuel → make_stars_js env n fuel s = Some (st_exec (make_stars env n) s).
Proof.
  intros Hfuel. unfold make_stars_js, make_stars, forEach.
  rewrite forEach_js_stable by (by rewrite ?length_replicate).
  by rewrite forEach_ix_from.
Qed.

(** *** The construction *)

(** The statements of [populate] build exactly [scene0] and bind the
    variables as [refs0] says. *)
Lemma populate_exec env : populate env Scene = (refs0, scene0 env).
Proof. vm_compute. reflexivity. Qed.

Lemma setup_ok env : webgl env = true → setup env = inr (app0 env).
Proof. intros Hgl. unfold setup. by rewrite Hgl, populate_exec. Qed.

Lemma setup_error env :
  webgl env = false → setup env = inl ConstructionError.
Proof. intros Hgl. unfold setup. by rewrite Hgl. Qed.

Lemma star_textures env d : object_textures (star env d) = [].
Proof. reflexivity. Qed.

Lemma stars_textures env d n :
  Forall (λ o, object_textures o = []) (stars env d n).
Proof. unfold stars. apply Forall_fmap, Forall_forall. by intros i _. Qed.

Lemma scene0_length env : length (objects (scene0 env)) = 205.
Proof. unfold scene0; cbn [objects]. by rewrite !length_app, length_stars. Qed.

Lemma scene0_head env : objects (scene0 env) !! 0 = Some torus0.
Proof. reflexivity. Qed.

Lemma scene0_rest env :
  textures (scene0 env)
  = [mkTexture spaceImg Pending; mkTexture jeffImg Pending;
     mkTexture moonImg Pending; mkTexture normalImg Pending]
  ∧ children (scene0 env) = seq 0 205
  ∧ background (scene0 env) = Some 0 ∧ draws (scene0 env) = 600.
Proof. done. Qed.

(** Objects 3 to 202 of the heap are the stars, in the order of creation. *)
Lemma scene0_star env i :
  i < 200 → objects (scene0 env) !! (3 + i) = Some (star env (3 * i)).
Proof.
  intros Hi. unfold scene0; cbn [objects].
  rewrite lookup_app_r by (simpl; lia).
  rewrite lookup_app_l by (rewrite length_stars; simpl; lia).
  replace (3 + i - length [torus0; pointLight0; ambientLight0 (R:=R)]) with i
    by (simpl; lia).
  by rewrite stars_lookup.
Qed.

(** The last two objects of the heap are the jeff box and the moon. *)
Lemma scene0_tail env i :
  objects (scene0 env) !! (203 + i) = [jeffBox0; moon0] !! i.
Proof.
  unfold scene0; cbn [objects].
  rewrite lookup_app_r by (simpl; lia).
  rewrite lookup_app_r by (rewrite length_stars; simpl; lia).
  rewrite length_stars. f_equal. simpl. lia.
Qed.

Lemma scene0_wf env : store_wf (scene0 env).
Proof.
  split.
  - apply Forall_forall. intros id Hid%elem_of_seq.
    rewrite scene0_length. lia.
  - apply NoDup_seq.
  - intros t [= <-]. simpl. lia.
  - unfold scene0; cbn [objects textures].
    apply Forall_app; split; [|apply Forall_app; split].
    + repeat constructor.
    + eapply Forall_impl; [apply stars_textures|]. by intros o ->.
    + repeat constructor; simpl; lia.
Qed.

(** An update that keeps the kind of every object keeps meshes meshes. *)
Lemma mesh_at_kind id s s' :
  kind <$> objects s' !! id = kind <$> objects s !! id →
  mesh_at id s → mesh_at id s'.
Proof.
  intros Hk (o & Ho & Hm). rewrite Ho in Hk. unfold mesh_at.
  destruct (objects s' !! id) as [o'|]; simplify_eq/=.
  exists o'. split; [done|]. unfold is_mesh in *. by rewrite Hk.
Qed.

Lemma mesh_at_lt id s : mesh_at id s → id < length (objects s).
Proof. intros (o & Ho & _). by eapply lookup_lt_Some. Qed.

(** Rewriting the rotations of the heap keeps the application
    well-formed. *)
Lemma wf_with_scene s a :
  store_wf s →
  children s = children (scene a) →
  (∀ id, kind <$> objects s !! id = kind <$> objects (scene a) !! id) →
  wf a → wf (with_scene s a).
Proof.
  intros Hs Hc Hk [_ Ht Hm Hj Hd Hin]. split; simpl; try done.
  - by apply (mesh_at_kind _ (scene a)).
  - by apply (mesh_at_kind _ (scene a)).
  - by apply (mesh_at_kind _ (scene a)).
  - by rewrite Hc.
Qed.

(** Well-formedness looks at the scene and at the three aliases only. *)
Lemma wf_same a a' :
  scene a' = scene a → torus a' = torus a → moon a' = moon a →
  jeffBox a' = jeffBox a → wf a → wf a'.
Proof.
  intros Hs Ht Hm Hj [? ? ? ? ? ?]. split; rewrite ?Hs, ?Ht, ?Hm, ?Hj; done.
Qed.

Lemma app0_wf env : wf (app0 env).
Proof.
  split; cbn [app0 scene torus moon jeffBox].
  - apply scene0_wf.
  - by exists torus0.
  - exists moon0. split; [exact (scene0_tail env 1) | done].
  - exists jeffBox0. split; [exact (scene0_tail env 0) | done].
  - apply NoDup_3. lia.
  - unfold scene0; cbn [children]. rewrite !elem_of_seq. lia.
Qed.

Lemma wf_moon_jeffBox a : wf a → moon a ≠ jeffBox a.
Proof. intros [_ _ _ _ Hd%NoDup_3 _]. tauto. Qed.

Lemma wf_torus_moon a : wf a → torus a ≠ moon a.
Proof. intros [_ _ _ _ Hd%NoDup_3 _]. tauto. Qed.

Lemma wf_torus_jeffBox a : wf a → torus a ≠ jeffBox a.
Proof. intros [_ _ _ _ Hd%NoDup_3 _]. tauto. Qed.
End lemmas.

(** ** The construction as a whole *)

Section program.
Context {R : Type} `{Number R}.
Implicit Types (env : Env R) (s : Store R).

(** C23: The statements of the effect build exactly the closed form
    [app0]: run one after the other on an empty scene they leave 205
    objects (the torus, the two lights, 200 stars, the jeff box, the moon,
    in this order), four pending textures, the background bound to the
    first of them, 600 random numbers drawn, and the variables bound to
    the objects they were assigned; or they fail with [ConstructionError]
    at the renderer's constructor, when the host has no graphics
    context. *)
Theorem setup_builds_scene0 env :
  setup env = (if webgl env then inr (app0 env) else inl ConstructionError)
  ∧ populate env Scene = (refs0, scene0 env).
Proof.
  split; [|apply populate_exec].
  destruct (webgl env) eqn:Hgl; [by apply setup_ok | by apply setup_error].
Qed.

(** C24: The star-field generator adds exactly [n] stars: run on any
    well-formed scene, [forEach(addStar)] over [n] elements appends [n]
    objects to the heap, the [i]-th a sphere of radius 0.25 placed at the
    spread of the random numbers [3 i], [3 i + 1], [3 i + 2] drawn from
    then on, appends them to the scene's children in the same order,
    draws [3 n] random numbers, and changes nothing else. *)
Theorem star_field_generated env n s :
  store_wf s →
  st_exec (make_stars env n) s
  = mkStore (objects s ++ stars env (draws s) n) (textures s)
            (children s ++ seq (length (objects s)) n) (background s)
            (3 * n + draws s)
  ∧ length (stars env (draws s) n) = n.
Proof. intros Hs. split; [by apply make_stars_exec | apply length_stars]. Qed.

End program.

(** Reduce the projections of an updated [App], and nothing else. *)
Ltac app_simpl :=
  cbn [scene camera renderer torus pointLight ambientLight spaceTexture
       jeffTexture jeffBox moonTexture normalTexture moon updates onscroll raf
       with_scene with_camera with_updates with_renderer with_onscroll
       with_raf] in *.

#[export] Hint Resolve wf_moon_jeffBox wf_torus_moon wf_torus_jeffBox
  app0_wf scene0_wf : anim.

(** From here on the initial scene is used through its lemmas only. *)
#[global] Opaque stars scene0.
