(* ===== verification/Scroll.v ===== *)
(** * The scroll driver

    [moveCamera] (lines 89-100 of [src/src/App.jsx]).  The handler reads the
    page offset [t = document.body.getBoundingClientRect().top], which is
    the argument [t] here, turns the moon and the jeff box by fixed angles,
    one field at a time as the source does, and assigns the camera depth
    [30 + t * -0.01]. *)

From S2P Require Import Prelude Number Vector Scene Camera Render App.

Section scroll.
Context {R : Type} `{Number R}.
Implicit Types (t : R) (a : App R).

(** Lines 92-97: the five compound assignments. *)
Definition turn_decor a : ST (Store R) unit :=
  update_object (moon a) (on_rotation (add_x (lit 0.05)));;
  update_object (moon a) (on_rotation (add_y (lit 0.075)));;
  update_object (moon a) (on_rotation (add_z (lit 0.05)));;
  update_object (jeffBox a) (on_rotation (add_y (lit 0.01)));;
  update_object (jeffBox a) (on_rotation (add_z (lit 0.01))).

(** Line 99: the depth the offset [t] maps to. *)
Definition scrollToCameraZ t : R := lit 30 ⊕ t ⊗ ⊝ lit 0.01.

Definition moveCamera t a : App R :=
  let a := with_scene (st_exec (turn_decor a) (scene a)) a in
  with_camera (on_cam_position (set_z (scrollToCameraZ t)) (camera a)) a.

(** The rotation one scroll event adds to the moon and to the jeff box. *)
Definition moon_step (v : Vector3 R) : Vector3 R :=
  add_z (lit 0.05) (add_y (lit 0.075) (add_x (lit 0.05) v)).

Definition jeff_step (v : Vector3 R) : Vector3 R :=
  add_z (lit 0.01) (add_y (lit 0.01) v).

(** The handler in one piece: the state a call of [moveCamera] leaves,
    written out field by field. *)
Definition moveCamera_result t a : App R :=
  mkApp
    (mkStore
       (alter (on_rotation jeff_step) (jeffBox a)
              (alter (on_rotation moon_step) (moon a) (objects (scene a))))
       (textures (scene a)) (children (scene a)) (background (scene a))
       (draws (scene a)))
    (mkCamera (fov (camera a)) (aspect (camera a)) (near (camera a))
              (far (camera a))
              (mkVector3 (vx (cam_position (camera a)))
                         (vy (cam_position (camera a)))
                         (lit 30 ⊕ t ⊗ ⊝ lit 0.01))
              (cam_rotation (camera a)))
    (renderer a) (torus a) (pointLight a) (ambientLight a) (spaceTexture a)
    (jeffTexture a) (jeffBox a) (moonTexture a) (normalTexture a) (moon a)
    (updates a) (onscroll a) (raf a).

End scroll.

(** ** Lemmas *)

Section lemmas.
Context {R : Type} `{Number R}.
Implicit Types (t : R) (a : App R) (s : Store R) (id : nat).

(** The five assignments as two heap updates. *)
Lemma turn_decor_objects a s :
  objects (st_exec (turn_decor a) s)
  = alter (on_rotation jeff_step) (jeffBox a)
          (alter (on_rotation moon_step) (moon a) (objects s)).
Proof.
  unfold turn_decor, update_object. st_run. simpl.
  by rewrite !list_alter_alter_eq.
Qed.

Lemma turn_decor_rest a s :
  let s' := st_exec (turn_decor a) s in
  children s' = children s ∧ textures s' = textures s
  ∧ background s' = background s ∧ draws s' = draws s.
Proof. done. Qed.

Lemma turn_decor_wf a s : store_wf s → store_wf (st_exec (turn_decor a) s).
Proof.
  intros Hs. unfold turn_decor. rewrite !st_exec_bind.
  repeat (apply update_object_wf; [done|]). done.
Qed.

(** C3: [moveCamera] as a whole: the six assignments of the handler turn
    the moon by [(0.05, 0.075, 0.05)] and the jeff box by [(0, 0.01, 0.01)]
    in the heap, set the camera's z position to [30 + t * -0.01], and
    change nothing else: no other object, no other field of the camera,
    not the renderer, not the bindings, not the registrations. *)
Theorem moveCamera_spec t a : moveCamera t a = moveCamera_result t a.
Proof.
  unfold moveCamera, moveCamera_result, with_camera, with_scene.
  cbn [scene camera renderer torus pointLight ambientLight spaceTexture
       jeffTexture jeffBox moonTexture normalTexture moon updates onscroll raf].
  f_equal. apply Store_eq; try done. apply turn_decor_objects.
Qed.

(** The scene after a scroll event. *)
Lemma moveCamera_objects t a :
  objects (scene (moveCamera t a))
  = alter (on_rotation jeff_step) (jeffBox a)
          (alter (on_rotation moon_step) (moon a) (objects (scene a))).
Proof. apply turn_decor_objects. Qed.

(** The camera after a scroll event: the depth is a function of the offset
    alone, the rest is as before. *)
Lemma moveCamera_camera t a :
  camera (moveCamera t a)
  = on_cam_position (set_z (scrollToCameraZ t)) (camera a).
Proof. reflexivity. Qed.

(** A scroll event changes no object but the moon and the jeff box. *)
Lemma moveCamera_other t a id :
  id ≠ moon a → id ≠ jeffBox a →
  objects (scene (moveCamera t a)) !! id = objects (scene a) !! id.
Proof.
  intros Hm Hj. rewrite moveCamera_objects.
  by rewrite !list_lookup_alter_ne.
Qed.

Lemma moveCamera_moon t a :
  moon a ≠ jeffBox a →
  objects (scene (moveCamera t a)) !! moon a
  = on_rotation moon_step <$> objects (scene a) !! moon a.
Proof.
  intros Hne. rewrite moveCamera_objects.
  by rewrite list_lookup_alter_ne, list_lookup_alter_eq.
Qed.

Lemma moveCamera_jeffBox t a :
  moon a ≠ jeffBox a →
  objects (scene (moveCamera t a)) !! jeffBox a
  = on_rotation jeff_step <$> objects (scene a) !! jeffBox a.
Proof.
  intros Hne. rewrite moveCamera_objects.
  by rewrite list_lookup_alter_eq, list_lookup_alter_ne.
Qed.

(** No object changes kind or position. *)
Lemma moveCamera_kind_position t a id :
  (λ o, (kind o, position o)) <$> objects (scene (moveCamera t a)) !! id
  = (λ o, (kind o, position o)) <$> objects (scene a) !! id.
Proof.
  rewrite moveCamera_objects. by rewrite !lookup_alter_fmap_inv.
Qed.

(** What a scroll event leaves alone: the aliases and the scene's lists
    ([kept]), the registrations, the renderer, and all of the camera but
    its depth. *)
Lemma moveCamera_kept t a : kept a (moveCamera t a).
Proof. split; try done. by rewrite moveCamera_objects, !length_alter. Qed.

Lemma moveCamera_frame t a :
  let a' := moveCamera t a in
  raf a' = raf a ∧ updates a' = updates a ∧ renderer a' = renderer a
  ∧ textures (scene a') = textures (scene a)
  ∧ off_depth (camera a') = off_depth (camera a).
Proof. done. Qed.

(** The scroll handler preserves well-formedness. *)
Lemma moveCamera_wf t a : wf a → wf (moveCamera t a).
Proof.
  intros Hwf. apply (wf_same (with_scene (st_exec (turn_decor a) (scene a)) a));
    [done..|].
  apply wf_with_scene; [apply turn_decor_wf, Hwf | done | | done].
  intros id. rewrite turn_decor_objects. by rewrite !lookup_alter_fmap_inv.
Qed.
End lemmas.

(** From here on [moveCamera] is used through its lemmas. *)
#[global] Opaque moveCamera.
