(* ===== verification/Animate.v ===== *)
(** * The clock-driven animator and the render call

    [animate] (lines 105-114 of [src/src/App.jsx]), statement by statement:
    the callback registers itself for the next frame first, then turns the
    torus, then lets the orbit controller update the camera, then renders.
    Because the registration comes first, an exception thrown by a later
    statement leaves the next frame scheduled. *)

From S2P Require Import Prelude Number Vector Scene Camera Render App.

Section animate.
Context {R : Type} `{Number R}.
Implicit Types (env : Env R) (a : App R).

(** Line 106. *)
Definition requestAnimationFrame a : App R := with_raf (S (raf a)) a.

(** Lines 108-110. *)
Definition spin_torus a : ST (Store R) unit :=
  update_object (torus a) (on_rotation (add_x (lit 0.01)));;
  update_object (torus a) (on_rotation (add_y (lit 0.005)));;
  update_object (torus a) (on_rotation (add_z (lit 0.01))).

(** Line 112: the next update of the orbit controller. *)
Definition controls_update_call env a : App R :=
  with_updates (S (updates a))
    (with_camera (controls_update env (updates a) (camera a)) a).

(** Line 113. *)
Definition render_call a : Outcome (App R) :=
  Outcome_map (λ r, with_renderer r a)
              (render (scene a) (camera a) (renderer a)).

Definition animate env a : Outcome (App R) :=
  let a := requestAnimationFrame a in
  let a := with_scene (st_exec (spin_torus a) (scene a)) a in
  let a := controls_update_call env a in
  render_call a.

(** The rotation one tick adds to the torus. *)
Definition torus_step (v : Vector3 R) : Vector3 R :=
  add_z (lit 0.01) (add_y (lit 0.005) (add_x (lit 0.01) v)).

(** The state a call of [animate] reaches before it renders, written out
    field by field. *)
Definition animate_state env a : App R :=
  mkApp
    (mkStore (alter (on_rotation torus_step) (torus a) (objects (scene a)))
             (textures (scene a)) (children (scene a)) (background (scene a))
             (draws (scene a)))
    (controls_update env (updates a) (camera a))
    (renderer a) (torus a) (pointLight a) (ambientLight a) (spaceTexture a)
    (jeffTexture a) (jeffBox a) (moonTexture a) (normalTexture a) (moon a)
    (S (updates a)) (onscroll a) (S (raf a)).

(** The renderer with one more frame in its log. *)
Definition with_frame (f : Frame R) (r : Renderer R) : Renderer R :=
  mkRenderer (antialias r) (pixelRatio r) (size r) (outputColorSpace r)
             (context_lost r) (frames r ++ [f]).

(** The outcome of a call of [animate] in one piece. *)
Definition animate_result env a : Outcome (App R) :=
  let a' := animate_state env a in
  if context_lost (renderer a) then Thrown TickFailure a'
  else Done (with_renderer (with_frame (mkFrame (scene a') (camera a'))
                                       (renderer a)) a').

End animate.

(** ** Lemmas *)

Section lemmas.
Context {R : Type} `{Number R}.
Implicit Types (env : Env R) (a : App R) (s : Store R) (id : nat).

Lemma spin_torus_objects a s :
  objects (st_exec (spin_torus a) s)
  = alter (on_rotation torus_step) (torus a) (objects s).
Proof.
  unfold spin_torus, update_object. st_run. simpl.
  by rewrite !list_alter_alter_eq.
Qed.

Lemma spin_torus_rest a s :
  let s' := st_exec (spin_torus a) s in
  children s' = children s ∧ textures s' = textures s
  ∧ background s' = background s ∧ draws s' = draws s.
Proof. done. Qed.

Lemma spin_torus_wf a s : store_wf s → store_wf (st_exec (spin_torus a) s).
Proof.
  intros Hs. unfold spin_torus. rewrite !st_exec_bind.
  repeat (apply update_object_wf; [done|]). done.
Qed.

(** C2: [animate] as a whole, on both branches: the call registers the
    next one, turns the torus by [(0.01, 0.005, 0.01)] in the heap, replaces
    the camera by the controller's update of it, and then either appends
    to the log the frame of the state so reached, or, the graphics context
    being lost, throws [TickFailure] with that state left in place.
    Nothing else changes. *)
Theorem animate_spec env a : animate env a = animate_result env a.
Proof.
  assert (st_exec (spin_torus (with_raf (S (raf a)) a)) (scene a)
          = scene (animate_state env a)) as Hs.
  { apply Store_eq; try done.
    exact (spin_torus_objects (with_raf (S (raf a)) a) (scene a)). }
  unfold animate, animate_result, render_call, render, controls_update_call,
    requestAnimationFrame.
  cbn [scene camera renderer updates with_updates with_camera with_scene
       with_raf].
  rewrite Hs. unfold with_frame.
  destruct (context_lost (renderer a)); reflexivity.
Qed.

(** The state [animate] reaches, whether or not the render call throws. *)
Lemma animate_final env a :
  final (animate env a)
  = with_renderer
      (final (render (st_exec (spin_torus a) (scene a))
                     (controls_update env (updates a) (camera a))
                     (renderer a)))
      (with_updates (S (updates a))
         (with_camera (controls_update env (updates a) (camera a))
            (with_scene (st_exec (spin_torus a) (scene a))
               (with_raf (S (raf a)) a)))).
Proof. unfold animate, render_call. by rewrite final_Outcome_map. Qed.

(** [animate] throws exactly when the graphics context is lost. *)
Lemma animate_thrown env a :
  thrown (animate env a)
  = if context_lost (renderer a) then Some TickFailure else None.
Proof.
  unfold animate, render_call, render. rewrite thrown_Outcome_map. simpl.
  by destruct (context_lost (renderer a)).
Qed.

Lemma animate_done env a :
  context_lost (renderer a) = false →
  animate env a = Done (final (animate env a)).
Proof.
  intros Hok. unfold animate, render_call, render. simpl. by rewrite Hok.
Qed.

Lemma animate_objects env a :
  objects (scene (final (animate env a)))
  = alter (on_rotation torus_step) (torus a) (objects (scene a)).
Proof. rewrite animate_final. apply spin_torus_objects. Qed.

Lemma animate_camera env a :
  camera (final (animate env a))
  = controls_update env (updates a) (camera a).
Proof. by rewrite animate_final. Qed.

Lemma animate_raf env a : raf (final (animate env a)) = S (raf a).
Proof. by rewrite animate_final. Qed.

Lemma animate_updates env a : updates (final (animate env a)) = S (updates a).
Proof. by rewrite animate_final. Qed.

(** The frame log grows by the frame of the updated state, or not at all
    when the context is lost. *)
Lemma animate_frames env a :
  frames (renderer (final (animate env a)))
  = frames (renderer a)
    ++ (if context_lost (renderer a) then []
        else [mkFrame (scene (final (animate env a)))
                      (camera (final (animate env a)))]).
Proof. rewrite !animate_final. simpl. apply render_frames. Qed.

Lemma animate_context_lost env a :
  context_lost (renderer (final (animate env a))) = context_lost (renderer a).
Proof. rewrite animate_final. simpl. apply render_context_lost. Qed.

Lemma animate_settings env a :
  settings (renderer (final (animate env a))) = settings (renderer a).
Proof. rewrite animate_final. cbn [renderer with_renderer]. apply render_settings. Qed.

(** What a tick leaves alone: the aliases and the scene's lists ([kept]),
    the textures, and every object but the torus ([animate_other]). *)
Lemma animate_kept env a : kept a (final (animate env a)).
Proof.
  split; try (by rewrite animate_final).
  by rewrite animate_objects, length_alter.
Qed.

Lemma animate_textures env a :
  textures (scene (final (animate env a))) = textures (scene a).
Proof. by rewrite animate_final. Qed.

Lemma animate_other env a id :
  id ≠ torus a →
  objects (scene (final (animate env a))) !! id = objects (scene a) !! id.
Proof. intros Hid. rewrite animate_objects. by rewrite list_lookup_alter_ne. Qed.

Lemma animate_torus env a :
  objects (scene (final (animate env a))) !! torus a
  = on_rotation torus_step <$> objects (scene a) !! torus a.
Proof. rewrite animate_objects. apply list_lookup_alter_eq. Qed.

(** No object changes kind or position. *)
Lemma animate_kind_position env a id :
  (λ o, (kind o, position o)) <$> objects (scene (final (animate env a))) !! id
  = (λ o, (kind o, position o)) <$> objects (scene a) !! id.
Proof. rewrite animate_objects. by rewrite lookup_alter_fmap_inv. Qed.

Lemma animate_wf env a : wf a → wf (final (animate env a)).
Proof.
  intros Hwf. rewrite animate_final.
  apply (wf_same (with_scene (st_exec (spin_torus a) (scene a)) a)); [done..|].
  apply wf_with_scene; [apply spin_torus_wf, Hwf | done | | done].
  intros id. rewrite spin_torus_objects. by rewrite lookup_alter_fmap_inv.
Qed.
End lemmas.

(** From here on [animate] is used through its lemmas. *)
#[global] Opaque animate.
