(* ===== verification/Loop.v ===== *)
(** * The page: mounting, events, runs

    [mount] is the whole effect (lines 13-116 of [src/src/App.jsx]):
    [setup], the binding of [moveCamera] to [document.body.onscroll]
    (line 102) and the first, synchronous call of [animate] (line 116).

    After the effect the program only reacts.  [World] is the mounted
    component together with the exceptions the host has been handed;
    [Event] lists what the host can do to it; [step] is the reaction, a
    total function; [Step] is the same reaction as a relation with one
    rule per case, the form in which the specification's state machine is
    read; [run] applies a list of events in order, which is the
    interleaving of the two drivers on the single-threaded event loop. *)

From S2P Require Import Prelude Number Vector Scene Camera Render App.
From S2P Require Import Scroll Animate.

Record World (R : Type) : Type := mkWorld {
  app : App R;
  reported : list Error;
}.
Arguments mkWorld {R}.
Arguments app {R}.
Arguments reported {R}.

Inductive Event (R : Type) : Type :=
| EvScroll (t : R)
| EvFrame
| EvContextLost
| EvTexture (tex : nat) (ok : bool)
| EvUnmount.
Arguments EvScroll {R}.
Arguments EvFrame {R}.
Arguments EvContextLost {R}.
Arguments EvTexture {R}.
Arguments EvUnmount {R}.

Section loop.
Context {R : Type} `{Number R}.
Implicit Types (env : Env R) (a : App R) (w : World R) (e : Event R).

(** Line 102. *)
Definition bind_onscroll a : App R := with_onscroll true a.

(** The effect.  [inl e]: the renderer's constructor threw and nothing
    was registered.  [inr o]: the scene was built, the scroll handler
    bound, and [o] is the outcome of the first call of [animate]. *)
Definition mount env : Error + Outcome (App R) :=
  match setup env with
  | inl e => inl e
  | inr a => inr (animate env (bind_onscroll a))
  end.

(** The world a finished effect leaves: an exception of the first
    [animate] call is reported to the host; the state it reached stays. *)
Definition world_of (o : Outcome (App R)) : World R :=
  mkWorld (final o) (option_list (thrown o)).

(** A scroll event runs the bound handler, if one is bound, with the
    offset the page has at that moment. *)
Definition on_scroll (t : R) w : World R :=
  if onscroll (app w) then mkWorld (moveCamera t (app w)) (reported w) else w.

(** One pending callback runs; what it throws is reported to the host. *)
Definition run_callback env w : World R :=
  let o := animate env (app w) in
  mkWorld (final o) (reported w ++ option_list (thrown o)).

(** A display refresh: the host takes the pending callbacks off its queue
    and runs each; those they register are for the next refresh. *)
Definition on_frame env w : World R :=
  Nat.iter (raf (app w)) (run_callback env)
           (mkWorld (with_raf 0 (app w)) (reported w)).

Definition on_context_lost w : World R :=
  mkWorld (with_renderer (lose_context (renderer (app w))) (app w))
          (reported w).

(** The end of an image load.  A failed load is not an exception: the
    texture stays without an image. *)
Definition on_texture (tex : nat) (ok : bool) w : World R :=
  mkWorld
    (with_scene
       (texture_settled tex (if ok then Loaded else Failed) (scene (app w)))
       (app w))
    (reported w).

(** The effect returns no cleanup function: unmounting the component
    cancels nothing and unbinds nothing. *)
Definition on_unmount w : World R := w.

Definition step env e w : World R :=
  match e with
  | EvScroll t => on_scroll t w
  | EvFrame => on_frame env w
  | EvContextLost => on_context_lost w
  | EvTexture tex ok => on_texture tex ok w
  | EvUnmount => on_unmount w
  end.

(** The events of a list, first to last. *)
Definition run env (es : list (Event R)) w : World R :=
  foldl (λ w e, step env e w) w es.

(** The same reactions, one rule per case. *)
Inductive Step env : World R → Event R → World R → Prop :=
| Step_scroll t w :
    onscroll (app w) = true →
    Step env w (EvScroll t) (mkWorld (moveCamera t (app w)) (reported w))
| Step_scroll_unbound t w :
    onscroll (app w) = false →
    Step env w (EvScroll t) w
| Step_frame w :
    Step env w EvFrame (on_frame env w)
| Step_context_lost w :
    Step env w EvContextLost (on_context_lost w)
| Step_texture tex ok w :
    Step env w (EvTexture tex ok) (on_texture tex ok w)
| Step_unmount w :
    Step env w EvUnmount w.

(** The worlds the program can be in: those the effect leaves, and those
    an event leads to from one of them. *)
Inductive reachable env : World R → Prop :=
| reachable_mount o :
    mount env = inr o → reachable env (world_of o)
| reachable_step w e w' :
    reachable env w → Step env w e w' → reachable env w'.

(** The offset of the last scroll event of a list, if it has one. *)
Definition last_scroll (es : list (Event R)) : option R :=
  foldl (λ acc e, match e with EvScroll t => Some t | _ => acc end) None es.

Definition is_frame e : bool :=
  match e with EvFrame => true | _ => false end.

Definition is_scroll e : bool :=
  match e with EvScroll _ => true | _ => false end.

Definition is_context_lost e : bool :=
  match e with EvContextLost => true | _ => false end.

(** How many events of a list satisfy a test. *)
Definition count (p : Event R → bool) (es : list (Event R)) : nat :=
  length (filter (λ e, p e = true) es).

(** The two states of the loop in the specification. *)
Definition running w : Prop := 0 < raf (app w).

End loop.

(** ** Lemmas: one step *)

Section step_lemmas.
Context {R : Type} `{Number R}.
Implicit Types (env : Env R) (a : App R) (w : World R) (e : Event R).

(** The world the effect leaves on a host with a graphics context. *)
Definition app1 env : App R := final (animate env (bind_onscroll (app0 env))).

Definition world0 env : World R := mkWorld (app1 env) [].

Lemma mount_ok env : webgl env = true → mount env = inr (Done (app1 env)).
Proof.
  intros Hgl. unfold mount. rewrite (setup_ok env Hgl).
  pose proof (animate_done env (bind_onscroll (app0 env)) eq_refl) as Hd.
  unfold app1. rewrite Hd at 1. reflexivity.
Qed.

Lemma mount_error env : webgl env = false → mount env = inl ConstructionError.
Proof. intros Hgl. unfold mount. by rewrite (setup_error env Hgl). Qed.

Lemma mount_world env o : mount env = inr o → world_of o = world0 env.
Proof.
  destruct (webgl env) eqn:Hgl.
  - rewrite (mount_ok env Hgl). by intros [= <-].
  - by rewrite (mount_error env Hgl).
Qed.

(** The relation and the function are the same reaction. *)
Lemma Step_step env w e w' : Step env w e w' ↔ step env e w = w'.
Proof.
  split.
  - intros []; simpl; unfold on_scroll; try done; by rewrite H0.
  - intros <-. destruct e; simpl; try constructor.
    unfold on_scroll. destruct (onscroll (app w)) eqn:Hb; by constructor.
Qed.

Lemma Step_total env w e : ∃ w', Step env w e w'.
Proof. exists (step env e w). by apply Step_step. Qed.

Lemma Step_deterministic env w e w1 w2 :
  Step env w e w1 → Step env w e w2 → w1 = w2.
Proof. intros H1%Step_step H2%Step_step. congruence. Qed.

Lemma run_nil env w : run env [] w = w.
Proof. reflexivity. Qed.

Lemma run_snoc env es e w : run env (es ++ [e]) w = step env e (run env es w).
Proof. unfold run. by rewrite foldl_snoc. Qed.

Lemma run_app env es1 es2 w :
  run env (es1 ++ es2) w = run env es2 (run env es1 w).
Proof. unfold run. by rewrite foldl_app. Qed.

(** A world is reachable exactly when it is a run from the mounted world. *)
Lemma reachable_run env w :
  reachable env w ↔ webgl env = true ∧ ∃ es, w = run env es (world0 env).
Proof.
  split.
  - induction 1 as [o Ho|w e w' _ [Hgl [es ->]] Hs].
    + split; [|exists []; by apply mount_world].
      destruct (webgl env) eqn:Hgl; [done|].
      by rewrite (mount_error env Hgl) in Ho.
    + split; [done|]. exists (es ++ [e]). rewrite run_snoc.
      symmetry. by apply Step_step.
  - intros [Hgl [es ->]]. induction es as [|e es IH] using rev_ind.
    + rewrite run_nil. rewrite <- (mount_world env (Done (app1 env))) at 1;
        [|by apply mount_ok].
      apply reachable_mount. by apply mount_ok.
    + rewrite run_snoc. eapply reachable_step; [exact IH|]. by apply Step_step.
Qed.

(** *** Callbacks and frames *)

Lemma app_run_callback env w :
  app (run_callback env w) = final (animate env (app w)).
Proof. reflexivity. Qed.

Lemma reported_run_callback env w :
  reported (run_callback env w)
  = reported w ++ (if context_lost (renderer (app w)) then [TickFailure]
                   else []).
Proof.
  unfold run_callback. simpl. rewrite animate_thrown.
  by destruct (context_lost (renderer (app w))).
Qed.

(** With one callback pending, a display refresh is one run of [animate]
    and leaves one callback pending. *)
Lemma on_frame_one env w :
  raf (app w) = 1 →
  on_frame env w
  = run_callback env (mkWorld (with_raf 0 (app w)) (reported w)).
Proof. intros Hr. unfold on_frame. by rewrite Hr. Qed.

(** A property of the application that [animate] preserves, whatever the
    pending count, is preserved by a display refresh. *)
Lemma on_frame_preserves (P : App R → Prop) env w :
  (∀ a, P a → P (final (animate env a))) →
  (∀ a n, P a → P (with_raf n a)) →
  P (app w) → P (app (on_frame env w)).
Proof.
  intros Hani Hraf Hw. unfold on_frame.
  apply (Nat.iter_invariant _ _ _ (λ w', P (app w'))).
  - intros w' Hw'. rewrite app_run_callback. by apply Hani.
  - by apply Hraf.
Qed.

(** Every event other than a display refresh leaves the pending count. *)
Lemma step_preserves (P : App R → Prop) env e w :
  (∀ a, P a → P (final (animate env a))) →
  (∀ a n, P a → P (with_raf n a)) →
  (∀ a t, P a → P (moveCamera t a)) →
  (∀ a r, P a → P (with_renderer r a)) →
  (∀ a tex st, P a → P (with_scene (texture_settled tex st (scene a)) a)) →
  P (app w) → P (app (step env e w)).
Proof.
  intros Hani Hraf Hscroll Hrend Htex Hw. destruct e; simpl.
  - unfold on_scroll. destruct (onscroll (app w)); [by apply Hscroll | done].
  - by apply on_frame_preserves.
  - by apply Hrend.
  - by apply Htex.
  - done.
Qed.
End step_lemmas.

(** ** Invariants of the reachable worlds *)

Section invariants.
Context {R : Type} `{Number R}.
Implicit Types (env : Env R) (a : App R) (w : World R) (e : Event R).

(** What never changes after the effect: the scroll handler is bound, and
    the aliases and the scene's children are those of [setup]. *)
Record anchored a : Prop := {
  anc_onscroll : onscroll a = true;
  anc_torus : torus a = 0;
  anc_moon : moon a = 204;
  anc_jeffBox : jeffBox a = 203;
  anc_children : children (scene a) = seq 0 205;
  anc_length : length (objects (scene a)) = 205;
}.

(** The invariant: the application is well-formed, exactly one [animate]
    callback is pending, and the application is anchored. *)
Record inv a : Prop := {
  inv_wf : wf a;
  inv_raf : raf a = 1;
  inv_anchored : anchored a;
}.

Lemma anchored_kept a a' : kept a a' → anchored a → anchored a'.
Proof. intros [] []. split; congruence. Qed.

Lemma anchored_app0 env : anchored (bind_onscroll (app0 env)).
Proof. by split. Qed.

Lemma inv_app1 env : inv (app1 env).
Proof.
  split.
  - apply animate_wf, (wf_same (app0 env)); auto with anim.
  - apply animate_raf.
  - eapply anchored_kept; [apply animate_kept | apply anchored_app0].
Qed.

Lemma inv_moveCamera t a : inv a → inv (moveCamera t a).
Proof.
  intros [Hwf Hraf Hanc]. split.
  - by apply moveCamera_wf.
  - by destruct (moveCamera_frame t a) as [-> _].
  - eapply anchored_kept; [apply moveCamera_kept | done].
Qed.

Lemma inv_on_frame env w : inv (app w) → inv (app (on_frame env w)).
Proof.
  intros [Hwf Hraf Hanc]. rewrite on_frame_one by done.
  rewrite app_run_callback. cbn [app]. split.
  - by apply animate_wf, (wf_same (app w)).
  - apply animate_raf.
  - eapply anchored_kept; [apply animate_kept|]. by destruct Hanc.
Qed.

Lemma inv_step env e w : inv (app w) → inv (app (step env e w)).
Proof.
  intros Hinv. destruct e; simpl.
  - unfold on_scroll. destruct (onscroll (app w)); [|done].
    by apply inv_moveCamera.
  - by apply inv_on_frame.
  - destruct Hinv as [? ? []]. split; [by apply (wf_same (app w))|done|done].
  - destruct Hinv as [[] ? []]. split; [|done|done].
    split; try done. by apply texture_settled_wf.
  - done.
Qed.

Lemma inv_run env es w : inv (app w) → inv (app (run env es w)).
Proof.
  exact (foldl_invariant (step env) (λ w, inv (app w)) (inv_step env) es w).
Qed.

Lemma reachable_inv env w : reachable env w → inv (app w).
Proof.
  intros [_ [es ->]]%reachable_run. apply inv_run, inv_app1.
Qed.
End invariants.

(** ** Runs: what a sequence of events adds up to *)

Section runs.
Context {R : Type} `{Number R}.
Implicit Types (env : Env R) (a : App R) (w : World R) (e : Event R).
Implicit Types (es : list (Event R)).

(** The camera depth, the field the scroll driver owns. *)
Definition depth a : R := vz (cam_position (camera a)).

(** The rotation of the object a closure variable names. *)
Definition torus_rotation a := rotation_of (torus a) (scene a).
Definition moon_rotation a := rotation_of (moon a) (scene a).
Definition jeffBox_rotation a := rotation_of (jeffBox a) (scene a).

Lemma last_scroll_snoc es e :
  last_scroll (es ++ [e])
  = match e with EvScroll t => Some t | _ => last_scroll es end.
Proof. unfold last_scroll. by rewrite foldl_snoc. Qed.

Lemma count_snoc (p : Event R → bool) es e :
  count p (es ++ [e]) = count p es + (if p e then 1 else 0).
Proof.
  unfold count. rewrite filter_app, length_app. f_equal.
  destruct (p e) eqn:Hp.
  - by rewrite filter_cons_True.
  - rewrite filter_cons_False; [done | congruence].
Qed.

Lemma count_nil (p : Event R → bool) : count p [] = 0.
Proof. reflexivity. Qed.

(** *** One event, one quantity *)

Lemma depth_moveCamera t a : depth (moveCamera t a) = scrollToCameraZ t.
Proof. unfold depth. by rewrite moveCamera_camera. Qed.

Lemma depth_animate env a :
  orbit_disjoint (controls_update env) →
  depth (final (animate env a)) = depth a.
Proof. intros Hd. unfold depth. rewrite animate_camera. apply Hd. Qed.

Lemma torus_rotation_animate env a :
  torus_rotation (final (animate env a)) = torus_step <$> torus_rotation a.
Proof.
  unfold torus_rotation, rotation_of.
  rewrite (kept_torus _ _ (animate_kept env a)), animate_torus.
  by destruct (objects (scene a) !! torus a).
Qed.

Lemma torus_rotation_moveCamera t a :
  wf a → torus_rotation (moveCamera t a) = torus_rotation a.
Proof.
  intros Hwf. unfold torus_rotation, rotation_of.
  rewrite (kept_torus _ _ (moveCamera_kept t a)), moveCamera_other;
    auto with anim.
Qed.

Lemma moon_rotation_moveCamera t a :
  wf a → moon_rotation (moveCamera t a) = moon_step <$> moon_rotation a.
Proof.
  intros Hwf. unfold moon_rotation, rotation_of.
  rewrite (kept_moon _ _ (moveCamera_kept t a)), moveCamera_moon
    by auto with anim.
  by destruct (objects (scene a) !! moon a).
Qed.

Lemma jeffBox_rotation_moveCamera t a :
  wf a → jeffBox_rotation (moveCamera t a) = jeff_step <$> jeffBox_rotation a.
Proof.
  intros Hwf. unfold jeffBox_rotation, rotation_of.
  rewrite (kept_jeffBox _ _ (moveCamera_kept t a)), moveCamera_jeffBox
    by auto with anim.
  by destruct (objects (scene a) !! jeffBox a).
Qed.

Lemma moon_rotation_animate env a :
  wf a → moon_rotation (final (animate env a)) = moon_rotation a.
Proof.
  intros Hwf. unfold moon_rotation, rotation_of.
  rewrite (kept_moon _ _ (animate_kept env a)), animate_other; [done|].
  apply not_eq_sym. auto with anim.
Qed.

Lemma jeffBox_rotation_animate env a :
  wf a → jeffBox_rotation (final (animate env a)) = jeffBox_rotation a.
Proof.
  intros Hwf. unfold jeffBox_rotation, rotation_of.
  rewrite (kept_jeffBox _ _ (animate_kept env a)), animate_other; [done|].
  apply not_eq_sym. auto with anim.
Qed.

(** *** Any run *)

(** After a run from an invariant world the scroll handler is still bound
    and the world is still invariant; the case analysis of a run's last
    event starts from here. *)
Lemma run_snoc_inv env es e w :
  inv (app w) →
  run env (es ++ [e]) w = step env e (run env es w)
  ∧ inv (app (run env es w)) ∧ onscroll (app (run env es w)) = true.
Proof.
  intros Hinv. pose proof (inv_run env es w Hinv) as Hi.
  split_and!; [apply run_snoc | done | apply Hi].
Qed.

Lemma on_scroll_bound t w :
  onscroll (app w) = true → app (on_scroll t w) = moveCamera t (app w).
Proof. intros Hb. unfold on_scroll. by rewrite Hb. Qed.

Lemma app_on_frame env w :
  inv (app w) →
  app (on_frame env w) = final (animate env (with_raf 0 (app w))).
Proof. intros Hinv. rewrite on_frame_one by apply Hinv. reflexivity. Qed.

(** The depth of the camera is the image of the last scroll offset, however
    many frames were rendered before or after it, provided the orbit
    controller keeps to its own fields. *)
Lemma depth_run env es w :
  orbit_disjoint (controls_update env) → inv (app w) →
  depth (app (run env es w))
  = from_option scrollToCameraZ (depth (app w)) (last_scroll es).
Proof.
  intros Hd Hinv. induction es as [|e es IH] using rev_ind; [done|].
  destruct (run_snoc_inv env es e w Hinv) as (-> & Hi & Hb).
  rewrite last_scroll_snoc. destruct e; simpl; try done.
  - rewrite on_scroll_bound by done. apply depth_moveCamera.
  - rewrite app_on_frame by done. by rewrite depth_animate.
Qed.

(** A quantity no event changes is, after a run, what it was. *)
Lemma constant_run {V} (q : App R → V) env es w :
  (∀ e w', inv (app w') → q (app (step env e w')) = q (app w')) →
  inv (app w) → q (app (run env es w)) = q (app w).
Proof.
  exact (foldl_constant (step env) (λ w, inv (app w)) (inv_step env)
           (λ w, q (app w)) es w).
Qed.

(** A quantity turned by [f] on the events [p] selects and left alone by
    the others has been turned once per selected event. *)
Lemma counted_run {V} (q : App R → option V) (p : Event R → bool)
    (f : V → V) env es w :
  (∀ e w', inv (app w') →
     q (app (step env e w')) = (if p e then f else id) <$> q (app w')) →
  inv (app w) →
  q (app (run env es w)) = Nat.iter (count p es) f <$> q (app w).
Proof.
  exact (counted_foldl (step env) (λ w, inv (app w)) (inv_step env)
           (λ w, q (app w)) p f es w).
Qed.

(** One event and the torus: a display refresh turns it one step. *)
Lemma torus_rotation_step env e w :
  inv (app w) →
  torus_rotation (app (step env e w))
  = (if is_frame e then torus_step else id) <$> torus_rotation (app w).
Proof.
  intros Hi. destruct e; simpl; rewrite ?option_fmap_id; try done.
  - rewrite on_scroll_bound by apply Hi.
    apply torus_rotation_moveCamera, Hi.
  - rewrite app_on_frame by done.
    exact (torus_rotation_animate env (with_raf 0 (app w))).
Qed.

(** One event and the moon: a scroll event turns it one step. *)
Lemma moon_rotation_step env e w :
  inv (app w) →
  moon_rotation (app (step env e w))
  = (if is_scroll e then moon_step else id) <$> moon_rotation (app w).
Proof.
  intros Hi. destruct e; simpl; rewrite ?option_fmap_id; try done.
  - rewrite on_scroll_bound by apply Hi.
    apply moon_rotation_moveCamera, Hi.
  - rewrite app_on_frame by done.
    refine (moon_rotation_animate env (with_raf 0 (app w)) _).
    by apply (wf_same (app w)); try apply Hi.
Qed.

Lemma jeffBox_rotation_step env e w :
  inv (app w) →
  jeffBox_rotation (app (step env e w))
  = (if is_scroll e then jeff_step else id) <$> jeffBox_rotation (app w).
Proof.
  intros Hi. destruct e; simpl; rewrite ?option_fmap_id; try done.
  - rewrite on_scroll_bound by apply Hi.
    apply jeffBox_rotation_moveCamera, Hi.
  - rewrite app_on_frame by done.
    refine (jeffBox_rotation_animate env (with_raf 0 (app w)) _).
    by apply (wf_same (app w)); try apply Hi.
Qed.

(** The torus has been turned once per display refresh, whatever else
    happened in between. *)
Lemma torus_rotation_run env es w :
  inv (app w) →
  torus_rotation (app (run env es w))
  = Nat.iter (count is_frame es) torus_step <$> torus_rotation (app w).
Proof. apply counted_run, torus_rotation_step. Qed.

(** The moon and the jeff box have been turned once per scroll event. *)
Lemma moon_rotation_run env es w :
  inv (app w) →
  moon_rotation (app (run env es w))
  = Nat.iter (count is_scroll es) moon_step <$> moon_rotation (app w).
Proof. apply counted_run, moon_rotation_step. Qed.

Lemma jeffBox_rotation_run env es w :
  inv (app w) →
  jeffBox_rotation (app (run env es w))
  = Nat.iter (count is_scroll es) jeff_step <$> jeffBox_rotation (app w).
Proof. apply counted_run, jeffBox_rotation_step. Qed.
End runs.

(** ** The program: what holds after the effect, for every run *)

Section program.
Context {R : Type} `{Number R}.
Implicit Types (env : Env R) (a : App R) (w : World R) (e : Event R).
Implicit Types (es : list (Event R)) (o : Outcome (App R)).

(** The quantities of the mounted application. *)
Lemma app1_values env :
  orbit_disjoint (controls_update env) →
  depth (app1 env) = lit 30.
Proof. intros Hd. unfold app1. by rewrite depth_animate. Qed.

Lemma app1_rotations env :
  torus_rotation (app1 env) = Some (torus_step vzero)
  ∧ moon_rotation (app1 env) = Some vzero
  ∧ jeffBox_rotation (app1 env) = Some vzero.
Proof.
  unfold app1. split_and!.
  - rewrite torus_rotation_animate. unfold torus_rotation, rotation_of.
    cbn [torus scene bind_onscroll with_onscroll app0].
    by rewrite scene0_head.
  - rewrite moon_rotation_animate by (apply (wf_same (app0 env)); auto with anim).
    unfold moon_rotation, rotation_of.
    cbn [moon scene bind_onscroll with_onscroll app0].
    by rewrite (scene0_tail env 1).
  - rewrite jeffBox_rotation_animate by (apply (wf_same (app0 env)); auto with anim).
    unfold jeffBox_rotation, rotation_of.
    cbn [jeffBox scene bind_onscroll with_onscroll app0].
    by rewrite (scene0_tail env 0).
Qed.

(** The three quantities after any run from the mounted world. *)
Lemma depth_world0 env es :
  orbit_disjoint (controls_update env) →
  depth (app (run env es (world0 env)))
  = from_option scrollToCameraZ (lit 30) (last_scroll es).
Proof.
  intros Hd. rewrite depth_run by (done || apply inv_app1).
  change (app (world0 env)) with (app1 env). by rewrite app1_values.
Qed.

Lemma torus_rotation_world0 env es :
  torus_rotation (app (run env es (world0 env)))
  = Some (Nat.iter (S (count is_frame es)) torus_step vzero).
Proof.
  rewrite torus_rotation_run by apply inv_app1.
  change (app (world0 env)) with (app1 env).
  destruct (app1_rotations env) as (-> & _).
  rewrite Nat.iter_succ_r. reflexivity.
Qed.

Lemma decor_rotation_world0 env es :
  moon_rotation (app (run env es (world0 env)))
  = Some (Nat.iter (count is_scroll es) moon_step vzero)
  ∧ jeffBox_rotation (app (run env es (world0 env)))
    = Some (Nat.iter (count is_scroll es) jeff_step vzero).
Proof.
  rewrite moon_rotation_run, jeffBox_rotation_run by apply inv_app1.
  change (app (world0 env)) with (app1 env).
  by destruct (app1_rotations env) as (_ & -> & ->).
Qed.

(** C1: Whatever events follow the effect, in whatever order, the camera's
    z position is [30 + t * -0.01] for the offset [t] of the most recent
    scroll event, and [30] when the page was never scrolled: the depth is
    a function of the last offset alone, frames rendered before or after
    do not change it, and nothing accumulates.  This needs the orbit
    controller to leave [position.z] to the scroll driver. *)
Theorem depth_follows_last_scroll env o es :
  orbit_disjoint (controls_update env) →
  mount env = inr o →
  depth (app (run env es (world_of o)))
  = from_option (λ t, lit 30 ⊕ t ⊗ ⊝ lit 0.01) (lit 30) (last_scroll es).
Proof. intros Hd ->%mount_world. by apply depth_world0. Qed.

(** C4: The torus is turned by [(0.01, 0.005, 0.01)] exactly once by the
    effect's own call of [animate] and once per display refresh after it,
    and by nothing else: after a run with [n] refreshes its rotation is
    [n + 1] steps from zero, however many scroll events, texture loads or
    context losses were interleaved. *)
Theorem torus_turned_once_per_frame env o es :
  mount env = inr o →
  torus_rotation (app (run env es (world_of o)))
  = Some (Nat.iter (S (count is_frame es)) torus_step vzero).
Proof. intros ->%mount_world. apply torus_rotation_world0. Qed.

(** C5: The moon and the jeff box are turned once per scroll event and by
    nothing else: after a run with [n] scroll events the moon's rotation
    is [n] steps of [(0.05, 0.075, 0.05)] from zero and the jeff box's [n]
    steps of [(0, 0.01, 0.01)], each event applied in full, none
    coalesced, whatever frames were rendered in between. *)
Theorem decor_turned_once_per_scroll env o es :
  mount env = inr o →
  moon_rotation (app (run env es (world_of o)))
  = Some (Nat.iter (count is_scroll es) moon_step vzero)
  ∧ jeffBox_rotation (app (run env es (world_of o)))
    = Some (Nat.iter (count is_scroll es) jeff_step vzero).
Proof. intros ->%mount_world. apply decor_rotation_world0. Qed.

(** C6: Every world the program can reach satisfies the invariant: the
    scene is well-formed, [torus], [moon] and [jeffBox] name three
    different meshes that are children of the scene, the scene has the
    205 children [setup] gave it, the scroll handler is bound, and exactly
    one [animate] callback is pending. *)
Theorem reachable_invariant env w : reachable env w → inv (app w).
Proof. apply reachable_inv. Qed.


End program.
