(* ===== verification/Construction.v ===== *)
(** * The constructed scene, and what of it never changes

    The effect builds the scene once (lines 13-86 of [src/src/App.jsx]).
    Afterwards the two callbacks write the rotation of three objects and
    nothing else of the scene: every other object stays exactly as it was
    constructed, no object changes its kind or its position, and nothing
    is added to or removed from the scene.  The textures keep their
    images; their load state follows the load events. *)

From S2P Require Import Prelude Number Vector Scene Camera Render App.
From S2P Require Import Scroll Animate Loop.

Section placement.
Context {R : Type} `{Number R}.
Implicit Types (env : Env R) (a : App R) (w : World R) (e : Event R).
Implicit Types (es : list (Event R)) (s : Store R) (id : nat).

(** What construction fixes of an object: its kind (geometry, material,
    light parameters) and its position. *)
Definition placed id s : option (ObjectKind R * Vector3 R) :=
  (λ o, (kind o, position o)) <$> objects s !! id.

(** The heap index of the star that the [i]-th call of [addStar]
    creates: the torus and the two lights come before the stars. *)
Definition star_id (i : nat) : nat := 3 + i.

(** What is read from the window at mount: the lens of the camera and the
    settings of the renderer. *)
Definition viewport a := (lens (camera a), settings (renderer a)).

(** The image a texture of the heap is loaded from, and how far the load
    has got. *)
Definition image_of (t : nat) s : option Asset := image <$> textures s !! t.

Definition load_state_of (t : nat) s : option LoadState :=
  load_state <$> textures s !! t.

(** The images of the maps of an object's material ([map], then
    [normalMap]), and the image of the scene's background. *)
Definition object_images id s : list (option Asset) :=
  (λ t, image_of t s) <$> from_option object_textures [] (objects s !! id).

Definition background_image s : option Asset :=
  background s ≫= λ t, image_of t s.

(** The outcome of the last load event of texture [t] in a list of
    events. *)
Definition last_load (t : nat) es : option bool :=
  foldl (λ acc e, match e with
                  | EvTexture t' ok => if decide (t' = t) then Some ok else acc
                  | _ => acc
                  end) None es.

Definition settled (r : option bool) : LoadState :=
  match r with Some true => Loaded | Some false => Failed | None => Pending end.

(** The objects the callbacks write to. *)
Definition animated id : bool :=
  bool_decide (id = 0) || bool_decide (id = 203) || bool_decide (id = 204).

Definition placement_fixed env a : Prop :=
  ∀ id, placed id (scene a) = placed id (scene0 env).

Definition others_fixed env a : Prop :=
  ∀ id, animated id = false →
        objects (scene a) !! id = objects (scene0 env) !! id.

Lemma animated_false id :
  animated id = false ↔ id ≠ 0 ∧ id ≠ 203 ∧ id ≠ 204.
Proof.
  unfold animated. rewrite !orb_false_iff, !bool_decide_eq_false. tauto.
Qed.

(** ** One event *)

Lemma placed_step env e w id :
  inv (app w) →
  placed id (scene (app (step env e w))) = placed id (scene (app w)).
Proof.
  intros Hi. unfold placed. destruct e; simpl; try done.
  - rewrite on_scroll_bound by apply Hi. apply moveCamera_kind_position.
  - rewrite app_on_frame by done.
    exact (animate_kind_position env (with_raf 0 (app w)) id).
Qed.

Lemma others_step env e w id :
  inv (app w) → animated id = false →
  objects (scene (app (step env e w))) !! id = objects (scene (app w)) !! id.
Proof.
  intros Hi (H0 & H203 & H204)%animated_false.
  destruct (inv_anchored _ Hi) as [_ Ht Hm Hj _ _].
  destruct e; simpl; try done.
  - rewrite on_scroll_bound by apply Hi.
    apply moveCamera_other; congruence.
  - rewrite app_on_frame by done.
    refine (animate_other env (with_raf 0 (app w)) id _).
    cbn [torus with_raf]. congruence.
Qed.

(** The textures: only a load event changes one, and only its state. *)
Lemma textures_step env e w :
  inv (app w) →
  textures (scene (app (step env e w)))
  = match e with
    | EvTexture tex ok =>
        alter (λ t, mkTexture (image t) (if ok then Loaded else Failed)) tex
              (textures (scene (app w)))
    | _ => textures (scene (app w))
    end.
Proof.
  intros Hi. destruct e; simpl; try done.
  - rewrite on_scroll_bound by apply Hi.
    by destruct (moveCamera_frame t (app w)) as (_ & _ & _ & -> & _).
  - rewrite app_on_frame by done. by rewrite animate_textures.
Qed.

Lemma background_step env e w :
  inv (app w) →
  background (scene (app (step env e w))) = background (scene (app w)).
Proof.
  intros Hi. destruct e; simpl; try done.
  - rewrite on_scroll_bound by apply Hi.
    apply (kept_background _ _ (moveCamera_kept t (app w))).
  - rewrite app_on_frame by done.
    apply (kept_background _ _ (animate_kept env (with_raf 0 (app w)))).
Qed.

Lemma image_of_step env e w t :
  inv (app w) →
  image_of t (scene (app (step env e w))) = image_of t (scene (app w)).
Proof.
  intros Hi. unfold image_of. rewrite textures_step by done.
  destruct e; try done. by rewrite lookup_alter_fmap_inv.
Qed.

Lemma load_state_of_step env e w t :
  inv (app w) →
  load_state_of t (scene (app (step env e w)))
  = match e with
    | EvTexture tex ok =>
        if decide (tex = t)
        then (λ _, if ok then Loaded else Failed)
               <$> load_state_of t (scene (app w))
        else load_state_of t (scene (app w))
    | _ => load_state_of t (scene (app w))
    end.
Proof.
  intros Hi. unfold load_state_of. rewrite textures_step by done.
  destruct e; try done. rewrite list_lookup_alter.
  case_decide; [subst|done]. by destruct (textures _ !! t).
Qed.

(** The images of an object's maps depend on its kind and on the images
    of the textures. *)
Lemma object_images_ext id s s' :
  placed id s = placed id s' → (∀ t, image_of t s = image_of t s') →
  object_images id s = object_images id s'.
Proof.
  intros Hp Hi. unfold object_images, placed in *.
  assert (from_option object_textures [] (objects s !! id)
          = from_option object_textures [] (objects s' !! id)) as ->.
  { destruct (objects s !! id) as [o|], (objects s' !! id) as [o'|];
      simpl in Hp; try done.
    injection Hp as Hk _. simpl. unfold object_textures. by rewrite Hk. }
  apply list_fmap_ext. by intros _ t _.
Qed.

(** The lens of the camera and the settings of the renderer. *)
Lemma viewport_step env e w :
  orbit_disjoint (controls_update env) → inv (app w) →
  lens (camera (app (step env e w))) = lens (camera (app w))
  ∧ settings (renderer (app (step env e w))) = settings (renderer (app w)).
Proof.
  intros Hd Hi. destruct e; simpl; try done.
  - rewrite on_scroll_bound by apply Hi.
    destruct (moveCamera_frame t (app w)) as (_ & _ & -> & _ & Hoff).
    split; [|done]. unfold off_depth in Hoff. congruence.
  - rewrite app_on_frame by done.
    rewrite animate_camera, animate_settings. split; [apply Hd | done].
Qed.

(** ** Any run from the mounted world *)

Lemma placement_app1 env : placement_fixed env (app1 env).
Proof.
  intros id. unfold placed, app1.
  exact (animate_kind_position env (bind_onscroll (app0 env)) id).
Qed.

Lemma others_app1 env : others_fixed env (app1 env).
Proof.
  intros id (H0 & _)%animated_false. unfold app1.
  exact (animate_other env (bind_onscroll (app0 env)) id H0).
Qed.

Lemma placement_run env es :
  placement_fixed env (app (run env es (world0 env))).
Proof.
  intros id.
  rewrite (constant_run (λ a, placed id (scene a)) env es (world0 env));
    [apply placement_app1 | intros; by apply placed_step | apply inv_app1].
Qed.

Lemma position_of_run env es id :
  position_of id (scene (app (run env es (world0 env))))
  = position_of id (scene0 env).
Proof.
  pose proof (placement_run env es id) as Hp. unfold placed, position_of in *.
  destruct (objects (scene (app _)) !! id), (objects (scene0 env) !! id);
    simplify_eq/=; by f_equal.
Qed.

Lemma others_run env es : others_fixed env (app (run env es (world0 env))).
Proof.
  intros id Hid.
  rewrite (constant_run (λ a, objects (scene a) !! id) env es (world0 env));
    [by apply others_app1 | intros; by apply others_step | apply inv_app1].
Qed.

Lemma viewport_run env es :
  orbit_disjoint (controls_update env) →
  lens (camera (app (run env es (world0 env)))) = lens (camera0 env)
  ∧ settings (renderer (app (run env es (world0 env))))
    = settings (renderer0 env).
Proof.
  intros Hd.
  rewrite (constant_run (λ a, lens (camera a)) env es (world0 env)),
    (constant_run (λ a, settings (renderer a)) env es (world0 env));
    try (apply inv_app1 || intros; by apply viewport_step).
  unfold world0, app1; cbn [app].
  rewrite animate_camera, animate_settings. split; [apply Hd | done].
Qed.

Lemma image_of_run env es t :
  image_of t (scene (app (run env es (world0 env))))
  = image_of t (scene0 env).
Proof.
  rewrite (constant_run (λ a, image_of t (scene a)) env es (world0 env));
    [| intros; by apply image_of_step | apply inv_app1].
  unfold image_of, world0, app1; cbn [app]. by rewrite animate_textures.
Qed.

Lemma background_run env es :
  background (scene (app (run env es (world0 env)))) = Some 0.
Proof.
  rewrite (constant_run (λ a, background (scene a)) env es (world0 env));
    [| intros; by apply background_step | apply inv_app1].
  unfold world0, app1; cbn [app].
  by rewrite (kept_background _ _ (animate_kept env _)).
Qed.

Lemma last_load_snoc t es e :
  last_load t (es ++ [e])
  = match e with
    | EvTexture t' ok => if decide (t' = t) then Some ok else last_load t es
    | _ => last_load t es
    end.
Proof. unfold last_load. by rewrite foldl_snoc. Qed.

Lemma load_state_of_run env es t :
  t < 4 →
  load_state_of t (scene (app (run env es (world0 env))))
  = Some (settled (last_load t es)).
Proof.
  intros Ht. induction es as [|e es IH] using rev_ind.
  - rewrite run_nil. unfold load_state_of, world0, app1; cbn [app].
    rewrite animate_textures. cbn [scene bind_onscroll with_onscroll app0].
    destruct (scene0_rest env) as (-> & _).
    by destruct t as [|[|[|[|]]]]; [..|lia].
  - rewrite run_snoc, last_load_snoc, load_state_of_step, IH
      by apply inv_run, inv_app1.
    destruct e; try done. case_decide; [|done]. by destruct ok.
Qed.

(** The stars are among the objects no callback writes to. *)
Lemma star_lookup_run env es i :
  i < 200 →
  objects (scene (app (run env es (world0 env)))) !! (3 + i)
  = Some (star env (3 * i)).
Proof.
  intros Hi. rewrite others_run by (apply animated_false; lia).
  by apply scene0_star.
Qed.
End placement.

(** ** The program *)

Section program.
Context {R : Type} `{Number R}.
Implicit Types (env : Env R) (w : World R) (s : Store R).
Implicit Types (es : list (Event R)) (o : Outcome (App R)).

(** C25: Position is set once, at creation, and the scene's membership is
    fixed: in every world that follows the effect, every object has the
    kind and the position the construction gave it, and the scene has the
    same 205 children in the same order.  Nothing is added, removed,
    moved or re-materialed by either callback.  The stars stay as they
    were generated: objects 3 to 202 are the 200 stars, star [i] at the
    coordinates the random numbers [3 i], [3 i + 1], [3 i + 2] gave it,
    unrotated. *)
Theorem construction_never_changes env o es id i :
  mount env = inr o → i < 200 →
  placed id (scene (app (run env es (world_of o)))) = placed id (scene0 env)
  ∧ children (scene (app (run env es (world_of o)))) = seq 0 205
  ∧ objects (scene (app (run env es (world_of o)))) !! star_id i
    = Some (star env (3 * i)).
Proof.
  intros ->%mount_world Hi. split_and!; [apply placement_run | |].
  - apply anc_children, inv_anchored, inv_run, inv_app1.
  - by apply star_lookup_run.
Qed.

(** The images as the source wires them. *)
Lemma images_run env es :
  let s := scene (app (run env es (world0 env))) in
  background_image s = Some spaceImg
  ∧ object_images 0 s = []
  ∧ object_images 203 s = [Some jeffImg]
  ∧ object_images 204 s = [Some moonImg; Some normalImg].
Proof.
  intros s.
  assert (∀ id, object_images id s = object_images id (scene0 env)) as Hoi.
  { intros id. apply object_images_ext; [apply placement_run|].
    intros t. apply image_of_run. }
  unfold background_image. rewrite !Hoi. unfold s.
  rewrite background_run. cbn [mbind option_bind]. rewrite image_of_run.
  unfold object_images, image_of. destruct (scene0_rest env) as (-> & _).
  rewrite scene0_head, (scene0_tail env 0), (scene0_tail env 1).
  by split_and!.
Qed.

(** C26: The images are wired as the source writes them, for good, and
    each texture shows the state of its own image load.  In every world
    that follows the effect the scene's background is the texture of
    [space.jpg], the jeff box's colour map the texture of [jeff.png], the
    moon's colour map the texture of [moon.jpg] and its normal map the
    texture of [normal.jpg], and the torus has no map.  A texture is
    pending until its image load ends and then shows the outcome of the
    load that ended last, loaded or failed; nothing else changes it.  A
    failed load is a state of the texture, not an exception: the entity
    keeps its material and the loop goes on. *)
Theorem textures_wired_and_settled env o es t :
  mount env = inr o → t < 4 →
  let s := scene (app (run env es (world_of o))) in
  background_image s = Some spaceImg
  ∧ object_images 0 s = []
  ∧ object_images 203 s = [Some jeffImg]
  ∧ object_images 204 s = [Some moonImg; Some normalImg]
  ∧ load_state_of t s = Some (settled (last_load t es)).
Proof.
  intros ->%mount_world Ht s.
  destruct (images_run env es) as (Hb & H0 & H203 & H204).
  split_and!; [done..|]. by apply load_state_of_run.
Qed.

(** C29: The viewport is read once, at mount: in every world that follows
    the effect the camera has the field of view 75, the clip planes 0.1
    and 1000 and the aspect ratio [innerWidth / innerHeight] of the window
    at mount, and the renderer the size and the pixel ratio of the window
    at mount.  No event changes them; the page registers no resize
    handler. *)
Theorem viewport_fixed_at_mount env o es :
  orbit_disjoint (controls_update env) → mount env = inr o →
  viewport (app (run env es (world_of o)))
  = ((lit 75, innerWidth env ⊘ innerHeight env, lit 0.1, lit 1000),
     (true, Some (devicePixelRatio env),
      Some (innerWidth env, innerHeight env), Some SRGBColorSpace)).
Proof.
  intros Hd ->%mount_world. unfold viewport.
  by destruct (viewport_run env es Hd) as [-> ->].
Qed.
End program.
