(* ===== verification/Frames.v ===== *)
(** * The frame log and the error path

    What the render sink receives over a run: [renderer.render] (line 113
    of [src/src/App.jsx]) is the last statement of [animate], so the frame
    of a tick is the state the tick leaves, rotation and controller update
    included.  A display refresh either appends one frame or, once the
    graphics context is lost, hands one [TickFailure] to the host; because
    [animate] registers itself before it renders (line 106), the failure
    does not end the loop.  A frame shows the textures in the load state
    they have at its tick: rendering does not wait for an image. *)

From S2P Require Import Prelude Number Vector Scene Camera Render App.
From S2P Require Import Scroll Animate Loop Construction.

Section frames.
Context {R : Type} `{Number R}.
Implicit Types (env : Env R) (a : App R) (w : World R) (e : Event R).
Implicit Types (es : list (Event R)) (f : Frame R).

(** The frames rendered so far, oldest first. *)
Definition frames_of w : list (Frame R) := frames (renderer (app w)).

(** Whether the graphics context is gone. *)
Definition lost w : bool := context_lost (renderer (app w)).

(** The frame a render call makes of an application state. *)
Definition frame_of a : Frame R := mkFrame (scene a) (camera a).

(** The rotation of the torus a frame shows. *)
Definition frame_torus f : option (Vector3 R) := rotation_of 0 (frame_store f).

(** ** One event *)

Lemma lost_step env e w :
  inv (app w) → lost (step env e w) = lost w || is_context_lost e.
Proof.
  intros Hi. unfold lost. destruct e; simpl; rewrite ?orb_false_r, ?orb_true_r;
    try done.
  - rewrite on_scroll_bound by apply Hi.
    by destruct (moveCamera_frame t (app w)) as (_ & _ & -> & _).
  - rewrite app_on_frame by done. by rewrite animate_context_lost.
Qed.

Lemma frames_step env e w :
  inv (app w) →
  frames_of (step env e w)
  = frames_of w ++ (if is_frame e && negb (lost w)
                    then [frame_of (app (step env e w))] else []).
Proof.
  intros Hi. unfold frames_of, lost. destruct e; simpl; rewrite ?app_nil_r;
    try done.
  - rewrite on_scroll_bound by apply Hi.
    by destruct (moveCamera_frame t (app w)) as (_ & _ & -> & _).
  - rewrite app_on_frame by done. rewrite animate_frames. cbn [renderer with_raf].
    by destruct (context_lost (renderer (app w))).
Qed.

Lemma reported_step env e w :
  inv (app w) →
  reported (step env e w)
  = reported w ++ (if is_frame e && lost w then [TickFailure] else []).
Proof.
  intros Hi. unfold lost. destruct e; simpl; rewrite ?app_nil_r; try done.
  - unfold on_scroll. by destruct (onscroll (app w)).
  - rewrite on_frame_one by apply Hi. by rewrite reported_run_callback.
Qed.

(** A display refresh after the context is lost: one [TickFailure] for the
    host, no frame, the torus turned all the same. *)
Lemma frame_when_lost env w :
  inv (app w) → lost w = true →
  reported (step env EvFrame w) = reported w ++ [TickFailure]
  ∧ frames_of (step env EvFrame w) = frames_of w
  ∧ torus_rotation (app (step env EvFrame w))
    = torus_step <$> torus_rotation (app w).
Proof.
  intros Hi Hl. rewrite reported_step, frames_step, torus_rotation_step by done.
  rewrite Hl. simpl. by rewrite app_nil_r.
Qed.

(** ** Any run *)

(** Every display refresh is accounted for: it produced a frame or an
    exception, and nothing else produces either. *)
Lemma tally_run env es w :
  inv (app w) →
  length (frames_of (run env es w)) + length (reported (run env es w))
  = length (frames_of w) + length (reported w) + count is_frame es.
Proof.
  intros Hi. induction es as [|e es IH] using rev_ind.
  { rewrite run_nil, count_nil. lia. }
  destruct (run_snoc_inv env es e w Hi) as (-> & Hi' & _).
  rewrite frames_step, reported_step, count_snoc, !length_app by done.
  destruct (is_frame e), (lost (run env es w)); simpl; lia.
Qed.

(** The log only grows: a frame, once rendered, stays where it is. *)
Lemma frames_prefix env es w :
  inv (app w) → frames_of w `prefix_of` frames_of (run env es w).
Proof.
  intros Hi. induction es as [|e es IH] using rev_ind; [done|].
  destruct (run_snoc_inv env es e w Hi) as (-> & Hi' & _).
  rewrite frames_step by done. by apply prefix_app_r.
Qed.

(** The context does not come back, and only its loss takes it away. *)
Lemma lost_run env es w :
  inv (app w) →
  lost (run env es w) = lost w || bool_decide (0 < count is_context_lost es).
Proof.
  intros Hi. induction es as [|e es IH] using rev_ind.
  { rewrite run_nil, count_nil. by rewrite orb_false_r. }
  destruct (run_snoc_inv env es e w Hi) as (-> & Hi' & _).
  rewrite lost_step, IH, count_snoc by done.
  destruct (is_context_lost e), (lost w); simpl; rewrite ?orb_true_r; try done.
  - symmetry. apply bool_decide_eq_true. lia.
  - rewrite orb_false_r. by rewrite Nat.add_0_r.
Qed.

Lemma not_lost_run env es w :
  inv (app w) → lost w = false → count is_context_lost es = 0 →
  lost (run env es w) = false.
Proof. intros Hi Hl Hc. rewrite lost_run by done. by rewrite Hl, Hc. Qed.

(** While the context lasts nothing is reported. *)
Lemma quiet_run env es w :
  inv (app w) → lost w = false → count is_context_lost es = 0 →
  reported (run env es w) = reported w.
Proof.
  intros Hi Hl. induction es as [|e es IH] using rev_ind; [done|].
  rewrite count_snoc. intros Hc.
  destruct (run_snoc_inv env es e w Hi) as (-> & Hi' & _).
  rewrite reported_step, IH, not_lost_run by (done || lia).
  by rewrite andb_false_r, app_nil_r.
Qed.

(** ** The mounted world *)

Lemma frames_world0 env :
  frames_of (world0 env) = [frame_of (app1 env)]
  ∧ reported (world0 env) = [] ∧ lost (world0 env) = false.
Proof.
  unfold frames_of, lost, world0, app1; cbn [app reported].
  by rewrite animate_frames, animate_context_lost.
Qed.

(** The first frame of the log is the one the effect rendered. *)
Lemma first_frame env es :
  frames_of (run env es (world0 env)) !! 0 = Some (frame_of (app1 env)).
Proof.
  eapply prefix_lookup_Some; [|apply frames_prefix, inv_app1].
  by destruct (frames_world0 env) as (-> & _).
Qed.

(** Without a loss of context, the log has one frame for the effect's own
    call of [animate] and one per display refresh. *)
Lemma frames_world0_run env es :
  count is_context_lost es = 0 →
  reported (run env es (world0 env)) = []
  ∧ length (frames_of (run env es (world0 env))) = S (count is_frame es).
Proof.
  intros Hc. destruct (frames_world0 env) as (Hf & Hr & Hl).
  pose proof (tally_run env es (world0 env) (inv_app1 env)) as Ht.
  pose proof (quiet_run env es (world0 env) (inv_app1 env) Hl Hc) as Hq.
  rewrite Hq, Hf, Hr in Ht. rewrite Hq, Hr. simpl in Ht. split; [done | lia].
Qed.

(** Frame [k] of the log shows the torus after [k + 1] steps: nothing is
    rendered half-updated, and no tick is rendered twice. *)
Lemma frame_torus_run env es k f :
  count is_context_lost es = 0 →
  frames_of (run env es (world0 env)) !! k = Some f →
  frame_torus f = Some (Nat.iter (S k) torus_step vzero).
Proof.
  revert k f. induction es as [|e es IH] using rev_ind; intros k f Hc.
  - rewrite run_nil. destruct (frames_world0 env) as (-> & _).
    destruct k; [|done]. intros [= <-].
    by destruct (app1_rotations env) as (Ht & _).
  - rewrite count_snoc in Hc.
    destruct (run_snoc_inv env es e (world0 env) (inv_app1 env)) as (-> & Hi & _).
    rewrite frames_step by done. intros [Hk|[Hlen Hk]]%lookup_app_Some.
    { apply IH; [lia | done]. }
    destruct (is_frame e) eqn:He; [|by simpl in Hk].
    rewrite not_lost_run in Hk by (apply inv_app1 || apply frames_world0 || lia).
    destruct (frames_world0_run env es) as (_ & Hn); [lia|].
    apply list_lookup_singleton_Some in Hk as [Hk <-].
    replace k with (S (count is_frame es)) by lia.
    unfold frame_torus, frame_of; cbn [frame_store].
    pose proof (torus_rotation_world0 env (es ++ [e])) as Ht.
    rewrite run_snoc, count_snoc, He, Nat.add_1_r in Ht.
    rewrite <- Ht. unfold torus_rotation.
    by rewrite (anc_torus _ (inv_anchored _ (inv_step env e _ Hi))).
Qed.

(** *** Frames and textures *)

(** The frame a display refresh renders is the next of the log, and stays
    at its index whatever follows. *)
Lemma frame_of_refresh env es1 es2 :
  count is_context_lost es1 = 0 →
  frames_of (run env (es1 ++ EvFrame :: es2) (world0 env))
    !! S (count is_frame es1)
  = Some (frame_of (app (run env (es1 ++ [EvFrame]) (world0 env)))).
Proof.
  intros Hc. pose proof (inv_run env es1 (world0 env) (inv_app1 env)) as Hi.
  rewrite (run_app env es1 (EvFrame :: es2)).
  change (run env (EvFrame :: es2) ?w) with (run env es2 (step env EvFrame w)).
  eapply prefix_lookup_Some; [|apply frames_prefix, inv_step, Hi].
  rewrite run_snoc, frames_step, not_lost_run
    by (done || apply inv_app1 || apply frames_world0).
  destruct (frames_world0_run env es1 Hc) as (_ & <-).
  apply list_lookup_middle. done.
Qed.

(** The textures a frame shows are in the state the loads that ended
    before its tick left them. *)
Lemma frame_textures_run env es1 es2 t :
  count is_context_lost es1 = 0 → t < 4 →
  ∃ f, frames_of (run env (es1 ++ EvFrame :: es2) (world0 env))
         !! S (count is_frame es1) = Some f
       ∧ load_state_of t (frame_store f) = Some (settled (last_load t es1)).
Proof.
  intros Hc Ht. eexists. split; [by apply frame_of_refresh|].
  cbn [frame_of frame_store].
  by rewrite load_state_of_run, last_load_snoc by done.
Qed.
End frames.

(** ** The program *)

Section program.
Context {R : Type} `{Number R}.
Implicit Types (env : Env R) (w : World R) (e : Event R).
Implicit Types (es : list (Event R)) (o : Outcome (App R)) (f : Frame R).

(** C8: While the graphics context lasts, the render sink is invoked exactly
    once by the effect and once per display refresh, and nothing is thrown:
    after a run with [n] refreshes the log holds [n + 1] frames and the
    host has been handed no exception, whatever scroll events and texture
    loads, failed ones included, were interleaved. *)
Theorem one_frame_per_refresh env o es :
  mount env = inr o → count is_context_lost es = 0 →
  reported (run env es (world_of o)) = []
  ∧ length (frames_of (run env es (world_of o))) = S (count is_frame es).
Proof. intros ->%mount_world. apply frames_world0_run. Qed.

(** C9: A frame is rendered from fully updated state, in tick order: while
    the context lasts, frame [k] of the log shows the torus after exactly
    [k + 1] rotation steps.  No tick is rendered before its rotation
    update, none twice, none skipped. *)
Theorem frame_shows_finished_tick env o es k f :
  mount env = inr o → count is_context_lost es = 0 →
  frames_of (run env es (world_of o)) !! k = Some f →
  frame_torus f = Some (Nat.iter (S k) torus_step vzero).
Proof. intros ->%mount_world. apply frame_torus_run. Qed.

(** C10: Within a tick the order is rotation, controller update, render:
    the frame a display refresh appends is the scene and the camera as the
    tick leaves them, the camera being the controller's update of the
    camera before the tick. *)
Theorem render_reads_updated_state env w :
  reachable env w → lost w = false →
  let a' := app (step env EvFrame w) in
  frames_of (step env EvFrame w) = frames_of w ++ [mkFrame (scene a') (camera a')]
  ∧ camera a' = controls_update env (updates (app w)) (camera (app w))
  ∧ torus_rotation a' = torus_step <$> torus_rotation (app w).
Proof.
  intros Hi%reachable_inv Hl. cbn zeta.
  rewrite frames_step, torus_rotation_step, Hl by done. split_and!; try done.
  simpl. rewrite app_on_frame by done. by rewrite animate_camera.
Qed.

(** C11: A failure of the render call is reported and is not fatal to the
    loop: once the context is lost, every display refresh hands one
    [TickFailure] to the host and renders nothing, and yet the torus is
    turned and the next callback is registered, because [animate]
    registers itself before it renders. *)
Theorem tick_failure_not_fatal env w :
  reachable env w → lost w = true →
  reported (step env EvFrame w) = reported w ++ [TickFailure]
  ∧ frames_of (step env EvFrame w) = frames_of w
  ∧ torus_rotation (app (step env EvFrame w))
    = torus_step <$> torus_rotation (app w)
  ∧ running (step env EvFrame w).
Proof.
  intros Hi%reachable_inv Hl.
  destruct (frame_when_lost env w Hi Hl) as (-> & -> & ->). split_and!; try done.
  unfold running. rewrite (inv_raf _ (inv_step env EvFrame w Hi)). lia.
Qed.

(** C27: Rendering does not wait for the textures and does not fail
    without them.  While the graphics context lasts, the display refresh
    that follows the events [es1] renders a frame, the next of the log,
    and that frame shows each of the four textures in the state the image
    loads that ended before the refresh left it: pending if none ended,
    else loaded or failed as the last one did.  Loads that end later
    ([es2]) do not change the frame. *)
Theorem frame_shows_textures_of_its_tick env o es1 es2 t :
  mount env = inr o → count is_context_lost es1 = 0 → t < 4 →
  ∃ f, frames_of (run env (es1 ++ EvFrame :: es2) (world_of o))
         !! S (count is_frame es1) = Some f
       ∧ load_state_of t (frame_store f) = Some (settled (last_load t es1)).
Proof. intros ->%mount_world. apply frame_textures_run. Qed.

(** The frame log only grows: whatever happens, the frames rendered
    so far stay in the log, in their order; and the context, once lost,
    does not come back. *)
Theorem frames_only_grow env w es :
  reachable env w →
  frames_of w `prefix_of` frames_of (run env es w)
  ∧ (lost w = true → lost (run env es w) = true).
Proof.
  intros Hi%reachable_inv. split; [by apply frames_prefix|].
  intros Hl. rewrite lost_run by done. by rewrite Hl.
Qed.
End program.
