(* ===== verification/Lifecycle.v ===== *)
(** * More than one mount

    React may run the effect of a component more than once on a page: it
    mounts, unmounts and mounts again (always so in development under
    strict mode, and whenever the component is shown again).  Every run of
    the effect builds a scene of its own and starts a loop of its own; the
    effect returns no cleanup function (line 117 of [src/src/App.jsx]), so
    an unmount ends nothing.  What the runs share is the page:
    [document.body.onscroll] is one slot, which each effect overwrites
    (line 102), and [Math.random] is one sequence.

    [Page] is the page with every instance mounted so far; [page_step] is
    its reaction to a mount, an unmount, a scroll event or a display
    refresh.  The instances also share the canvas: every renderer is
    constructed on the one element the ref names, so each render call of
    each instance draws over what is there.  [drawn] is what has been
    drawn on it, in the order of the calls; its last frame is what the
    canvas shows.  The host is modelled from the behaviour of React and of the
    browser; what the instances do is [mount], [on_scroll] and [on_frame]
    of [Loop]. *)

From S2P Require Import Prelude Number Vector Scene Camera Render App.
From S2P Require Import Scroll Animate Loop Frames.

Record Page (R : Type) : Type := mkPage {
  instances : list (World R);
  onscroll_slot : option nat;
  drawn : list (Frame R);
}.
Arguments mkPage {R}.
Arguments instances {R}.
Arguments onscroll_slot {R}.
Arguments drawn {R}.

Inductive PageEvent (R : Type) : Type :=
| PgMount
| PgUnmount (i : nat)
| PgScroll (t : R)
| PgFrame.
Arguments PgMount {R}.
Arguments PgUnmount {R}.
Arguments PgScroll {R}.
Arguments PgFrame {R}.

Section page.
Context {R : Type} `{Number R}.
Implicit Types (env : Env R) (p : Page R) (e : PageEvent R) (w : World R).
Implicit Types (es : list (PageEvent R)).

(** The environment an effect finds when [d] random numbers have been
    drawn on the page before. *)
Definition env_after (d : nat) env : Env R :=
  mkEnv (innerWidth env) (innerHeight env) (devicePixelRatio env) (webgl env)
        (λ n, random env (d + n)) (spread env) (controls_update env).

(** The environment of the next effect on a page: each earlier one drew
    600 numbers. *)
Definition next_env env p : Env R := env_after (600 * length (instances p)) env.

(** The effect runs once more.  A failed construction leaves the page as
    it was; a successful one adds an instance, takes the scroll slot and
    draws what its first call of [animate] rendered. *)
Definition page_mount env p : Page R :=
  match mount (next_env env p) with
  | inl _ => p
  | inr o =>
      mkPage (instances p ++ [world_of o]) (Some (length (instances p)))
             (drawn p ++ frames_of (world_of o))
  end.

(** A scroll event runs the one handler in the slot. *)
Definition page_scroll (t : R) p : Page R :=
  match onscroll_slot p with
  | Some i =>
      mkPage (alter (on_scroll t) i (instances p)) (onscroll_slot p) (drawn p)
  | None => p
  end.

(** The frames an instance renders in a display refresh. *)
Definition drawn_by env w : list (Frame R) :=
  drop (length (frames_of w)) (frames_of (on_frame env w)).

(** A display refresh runs the pending callbacks of every instance, in
    the order in which they were registered: the oldest instance draws
    first. *)
Definition page_frame env p : Page R :=
  mkPage (on_frame env <$> instances p) (onscroll_slot p)
         (drawn p ++ mjoin (drawn_by env <$> instances p)).

(** The effect returned no cleanup: an unmount changes nothing. *)
Definition page_step env e p : Page R :=
  match e with
  | PgMount => page_mount env p
  | PgUnmount _ => p
  | PgScroll t => page_scroll t p
  | PgFrame => page_frame env p
  end.

Definition page_run env es p : Page R := foldl (λ p e, page_step env e p) p es.

(** The page before the component is first shown. *)
Definition page0 : Page R := mkPage [] None [].

Definition is_mount e : bool :=
  match e with PgMount => true | _ => false end.

Definition mounts es : nat := length (filter (λ e, is_mount e = true) es).

(** The frames rendered on the page, by all instances together. *)
Definition total_frames p : nat := sum_list (length ∘ frames_of <$> instances p).

(** What the canvas shows. *)
Definition shown p : option (Frame R) := last (drawn p).

(** Every instance is in order and has its graphics context, the scroll
    slot holds the handler of the newest instance, everything the
    instances rendered was drawn on the canvas, and the last of it by the
    newest instance. *)
Record page_inv p : Prop := {
  pi_instances : Forall (λ w, inv (app w) ∧ lost w = false) (instances p);
  pi_slot :
    onscroll_slot p
    = match length (instances p) with 0 => None | S n => Some n end;
  pi_drawn : length (drawn p) = total_frames p;
  pi_shown : shown p = last (instances p) ≫= λ w, last (frames_of w);
}.

End page.

(** ** Lemmas *)

Section lemmas.
Context {R : Type} `{Number R}.
Implicit Types (env : Env R) (p : Page R) (e : PageEvent R) (w : World R).
Implicit Types (es : list (PageEvent R)).

Lemma page_run_snoc env es e p :
  page_run env (es ++ [e]) p = page_step env e (page_run env es p).
Proof. unfold page_run. by rewrite foldl_snoc. Qed.

Lemma mounts_snoc es e :
  mounts (es ++ [e]) = mounts es + (if is_mount e then 1 else 0).
Proof.
  unfold mounts. rewrite filter_app, length_app. f_equal.
  destruct (is_mount e) eqn:He.
  - by rewrite filter_cons_True.
  - rewrite filter_cons_False; [done | congruence].
Qed.

(** With a graphics context the effect adds an instance. *)
Lemma page_mount_ok env p :
  webgl env = true →
  page_mount env p
  = mkPage (instances p ++ [world0 (next_env env p)])
           (Some (length (instances p)))
           (drawn p ++ [frame_of (app1 (next_env env p))]).
Proof.
  intros Hgl. unfold page_mount.
  rewrite (mount_ok (next_env env p) Hgl).
  change (world_of (Done (app1 (next_env env p))))
    with (world0 (next_env env p)).
  by destruct (frames_world0 (next_env env p)) as [-> _].
Qed.

(** A display refresh of an instance in order: one more frame, that of
    the state the tick reached. *)
Lemma instance_frame env w :
  inv (app w) ∧ lost w = false →
  (inv (app (on_frame env w)) ∧ lost (on_frame env w) = false)
  ∧ frames_of (on_frame env w)
    = frames_of w ++ [frame_of (app (on_frame env w))].
Proof.
  intros [Hi Hl]. split_and!.
  - by apply inv_on_frame.
  - change (on_frame env w) with (step env EvFrame w).
    by rewrite lost_step, Hl.
  - change (on_frame env w) with (step env EvFrame w).
    by rewrite frames_step, Hl.
Qed.

Lemma drawn_by_instance env w :
  inv (app w) ∧ lost w = false →
  drawn_by env w = [frame_of (app (on_frame env w))].
Proof.
  intros Hw. unfold drawn_by.
  destruct (instance_frame env w Hw) as [_ ->]. by rewrite drop_app_length.
Qed.

Lemma instance_scroll t w :
  inv (app w) ∧ lost w = false →
  inv (app (on_scroll t w)) ∧ lost (on_scroll t w) = false
  ∧ frames_of (on_scroll t w) = frames_of w.
Proof.
  intros [Hi Hl]. unfold lost, frames_of.
  rewrite on_scroll_bound by apply Hi.
  destruct (moveCamera_frame t (app w)) as (_ & _ & -> & _).
  split_and!; [by apply inv_moveCamera | done | done].
Qed.

(** A scroll event changes no frame log. *)
Lemma frames_alter_scroll t i (ws : list (World R)) :
  Forall (λ w, inv (app w) ∧ lost w = false) ws →
  frames_of <$> alter (on_scroll t) i ws = frames_of <$> ws.
Proof.
  intros Hall. apply list_eq. intros j.
  rewrite !list_lookup_fmap, list_lookup_alter.
  case_decide; [subst|done].
  destruct (ws !! j) as [w|] eqn:Hw; [simpl|done].
  apply (Forall_lookup_1 _ _ _ _ Hall) in Hw.
  by destruct (instance_scroll t w Hw) as (_ & _ & ->).
Qed.

Lemma total_frames_fmap p :
  total_frames p = sum_list (length <$> (frames_of <$> instances p)).
Proof. unfold total_frames. by rewrite list_fmap_compose. Qed.

Lemma shown_fmap (ws : list (World R)) :
  last ws ≫= (λ w, last (frames_of w)) = last (frames_of <$> ws) ≫= last.
Proof. rewrite fmap_last. by destruct (last ws). Qed.

(** A display refresh renders once per instance, in their order. *)
Lemma page_frame_drawn env (ws : list (World R)) :
  Forall (λ w, inv (app w) ∧ lost w = false) ws →
  mjoin (drawn_by env <$> ws) = (λ w, frame_of (app (on_frame env w))) <$> ws
  ∧ sum_list (length ∘ frames_of <$> (on_frame env <$> ws))
    = sum_list (length ∘ frames_of <$> ws) + length ws.
Proof.
  induction 1 as [|w ws Hw _ [IH1 IH2]]; [done|].
  rewrite !fmap_cons.
  change (mjoin (drawn_by env w :: (drawn_by env <$> ws)))
    with (drawn_by env w ++ mjoin (drawn_by env <$> ws)).
  rewrite (drawn_by_instance env w Hw), IH1. split; [done|].
  cbn [sum_list compose]. rewrite IH2.
  destruct (instance_frame env w Hw) as [_ ->].
  rewrite length_app. simpl. lia.
Qed.

Lemma total_frames_frame env p :
  Forall (λ w, inv (app w) ∧ lost w = false) (instances p) →
  total_frames (page_frame env p) = total_frames p + length (instances p).
Proof. intros Hall. apply (page_frame_drawn env _ Hall). Qed.

Lemma page_inv_mount env p :
  webgl env = true → page_inv p → page_inv (page_mount env p).
Proof.
  intros Hgl [Hall Hslot Hdrawn Hshown]. rewrite page_mount_ok by done.
  destruct (frames_world0 (next_env env p)) as (Hf & _ & Hl).
  split; cbn [instances onscroll_slot drawn].
  - apply Forall_app. split; [done|]. apply Forall_singleton.
    split; [apply inv_app1 | done].
  - by rewrite length_app, Nat.add_1_r.
  - unfold total_frames in *. cbn [instances].
    rewrite fmap_app, sum_list_with_app, length_app, Hdrawn. simpl.
    by rewrite Hf.
  - unfold shown. cbn [drawn instances]. rewrite !last_snoc. simpl.
    by rewrite Hf.
Qed.

Lemma page_inv_scroll t p : page_inv p → page_inv (page_scroll t p).
Proof.
  intros [Hall Hslot Hdrawn Hshown]. unfold page_scroll.
  destruct (onscroll_slot p) as [i|] eqn:Hs; [|split; by rewrite ?Hs].
  split; cbn [instances onscroll_slot drawn].
  - apply Forall_alter; [done|]. intros w _ Hw.
    by destruct (instance_scroll t w Hw) as (? & ? & _).
  - by rewrite length_alter.
  - rewrite total_frames_fmap in *. cbn [instances].
    by rewrite frames_alter_scroll.
  - unfold shown in *. cbn [drawn instances].
    by rewrite shown_fmap, frames_alter_scroll, <- shown_fmap.
Qed.

Lemma page_inv_frame env p : page_inv p → page_inv (page_frame env p).
Proof.
  intros [Hall Hslot Hdrawn Hshown].
  pose proof (total_frames_frame env p Hall) as Hn.
  destruct (page_frame_drawn env _ Hall) as [Hd _].
  unfold page_frame in *. rewrite Hd in *.
  split; cbn [instances onscroll_slot drawn].
  - apply Forall_fmap. eapply Forall_impl; [exact Hall|].
    intros w Hw. apply (instance_frame env w Hw).
  - by rewrite length_fmap.
  - rewrite Hn, length_app, length_fmap. lia.
  - unfold shown in *. cbn [drawn instances].
    rewrite last_app, !fmap_last, Hshown.
    destruct (last (instances p)) as [w|] eqn:Hlast; [simpl|done].
    apply last_Some_elem_of in Hlast.
    rewrite Forall_forall in Hall.
    destruct (instance_frame env w (Hall w Hlast)) as [_ ->].
    by rewrite last_snoc.
Qed.

Lemma page_inv_step env e p :
  webgl env = true → page_inv p → page_inv (page_step env e p).
Proof.
  intros Hgl Hp. destruct e; simpl;
    [by apply page_inv_mount | done | by apply page_inv_scroll
    | by apply page_inv_frame].
Qed.

Lemma page_inv_run env es :
  webgl env = true → page_inv (page_run env es page0).
Proof.
  intros Hgl. induction es as [|e es IH] using rev_ind.
  - by split; [constructor|..].
  - rewrite page_run_snoc. by apply page_inv_step.
Qed.

(** Only a mount changes the number of instances. *)
Lemma instances_run env es :
  webgl env = true → length (instances (page_run env es page0)) = mounts es.
Proof.
  intros Hgl. induction es as [|e es IH] using rev_ind; [done|].
  rewrite page_run_snoc, mounts_snoc, <- IH. destruct e; simpl.
  - rewrite page_mount_ok by done. simpl. by rewrite length_app.
  - lia.
  - unfold page_scroll. destruct (onscroll_slot _); simpl;
      rewrite ?length_alter; lia.
  - rewrite length_fmap. lia.
Qed.
End lemmas.

(** ** The program on a page that mounts it more than once *)

Section program.
Context {R : Type} `{Number R}.
Implicit Types (env : Env R) (p : Page R) (es : list (PageEvent R)).



End program.
