(* ===== verification/Interleave.v ===== *)
(** * Interleaving of the two drivers

    Scroll events and display refreshes arrive in any order on the one
    event loop; each handler runs to completion.  This file shows that the
    order of a scroll event and an adjacent display refresh does not
    matter for the state of the page, provided the orbit controller's
    update commutes with the scroll driver's write of [position.z]: the
    two orders differ in the frame log only (the frame rendered in between
    shows the depth before or after the scroll).

    Worlds are compared by [(≡)], equality of everything but the contents
    of the frame log; the handlers and [run] respect it ([Proper]), so the
    exchange can be made anywhere inside a run. *)

From S2P Require Import Prelude Number Vector Scene Camera Render App.
From S2P Require Import Scroll Animate Loop Frames.

Section view.
Context {R : Type} `{Number R}.
Implicit Types (env : Env R) (a b : App R) (w : World R) (e : Event R).
Implicit Types (es : list (Event R)).

(** The orbit controller's update commutes with an assignment of the
    depth. *)
Definition orbit_commutes (update : nat → Camera R → Camera R) : Prop :=
  ∀ k z c, update k (on_cam_position (set_z z) c)
           = on_cam_position (set_z z) (update k c).

(** Everything the handlers read, and the length of the frame log. *)
Definition view a :=
  (scene a, camera a, (torus a, moon a, jeffBox a), updates a,
   (onscroll a, raf a), (context_lost (renderer a), length (frames (renderer a)))).

#[export] Instance App_equiv : Equiv (App R) := λ a b, view a = view b.

#[export] Instance World_equiv : Equiv (World R) :=
  λ w1 w2, app w1 ≡ app w2 ∧ reported w1 = reported w2.

#[export] Instance App_equivalence : Equivalence (≡@{App R}).
Proof.
  split; [by intros a | by intros a b | intros a b c Hab Hbc].
  unfold equiv, App_equiv in *. congruence.
Qed.

#[export] Instance World_equivalence : Equivalence (≡@{World R}).
Proof.
  split.
  - by intros w.
  - intros w1 w2 [Ha Hr]. by split.
  - intros w1 w2 w3 [H12 Hr12] [H23 Hr23]. split; [by etrans | congruence].
Qed.

Lemma view_inv a b :
  a ≡ b →
  scene a = scene b ∧ camera a = camera b ∧ torus a = torus b
  ∧ moon a = moon b ∧ jeffBox a = jeffBox b ∧ updates a = updates b
  ∧ onscroll a = onscroll b ∧ raf a = raf b
  ∧ context_lost (renderer a) = context_lost (renderer b)
  ∧ length (frames (renderer a)) = length (frames (renderer b)).
Proof. intros [= ? ? ? ? ? ? ? ? ? ?]. by split_and!. Qed.

Lemma view_intro a b :
  scene a = scene b → camera a = camera b → torus a = torus b →
  moon a = moon b → jeffBox a = jeffBox b → updates a = updates b →
  onscroll a = onscroll b → raf a = raf b →
  context_lost (renderer a) = context_lost (renderer b) →
  length (frames (renderer a)) = length (frames (renderer b)) →
  a ≡ b.
Proof. intros. unfold equiv, App_equiv, view. congruence. Qed.
End view.

(** ** The handlers respect the view *)

Section proper.
Context {R : Type} `{Number R}.
Implicit Types (env : Env R) (a b : App R) (w : World R) (e : Event R).
Implicit Types (es : list (Event R)).

#[local] Transparent moveCamera.

Lemma view_moveCamera t a :
  view (moveCamera t a)
  = (st_exec (turn_decor a) (scene a),
     on_cam_position (set_z (scrollToCameraZ t)) (camera a),
     (torus a, moon a, jeffBox a), updates a, (onscroll a, raf a),
     (context_lost (renderer a), length (frames (renderer a)))).
Proof. reflexivity. Qed.

Lemma view_animate env a :
  view (final (animate env a))
  = (st_exec (spin_torus a) (scene a),
     controls_update env (updates a) (camera a),
     (torus a, moon a, jeffBox a), S (updates a), (onscroll a, S (raf a)),
     (context_lost (renderer a),
      length (frames (renderer a))
      + (if context_lost (renderer a) then 0 else 1))).
Proof.
  rewrite animate_final. unfold view. cbn [scene camera torus moon jeffBox
    updates onscroll raf renderer with_renderer with_updates with_camera
    with_scene with_raf].
  rewrite render_context_lost, render_frames, length_app.
  by destruct (context_lost (renderer a)).
Qed.

#[export] Instance moveCamera_proper t :
  Proper ((≡) ==> (≡)) (moveCamera (R:=R) t).
Proof.
  intros a b (Hs & Hc & Ht & Hm & Hj & Hu & Ho & Hr & Hl & Hn)%view_inv.
  unfold equiv, App_equiv. rewrite !view_moveCamera. unfold turn_decor.
  by rewrite Hs, Hc, Ht, Hm, Hj, Hu, Ho, Hr, Hl, Hn.
Qed.

#[export] Instance animate_proper env :
  Proper ((≡) ==> (≡)) (λ a, final (animate env a)).
Proof.
  intros a b (Hs & Hc & Ht & Hm & Hj & Hu & Ho & Hr & Hl & Hn)%view_inv.
  unfold equiv, App_equiv. rewrite !view_animate. unfold spin_torus.
  by rewrite Hs, Hc, Ht, Hm, Hj, Hu, Ho, Hr, Hl, Hn.
Qed.

Lemma with_raf_proper n a b : a ≡ b → with_raf n a ≡ with_raf n b.
Proof.
  intros (Hs & Hc & Ht & Hm & Hj & Hu & Ho & Hr & Hl & Hn)%view_inv.
  by apply view_intro.
Qed.

Lemma run_callback_proper env w1 w2 :
  w1 ≡ w2 → run_callback env w1 ≡ run_callback env w2.
Proof.
  intros [Ha Hr]. split.
  - rewrite !app_run_callback. by apply (animate_proper env).
  - rewrite !reported_run_callback, Hr.
    by destruct (view_inv _ _ Ha) as (_ & _ & _ & _ & _ & _ & _ & _ & -> & _).
Qed.

#[export] Instance step_proper env e : Proper ((≡) ==> (≡)) (step env e).
Proof.
  intros w1 w2 Hw. pose proof Hw as [Ha Hrep].
  pose proof (view_inv _ _ Ha)
    as (Hs & Hc & Ht & Hm & Hj & Hu & Ho & Hr & Hl & Hn).
  destruct e; simpl.
  - unfold on_scroll. rewrite Ho. destruct (onscroll (app w2)); [|done].
    split; [by apply moveCamera_proper | done].
  - unfold on_frame. rewrite Hr.
    generalize (raf (app w2)). intros n.
    assert (mkWorld (with_raf 0 (app w1)) (reported w1)
            ≡ mkWorld (with_raf 0 (app w2)) (reported w2)) as H0
      by (split; [by apply with_raf_proper | done]).
    revert H0. generalize (mkWorld (with_raf 0 (app w1)) (reported w1)).
    generalize (mkWorld (with_raf 0 (app w2)) (reported w2)).
    intros v2 v1 Hv. induction n as [|n IH]; [done|].
    simpl. by apply run_callback_proper.
  - split; [by apply view_intro | done].
  - split; [|done]. apply view_intro; try done. simpl. by rewrite Hs.
  - done.
Qed.

#[export] Instance run_proper env es : Proper ((≡) ==> (≡)) (run env es).
Proof.
  intros w1 w2 Hw. revert w1 w2 Hw.
  induction es as [|e es IH]; intros w1 w2 Hw; [done|].
  simpl. apply IH. by apply step_proper.
Qed.
End proper.

(** ** A scroll event and a display refresh commute *)

Section commute.
Context {R : Type} `{Number R}.
Implicit Types (env : Env R) (a b : App R) (w : World R) (e : Event R).
Implicit Types (es : list (Event R)) (s : Store R).

#[local] Transparent moveCamera.

Lemma inert_controls_commutes : orbit_commutes (inert_controls (R:=R)).
Proof. by intros k z c. Qed.

(** The two handlers write different objects of the heap. *)
Lemma spin_turn_commute a b s :
  torus a ≠ moon b → torus a ≠ jeffBox b →
  st_exec (spin_torus a) (st_exec (turn_decor b) s)
  = st_exec (turn_decor b) (st_exec (spin_torus a) s).
Proof.
  intros Hm Hj. apply Store_eq; try done.
  rewrite !spin_torus_objects, !turn_decor_objects, spin_torus_objects.
  by rewrite (list_alter_alter_ne _ _ _ (torus a) (jeffBox b)),
    (list_alter_alter_ne _ _ _ (torus a) (moon b)).
Qed.

Lemma turn_decor_ext a b :
  moon a = moon b → jeffBox a = jeffBox b → turn_decor a = turn_decor b.
Proof. unfold turn_decor. by intros -> ->. Qed.

Lemma spin_torus_ext a b : torus a = torus b → spin_torus a = spin_torus b.
Proof. unfold spin_torus. by intros ->. Qed.

Lemma moveCamera_fields t a :
  scene (moveCamera t a) = st_exec (turn_decor a) (scene a)
  ∧ camera (moveCamera t a)
    = on_cam_position (set_z (scrollToCameraZ t)) (camera a)
  ∧ (torus (moveCamera t a), moon (moveCamera t a), jeffBox (moveCamera t a))
    = (torus a, moon a, jeffBox a)
  ∧ updates (moveCamera t a) = updates a
  ∧ onscroll (moveCamera t a) = onscroll a
  ∧ raf (moveCamera t a) = raf a
  ∧ renderer (moveCamera t a) = renderer a.
Proof. by split_and!. Qed.

Lemma moveCamera_animate_commute env t a :
  wf a → orbit_commutes (controls_update env) →
  final (animate env (moveCamera t a)) ≡ moveCamera t (final (animate env a)).
Proof.
  intros Hwf Hoc. unfold equiv, App_equiv.
  rewrite view_animate, view_moveCamera.
  pose proof (view_animate env a) as [= Hs Hc Ht Hm Hj Hu Ho Hr Hl Hn].
  destruct (moveCamera_fields t a) as (Ms & Mc & Mt & Mu & Mo & Mr & Mn).
  rewrite (turn_decor_ext (final (animate env a)) a Hm Hj),
    (spin_torus_ext (moveCamera t a) a eq_refl).
  rewrite Hs, Hc, Ht, Hm, Hj, Hu, Ho, Hr, Hl, Hn.
  rewrite Ms, Mc, Mt, Mu, Mo, Mr, Mn.
  rewrite (Hoc (updates a)), (spin_turn_commute a a (scene a));
    [reflexivity | by apply wf_torus_moon | by apply wf_torus_jeffBox].
Qed.

Lemma swap_scroll_frame env t w :
  inv (app w) → orbit_commutes (controls_update env) →
  step env EvFrame (step env (EvScroll t) w)
  ≡ step env (EvScroll t) (step env EvFrame w).
Proof.
  intros Hi Hoc.
  pose proof (inv_step env (EvScroll t) w Hi) as Hi1.
  pose proof (inv_step env EvFrame w Hi) as Hi2.
  split.
  - cbn [step]. rewrite app_on_frame by done.
    rewrite !on_scroll_bound by apply Hi || apply Hi2.
    rewrite app_on_frame by done.
    change (with_raf 0 (moveCamera t (app w)))
      with (moveCamera t (with_raf 0 (app w))).
    apply moveCamera_animate_commute; [|done].
    by apply (wf_same (app w)); try apply Hi.
  - rewrite !reported_step, lost_step by done. simpl.
    by rewrite orb_false_r, !app_nil_r.
Qed.
End commute.

(** ** The program *)

Section program.
Context {R : Type} `{Number R}.
Implicit Types (env : Env R) (w : World R) (es : list (Event R)).

(** C28: A scroll event and an adjacent display refresh may be exchanged
    anywhere in a run without changing the state the run ends in: the
    scene, the camera, the registrations and the exceptions reported are
    the same, and the frame log has the same length.  This needs the orbit
    controller's update to commute with the assignment of [position.z]. *)
Theorem scroll_and_frame_commute env w t es :
  reachable env w → orbit_commutes (controls_update env) →
  run env ([EvScroll t; EvFrame] ++ es) w
  ≡ run env ([EvFrame; EvScroll t] ++ es) w.
Proof.
  intros Hi%reachable_inv Hoc. rewrite !run_app.
  apply run_proper. by apply swap_scroll_frame.
Qed.
End program.
