(* ===== verification/Markup.v ===== *)
(** * The markup

    What the component returns (lines 119-139 of [src/src/App.jsx]): a
    root [div] holding the canvas the effect renders to and the page
    content that scrolls over it.  The tree is data; every [className] is
    the string the source writes, and the class list of an element is
    what the browser's tokenizer makes of it.  Of the classes' meaning the
    development
    uses three facts, taken from the CSS they stand for: an element with
    [pointer-events-none] is never the target of a pointer or wheel event,
    [z-N] is the stacking index [N], and [h-[200vh]] is a height of two
    viewports.

    [Rings_markup] is what the multi-ring variant returns (lines
    213-215): the canvas alone, without the two classes.

    The orbit controller listens on the element it is given, the canvas
    ([renderer.domElement], line 47).  [page_controls] is therefore the
    controller of this page: the user's, if the canvas can be the target
    of pointer events, and the inert one otherwise. *)

From Stdlib Require Import String.
From stdpp Require Import strings.
From S2P Require Import Prelude Number Vector Scene Camera Render App.
From S2P Require Import Scroll Animate Loop Interleave.

#[local] Set Warnings "-register-all".

Inductive Node : Type :=
| Element (tag : string) (className : string) (ref : bool)
          (children : list Node)
| Text (content : string).

(** Lines 121-124. *)
Definition canvas : Node :=
  Element "canvas"
          "fixed top-0 left-0 w-screen h-screen z-0 pointer-events-none"
          true [].

(** Lines 127-133.  The text of the paragraph is written on two lines;
    JSX joins them with one space. *)
Definition card : Node :=
  Element "div"
          "bg-black/70 text-green-400 p-10 rounded-xl shadow-2xl border border-green-500 backdrop-blur"
          false
          [Element "h1" "text-6xl font-bold" false
                   [Text "CONTENT IS VISIBLE NOW"];
           Element "p" "text-2xl mt-6" false
                   [Text "If you can see this bright green box, the content is finally working!"]].

(** Line 135. *)
Definition spacer : Node := Element "div" "h-[200vh]" false [].

(** Lines 126-136. *)
Definition main_content : Node :=
  Element "main" "relative z-50 w-full min-h-screen p-20 text-white"
          false [card; spacer].

(** Lines 119-138. *)
Definition App_markup : Node :=
  Element "div" "w-screen min-h-screen overflow-x-hidden" false
          [canvas; main_content].

(** Lines 213-215: what the multi-ring variant returns, the canvas
    alone. *)
Definition Rings_markup : Node :=
  Element "canvas" "fixed top-0 left-0 w-screen h-screen" true [].

(** ** The class list

    [className] is one string.  The browser reads it as a list of tokens
    separated by white space ([classList]), and writes a list of tokens
    back as the tokens separated by single spaces. *)

Definition className_of (n : Node) : string :=
  match n with Element _ c _ _ => c | Text _ => "" end.

Definition classes (n : Node) : list string := String.words (className_of n).

Definition unwords (ws : list string) : string := String.concat " " ws.

Fixpoint no_space (w : string) : bool :=
  match w with
  | "" => true
  | String a w' => negb (Ascii.is_space a) && no_space w'
  end.

(** A token: not empty, and without white space. *)
Definition is_token (w : string) : bool :=
  match w with "" => false | _ => no_space w end.

(** ** Reading the tree *)

Definition has_ref (n : Node) : bool :=
  match n with Element _ _ r _ => r | Text _ => false end.

Definition tag_of (n : Node) : option string :=
  match n with Element t _ _ _ => Some t | Text _ => None end.

(** The elements of a tree, in document order. *)
Fixpoint elements (n : Node) : list Node :=
  match n with
  | Element _ _ _ ch => n :: flat_map elements ch
  | Text _ => []
  end.

(** The elements [canvasRef] is attached to. *)
Definition ref_targets (n : Node) : list Node :=
  filter (λ m, has_ref m = true) (elements n).

(** Whether an element can be the target of a pointer event. *)
Definition pointer_events (n : Node) : bool :=
  bool_decide ("pointer-events-none" ∉ classes n).

(** The stacking index a [z-N] class gives. *)
Definition z_of_class (c : string) : option Z :=
  if decide (c = "z-0") then Some 0%Z
  else if decide (c = "z-10") then Some 10%Z
  else if decide (c = "z-20") then Some 20%Z
  else if decide (c = "z-30") then Some 30%Z
  else if decide (c = "z-40") then Some 40%Z
  else if decide (c = "z-50") then Some 50%Z
  else None.

Definition z_index (n : Node) : option Z :=
  list_find (λ z, is_Some z) (z_of_class <$> classes n) ≫= snd.

(** ** The controller of this page *)

Definition page_controls {R : Type} (user : nat → Camera R → Camera R) :
  nat → Camera R → Camera R :=
  if pointer_events canvas then user else inert_controls.

(** ** Lemmas *)

(** *** The tokenizer *)

Section tokens.
Implicit Types (w s acc : string) (ws : list string) (cur : option string).

Lemma string_app_cons a w s : (String a w +:+ s = String a (w +:+ s))%string.
Proof. reflexivity. Qed.

Lemma string_app_nil_r s : (s +:+ "")%string = s.
Proof.
  induction s as [|a s IH]; [done|]. by rewrite string_app_cons, IH.
Qed.

Lemma rev_app_rev_app w acc acc' :
  String.rev_app (String.rev_app w acc) acc'
  = String.rev_app acc (w +:+ acc')%string.
Proof.
  revert acc acc'. induction w as [|a w IH]; intros acc acc'; [done|].
  rewrite string_app_cons. simpl. by rewrite IH.
Qed.

Lemma rev_rev_app w : String.rev (String.rev_app w "") = w.
Proof.
  unfold String.rev. rewrite rev_app_rev_app. simpl. apply string_app_nil_r.
Qed.

(** The word in progress after the characters of [w] have been read. *)
Definition grow w cur : option string :=
  match w with
  | "" => cur
  | _ => Some (String.rev_app w (default "" cur))
  end.

Lemma words_go_no_space w cur s :
  no_space w = true →
  String.words_go cur (w +:+ s) = String.words_go (grow w cur) s.
Proof.
  revert cur. induction w as [|a w IH]; intros cur Hw; [done|].
  simpl in Hw. apply andb_prop in Hw as [Ha%negb_true_iff Hw].
  rewrite string_app_cons. simpl. rewrite Ha, IH by done. f_equal.
  destruct w, cur; reflexivity.
Qed.

Lemma words_go_token w s :
  is_token w = true →
  String.words_go None (w +:+ s)
  = String.words_go (Some (String.rev_app w "")) s.
Proof.
  intros Hw. rewrite words_go_no_space; by destruct w.
Qed.

Lemma words_go_space cur s :
  String.words_go cur (" " +:+ s)
  = option_list (String.rev <$> cur) ++ String.words_go None s.
Proof. reflexivity. Qed.

(** Reading back what was written: tokens joined by single spaces are
    split into the same tokens. *)
Lemma words_unwords ws :
  Forall (λ w, is_token w = true) ws → String.words (unwords ws) = ws.
Proof.
  unfold String.words, unwords.
  induction 1 as [|w ws Hw Hws IH]; [done|].
  destruct ws as [|w' ws].
  - simpl. rewrite <- (string_app_nil_r w) at 1.
    rewrite words_go_token by done. simpl. by rewrite rev_rev_app.
  - change (String.concat " " (w :: w' :: ws))
      with (w +:+ " " +:+ String.concat " " (w' :: ws))%string.
    rewrite words_go_token, words_go_space, IH by done.
    simpl. by rewrite rev_rev_app.
Qed.

(** Writing back what was read: a string of tokens separated by single
    spaces is what its class list is written as. *)
Lemma unwords_words ws :
  Forall (λ w, is_token w = true) ws →
  unwords (String.words (unwords ws)) = unwords ws.
Proof. intros Hws. by rewrite words_unwords. Qed.
End tokens.

(** Every [className] of the two trees is written as tokens separated by
    single spaces. *)
Lemma markup_classNames_canonical :
  Forall (λ n, Forall (λ w, is_token w = true) (classes n)
               ∧ unwords (classes n) = className_of n)
         (elements App_markup ++ elements Rings_markup).
Proof.
  apply Forall_forall. intros n Hn.
  repeat (apply elem_of_cons in Hn as [->|Hn]); [..|by apply elem_of_nil in Hn];
    (split; [by vm_compute; repeat constructor | by vm_compute]).
Qed.


Lemma elements_App_markup :
  tag_of <$> elements App_markup
  = Some <$> ["div"; "canvas"; "main"; "div"; "h1"; "p"; "div"]%string.
Proof. reflexivity. Qed.

Lemma canvas_pointer_events : pointer_events canvas = false.
Proof. reflexivity. Qed.

(** The canvas of the variant is its whole markup and carries the ref; it
    has no stacking class and no [pointer-events-none]. *)
Lemma Rings_markup_canvas :
  ref_targets Rings_markup = [Rings_markup]
  ∧ pointer_events Rings_markup = true ∧ z_index Rings_markup = None.
Proof. by split_and!. Qed.

Section controls.
Context {R : Type} `{Number R}.
Implicit Types (user : nat → Camera R → Camera R) (env : Env R).

Lemma page_controls_inert user : page_controls user = inert_controls.
Proof. reflexivity. Qed.

Lemma page_controls_disjoint user : orbit_disjoint (page_controls user).
Proof. rewrite page_controls_inert. apply inert_controls_disjoint. Qed.

Lemma page_controls_commutes user : orbit_commutes (page_controls user).
Proof. rewrite page_controls_inert. apply inert_controls_commutes. Qed.

(** The ref of the effect is attached to exactly one element of the
    tree the component returns, and that element is the canvas of lines
    121-124: when the effect runs, [canvasRef.current] is that canvas,
    which can not be the target of a pointer event and lies below the
    page content (stacking index 0 against 50). *)
Lemma canvasRef_is_the_canvas :
  ref_targets App_markup = [canvas]
  ∧ pointer_events canvas = false
  ∧ z_index canvas = Some 0%Z ∧ z_index main_content = Some 50%Z.
Proof. by split_and!. Qed.

End controls.
