(* ===== verification/Machine.v ===== *)
(** * The specification's state machine, and the program as its refinement

    The specification describes the scene-update loop as a machine with
    two states, Running and Stopped, a camera depth that is a function of
    the last scroll offset, and counters of work done: rotation steps of
    the primary entity (one per tick), rotation steps of the two
    decorative entities (one per scroll event), frames rendered.  [Abs] is
    that machine, [abs_step] its reaction to an event, written from the
    specification's words: a failed render is fatal to the loop, and
    teardown stops it.

    [sim] relates a state of the machine to a world of the program.  The
    program refines the machine on every run that
    has no teardown and no tick whose render fails
    ([program_refines_machine]); at those two points the program leaves
    the machine: it keeps running where the machine stops
    ([unmount_stops_nothing], and [tick_failure_not_fatal] of [Frames]). *)

From S2P Require Import Prelude Number Vector Scene Camera Render App.
From S2P Require Import Scroll Animate Loop Frames.

Inductive LoopState : Type := Running | Stopped.

#[export] Instance LoopState_eq_dec : EqDecision LoopState.
Proof. solve_decision. Defined.

Record Abs (R : Type) : Type := mkAbs {
  loop : LoopState;
  cameraZ : R;
  ticks : nat;
  scrolls : nat;
  rendered : nat;
  failed : nat;
  sink_lost : bool;
}.
Arguments mkAbs {R}.
Arguments loop {R}.
Arguments cameraZ {R}.
Arguments ticks {R}.
Arguments scrolls {R}.
Arguments rendered {R}.
Arguments failed {R}.
Arguments sink_lost {R}.

Section machine.
Context {R : Type} `{Number R}.
Variables (baseZ k : R).
Implicit Types (s : Abs R) (e : Event R).

(** The machine after scene construction: Running, the camera at its base
    depth, the first tick done and rendered. *)
Definition abs_init : Abs R := mkAbs Running baseZ 1 0 1 0 false.

(** A scroll event: [cameraZ = baseZ + scrollTop * k], and one step of the
    decorative entities. *)
Definition abs_scroll (t : R) s : Abs R :=
  mkAbs (loop s) (baseZ ⊕ t ⊗ k) (ticks s) (S (scrolls s)) (rendered s)
        (failed s) (sink_lost s).

(** A tick: one rotation step, then one render; a failed render is
    reported and stops the loop. *)
Definition abs_tick s : Abs R :=
  if sink_lost s
  then mkAbs Stopped (cameraZ s) (S (ticks s)) (scrolls s) (rendered s)
             (S (failed s)) (sink_lost s)
  else mkAbs (loop s) (cameraZ s) (S (ticks s)) (scrolls s) (S (rendered s))
             (failed s) (sink_lost s).

(** Teardown: the loop is cancelled and the scroll listener detached. *)
Definition abs_stop s : Abs R :=
  mkAbs Stopped (cameraZ s) (ticks s) (scrolls s) (rendered s) (failed s)
        (sink_lost s).

Definition abs_lose s : Abs R :=
  mkAbs (loop s) (cameraZ s) (ticks s) (scrolls s) (rendered s) (failed s) true.

(** A stopped machine reacts to nothing. *)
Definition abs_step e s : Abs R :=
  match loop s with
  | Stopped => s
  | Running =>
      match e with
      | EvScroll t => abs_scroll t s
      | EvFrame => abs_tick s
      | EvContextLost => abs_lose s
      | EvTexture _ _ => s
      | EvUnmount => abs_stop s
      end
  end.

Definition abs_run (es : list (Event R)) s : Abs R :=
  foldl (λ s e, abs_step e s) s es.

End machine.

Section refinement.
Context {R : Type} `{Number R}.
Implicit Types (env : Env R) (s : Abs R) (w : World R) (e : Event R).
Implicit Types (es : list (Event R)).

Definition is_unmount e : bool :=
  match e with EvUnmount => true | _ => false end.

(** The machine of this program: base depth 30, slope -0.01. *)
Definition abs_step30 : Event R → Abs R → Abs R :=
  abs_step (lit 30) (⊝ lit 0.01).

Definition abs_init30 : Abs R := abs_init (lit 30).

Definition abs_run30 : list (Event R) → Abs R → Abs R :=
  abs_run (lit 30) (⊝ lit 0.01).

(** The events on which the program follows the machine: all but teardown
    and a tick whose render fails. *)
Definition follows s e : bool :=
  negb (is_unmount e) && negb (is_frame e && sink_lost s).

Fixpoint followed (es : list (Event R)) s : bool :=
  match es with
  | [] => true
  | e :: es => follows s e && followed es (abs_step30 e s)
  end.

(** What a state of the machine says about a world of the program. *)
Record sim s w : Prop := {
  sim_loop : loop s = Running ∧ running w;
  sim_depth : depth (app w) = cameraZ s;
  sim_torus :
    torus_rotation (app w) = Some (Nat.iter (ticks s) torus_step vzero);
  sim_moon :
    moon_rotation (app w) = Some (Nat.iter (scrolls s) moon_step vzero);
  sim_jeffBox :
    jeffBox_rotation (app w) = Some (Nat.iter (scrolls s) jeff_step vzero);
  sim_rendered : length (frames_of w) = rendered s;
  sim_failed : length (reported w) = failed s;
  sim_lost : lost w = sink_lost s;
}.

End refinement.

(** ** Lemmas *)

Section lemmas.
Context {R : Type} `{Number R}.
Implicit Types (env : Env R) (s : Abs R) (w : World R) (e : Event R).
Implicit Types (es : list (Event R)).

Lemma abs_run_snoc (baseZ k : R) es e s :
  abs_run baseZ k (es ++ [e]) s = abs_step baseZ k e (abs_run baseZ k es s).
Proof. unfold abs_run. by rewrite foldl_snoc. Qed.

(** A stopped machine stays as it is. *)
Lemma abs_run_stopped (baseZ k : R) es s :
  loop s = Stopped → abs_run baseZ k es s = s.
Proof.
  intros Hs. induction es as [|e es IH] using rev_ind; [done|].
  rewrite abs_run_snoc, IH. unfold abs_step. by rewrite Hs.
Qed.

(** The depth after one event. *)
Lemma depth_step env e w :
  orbit_disjoint (controls_update env) → inv (app w) →
  depth (app (step env e w))
  = match e with EvScroll t => scrollToCameraZ t | _ => depth (app w) end.
Proof.
  intros Hd Hi. change (step env e w) with (run env [e] w).
  rewrite depth_run by done. by destruct e.
Qed.

Lemma running_inv w : inv (app w) → running w.
Proof. intros Hi. unfold running. rewrite (inv_raf _ Hi). lia. Qed.

Lemma sim_init env :
  orbit_disjoint (controls_update env) → sim abs_init30 (world0 env).
Proof.
  intros Hd. destruct (app1_rotations env) as (Ht & Hm & Hj).
  destruct (frames_world0 env) as (Hf & Hr & Hl).
  split; simpl; try done.
  - split; [done | apply running_inv, inv_app1].
  - by apply app1_values.
Qed.

(** One event the program follows the machine on keeps the two related. *)
Lemma sim_step env e s w :
  orbit_disjoint (controls_update env) → inv (app w) → follows s e = true →
  sim s w → sim (abs_step30 e s) (step env e w).
Proof.
  intros Hd Hi [Hu Hf]%andb_prop [[Hloop Hrun] Hz Ht Hm Hj Hn Hr Hl].
  unfold abs_step30, abs_step, abs_tick. rewrite Hloop.
  split.
  - split; [|by apply running_inv, inv_step].
    destruct e; try done. simpl in Hf. by destruct (sink_lost s).
  - rewrite depth_step by done. destruct e; try done. by destruct (sink_lost s).
  - rewrite torus_rotation_step, Ht by done.
    destruct e; try done. by destruct (sink_lost s).
  - rewrite moon_rotation_step, Hm by done.
    destruct e; try done. by destruct (sink_lost s).
  - rewrite jeffBox_rotation_step, Hj by done.
    destruct e; try done. by destruct (sink_lost s).
  - rewrite frames_step, length_app, Hl, Hn by done.
    destruct e; simpl in *; try lia. destruct (sink_lost s); [done | simpl; lia].
  - rewrite reported_step, length_app, Hl, Hr by done.
    destruct e; simpl in *; try lia. destruct (sink_lost s); [done | simpl; lia].
  - rewrite lost_step, Hl by done.
    destruct e; simpl; rewrite ?orb_false_r, ?orb_true_r; try done.
    by destruct (sink_lost s).
Qed.

Lemma sim_run env es s w :
  orbit_disjoint (controls_update env) → inv (app w) →
  followed es s = true → sim s w →
  sim (abs_run30 es s) (run env es w).
Proof.
  intros Hd. revert s w. induction es as [|e es IH]; intros s w Hi Hes Hs.
  { done. }
  simpl in Hes. apply andb_prop in Hes as [He Hes].
  apply (IH (abs_step30 e s) (step env e w));
    [by apply inv_step | done | by apply sim_step].
Qed.

(** *** Where the program leaves the machine *)

(** Teardown stops the machine for good. *)
Lemma abs_unmount s es :
  loop (abs_run30 (EvUnmount :: es) s) = Stopped
  ∧ rendered (abs_run30 (EvUnmount :: es) s) = rendered s.
Proof.
  unfold abs_run30. simpl. rewrite abs_run_stopped.
  - unfold abs_step. by destruct (loop s) eqn:Hl.
  - unfold abs_step. by destruct (loop s) eqn:Hl.
Qed.

(** The program after an unmount and a display refresh. *)
Lemma run_unmount_frame env w :
  inv (app w) → lost w = false →
  running (run env [EvUnmount; EvFrame] w)
  ∧ length (frames_of (run env [EvUnmount; EvFrame] w))
    = S (length (frames_of w)).
Proof.
  intros Hi Hl. split; [by apply running_inv, inv_run|].
  change (run env [EvUnmount; EvFrame] w) with (step env EvFrame w).
  rewrite frames_step, length_app, Hl by done. simpl. lia.
Qed.
End lemmas.

(** ** The program *)

Section program.
Context {R : Type} `{Number R}.
Implicit Types (env : Env R) (s : Abs R) (w : World R) (e : Event R).
Implicit Types (es : list (Event R)) (o : Outcome (App R)).

(** C7: The program refines the specification's state machine: started
    together, the machine and the mounted program stay related through
    every sequence of events that has no teardown and no tick whose render
    fails.  Related means: the loop is Running, the camera depth is the
    machine's [cameraZ], the torus has made [ticks] rotation steps, the
    moon and the jeff box [scrolls] steps each, the sink holds [rendered]
    frames and the host [failed] exceptions. *)
Theorem program_refines_machine env o es :
  orbit_disjoint (controls_update env) → mount env = inr o →
  followed es abs_init30 = true →
  sim (abs_run30 es abs_init30) (run env es (world_of o)).
Proof.
  intros Hd ->%mount_world Hes.
  apply sim_run; [done | apply inv_app1 | done | by apply sim_init].
Qed.

End program.
