(* ===== verification/Rings.v ===== *)
(** * The multi-ring variant

    The source file ends with a second version of the component, kept in
    a comment under the heading "For multiple rings" (lines 143-218 of
    [src/src/App.jsx]).  It is not executed; this file models the program
    it is when the comment marks are removed.

    The variant builds four tori from a table of settings
    ([ringsConfig]), stores each ring's speed on the ring itself
    ([ring.userData.speed]), keeps the rings in an array beside the scene
    ([rings]) and, on every tick, turns each ring of the array by its own
    speed.  It has no scroll handler, no orbit controller, no stars and no
    textures.

    A ring is reached through two references, the scene's children and
    the array [rings]; both are indices into the object heap of [Scene].
    The [userData] of the objects is the table [userData] of the state,
    keyed by the object's index and then by the property name.

    The two loops of the variant are written with [forEach_of], the loop
    over the elements of an array.  [make_rings_js] and [spin_rings_js]
    are the same loops as the language runs them ([forEach_js]): by index,
    with the array read from the state at each step.  They are proved to
    end and to give the same result, together with the loop over the
    stars of the live component.

    Where the variant and the live component declare the same name
    ([scene], [camera], [renderer], [animate]), the definitions of the
    variant carry the prefix [rg_] or the suffix [_rings]. *)

From stdpp Require Import gmap strings.
From S2P Require Import Prelude Number Vector Scene Camera Render App.

(** One entry of [ringsConfig] (lines 172-175). *)
Record RingConfig (R : Type) : Type := mkRingConfig {
  radius : R;
  tube : R;
  color : Z;
  speed : R;
}.
Arguments mkRingConfig {R}.
Arguments radius {R}.
Arguments tube {R}.
Arguments color {R}.
Arguments speed {R}.

(** The variables of the variant's effect, and the registration it makes
    with the host ([rg_raf], the number of pending animation-frame
    callbacks). *)
Record RingsApp (R : Type) : Type := mkRingsApp {
  rg_scene : Store R;
  userData : gmap nat (gmap string R);
  rg_camera : Camera R;
  rg_renderer : Renderer R;
  rings : list nat;
  rg_raf : nat;
}.
Arguments mkRingsApp {R}.
Arguments rg_scene {R}.
Arguments userData {R}.
Arguments rg_camera {R}.
Arguments rg_renderer {R}.
Arguments rings {R}.
Arguments rg_raf {R}.

Section variant.
Context {R : Type} `{Number R}.
Implicit Types (env : Env R) (a : RingsApp R) (s : Store R) (id ring : nat).
Implicit Types (cfg : RingConfig R) (key : string).

(** Lines 171-176. *)
Definition ringsConfig : list (RingConfig R) :=
  [ mkRingConfig (lit 10) (lit 3) 0xff6347%Z (lit 0.01);
    mkRingConfig (lit 14) (lit 2.5) 0x00ffff%Z (lit 0.008);
    mkRingConfig (lit 18) (lit 2) 0x00ff00%Z (lit 0.006);
    mkRingConfig (lit 22) (lit 1.8) 0xffff00%Z (lit 0.004) ].

(** Field updates of [RingsApp]. *)
Definition rg_with_scene s a : RingsApp R :=
  mkRingsApp s (userData a) (rg_camera a) (rg_renderer a) (rings a) (rg_raf a).

Definition rg_with_renderer (r : Renderer R) a : RingsApp R :=
  mkRingsApp (rg_scene a) (userData a) (rg_camera a) r (rings a) (rg_raf a).

Definition rg_with_raf (pending : nat) a : RingsApp R :=
  mkRingsApp (rg_scene a) (userData a) (rg_camera a) (rg_renderer a) (rings a)
             pending.

(** A statement that works on the scene alone. *)
Definition in_scene {A} (c : ST (Store R) A) : ST (RingsApp R) A :=
  λ a, let '(x, s) := c (rg_scene a) in (x, rg_with_scene s a).

(** [obj.userData.key = v]: a new object's [userData] is empty. *)
Definition set_userData id key (v : R) : ST (RingsApp R) unit :=
  st_modify (λ a,
    mkRingsApp (rg_scene a)
               (<[id := <[key := v]> (default ∅ (userData a !! id))]>
                  (userData a))
               (rg_camera a) (rg_renderer a) (rings a) (rg_raf a)).

(** [obj.userData.key]: [None] is [undefined]. *)
Definition get_userData id key : ST (RingsApp R) (option R) :=
  λ a, (userData a !! id ≫= λ props, props !! key, a).

(** [rings.push(ring)] *)
Definition rings_push ring : ST (RingsApp R) unit :=
  st_modify (λ a,
    mkRingsApp (rg_scene a) (userData a) (rg_camera a) (rg_renderer a)
               (rings a ++ [ring]) (rg_raf a)).

(** Lines 181-189, the callback of [ringsConfig.forEach]. *)
Definition make_ring cfg : ST (RingsApp R) unit :=
  let geometry := TorusGeometry (radius cfg) (tube cfg) 16 100 in
  let material :=
    MeshStandardMaterial (Some (color cfg)) None None None None in
  ring ← in_scene (new_Mesh geometry material);
  set_userData ring "speed" (speed cfg);;
  in_scene (scene_add ring);;
  rings_push ring.

(** Lines 192-196. *)
Definition make_lights_rings : ST (RingsApp R) nat :=
  ambient ← in_scene (new_Object3D (AmbientLight 0xffffff%Z (Some (lit 0.6))));
  in_scene (scene_add ambient);;
  pointLight ← in_scene (new_Object3D (PointLight 0xffffff%Z None));
  in_scene (update_object pointLight
              (on_position (vset (lit 15) (lit 15) (lit 15))));;
  in_scene (scene_add pointLight);;
  mret pointLight.

(** Lines 170-196: the rings, then the lights. *)
Definition populate_rings : ST (RingsApp R) nat :=
  forEach_of ringsConfig make_ring;;
  make_lights_rings.

(** Lines 152-196: the scene, the camera, the renderer (whose constructor
    may throw), the empty array [rings], then the objects. *)
Definition setup_rings env : Error + RingsApp R :=
  let camera :=
    PerspectiveCamera (lit 75) (innerWidth env ⊘ innerHeight env) (lit 0.1)
                      (lit 1000) in
  let camera := on_cam_position (set_z (lit 40)) camera in
  match WebGLRenderer (webgl env) true with
  | inl e => inl e
  | inr renderer =>
      let renderer := setPixelRatio (devicePixelRatio env) renderer in
      let renderer := setSize (innerWidth env) (innerHeight env) renderer in
      let renderer := set_outputColorSpace SRGBColorSpace renderer in
      inr (st_exec populate_rings
                   (mkRingsApp Scene ∅ camera renderer [] 0))
  end.

(** Lines 203-204, the callback of [rings.forEach]: the speed is read
    from the ring for each of the two statements. *)
Definition spin_ring ring : ST (RingsApp R) unit :=
  v ← get_userData ring "speed";
  in_scene (update_object ring (on_rotation (add_x (to_number v))));;
  v ← get_userData ring "speed";
  in_scene (update_object ring
              (on_rotation (add_y (to_number v ⊗ lit 0.6)))).

(** The two loops as the language runs them.  Lines 181-189:
    [ringsConfig.forEach], over the table; lines 203-206:
    [rings.forEach], over the array the state holds, read at each
    index. *)
Definition make_rings_js (fuel : nat) : RingsApp R → option (RingsApp R) :=
  forEach_js (λ _, ringsConfig) (λ _, make_ring) fuel.

Definition spin_rings_js (fuel : nat) : RingsApp R → option (RingsApp R) :=
  forEach_js rings (λ _, spin_ring) fuel.

(** Line 207. *)
Definition render_call_rings a : Outcome (RingsApp R) :=
  Outcome_map (λ r, rg_with_renderer r a)
              (render (rg_scene a) (rg_camera a) (rg_renderer a)).

(** Lines 199-208: the registration first, then the rings, then the render
    call. *)
Definition animate_rings a : Outcome (RingsApp R) :=
  let a := rg_with_raf (S (rg_raf a)) a in
  let a := st_exec (forEach_of (rings a) spin_ring) a in
  render_call_rings a.

(** The effect of the variant (lines 151-211): construction, then the
    first, synchronous call of [animate]. *)
Definition mount_rings env : Error + Outcome (RingsApp R) :=
  match setup_rings env with
  | inl e => inl e
  | inr a => inr (animate_rings a)
  end.

(** ** Reference definitions *)

(** The speed arithmetic finds on an object. *)
Definition speed_of id a : R :=
  to_number (userData a !! id ≫= λ props, props !! "speed").

(** The rotation one tick adds to a ring of speed [v]. *)
Definition ring_step (v : R) (rot : Vector3 R) : Vector3 R :=
  add_y (v ⊗ lit 0.6) (add_x v rot).

(** The heap after one tick, object by object: an object the array
    [rings] refers to is turned by its speed, every other object is left
    as it is. *)
Definition rings_spun a : list (Object3D R) :=
  imap (λ j o, if bool_decide (j ∈ rings a)
               then on_rotation (ring_step (speed_of j a)) o else o)
       (objects (rg_scene a)).

Definition set_objects (os : list (Object3D R)) s : Store R :=
  mkStore os (textures s) (children s) (background s) (draws s).

(** The state a call of [animate] reaches before it renders, and the
    outcome of the call in one piece. *)
Definition animate_rings_state a : RingsApp R :=
  mkRingsApp (set_objects (rings_spun a) (rg_scene a)) (userData a)
             (rg_camera a) (rg_renderer a) (rings a) (S (rg_raf a)).

Definition animate_rings_result a : Outcome (RingsApp R) :=
  let a' := animate_rings_state a in
  if context_lost (rg_renderer a) then Thrown TickFailure a'
  else Done (rg_with_renderer
               (mkRenderer (antialias (rg_renderer a)) (pixelRatio (rg_renderer a))
                           (size (rg_renderer a))
                           (outputColorSpace (rg_renderer a))
                           (context_lost (rg_renderer a))
                           (frames (rg_renderer a)
                            ++ [mkFrame (rg_scene a') (rg_camera a')]))
               a').

(** The ring a configuration entry describes, as the constructor leaves
    it. *)
Definition ring_of cfg : Object3D R :=
  mkObject3D
    (Mesh (TorusGeometry (radius cfg) (tube cfg) 16 100)
          (MeshStandardMaterial (Some (color cfg)) None None None None))
    vzero vzero.

(** What construction leaves: the four rings, the ambient light and the
    point light, in this order in the heap and among the children. *)
Definition rings_scene0 : Store R :=
  mkStore ((ring_of <$> ringsConfig)
           ++ [mkObject3D (AmbientLight 0xffffff%Z (Some (lit 0.6))) vzero vzero;
               mkObject3D (PointLight 0xffffff%Z None)
                          (mkVector3 (lit 15) (lit 15) (lit 15)) vzero])
          [] (seq 0 6) None 0.

Definition rings_userData0 : gmap nat (gmap string R) :=
  list_to_map (imap (λ i cfg, (i, {["speed" := speed cfg]})) ringsConfig).

Definition rings_camera0 env : Camera R :=
  mkCamera (lit 75) (innerWidth env ⊘ innerHeight env) (lit 0.1) (lit 1000)
           (mkVector3 (lit 0) (lit 0) (lit 40)) vzero.

Definition rings_app0 env : RingsApp R :=
  mkRingsApp rings_scene0 rings_userData0 (rings_camera0 env) (renderer0 env)
             (seq 0 4) 0.

(** ** Typing of the references

    [ring_at id cfg a]: the reference [id] names a torus built from
    [cfg], shown in the scene, with the speed of [cfg] on it. *)
Definition ring_at id cfg a : Prop :=
  kind <$> objects (rg_scene a) !! id = Some (kind (ring_of cfg))
  ∧ (userData a !! id ≫= λ props, props !! "speed") = Some (speed cfg)
  ∧ id ∈ children (rg_scene a).

Record rings_typed a : Prop := {
  rt_store : store_wf (rg_scene a);
  rt_rings : Forall2 (λ id cfg, ring_at id cfg a) (rings a) ringsConfig;
  rt_nodup : NoDup (rings a);
}.

End variant.

(** ** Lemmas *)

Section lemmas.
Context {R : Type} `{Number R}.
Implicit Types (env : Env R) (a : RingsApp R) (s : Store R) (id ring j : nat).
Implicit Types (cfg : RingConfig R) (os : list (Object3D R)).

Lemma set_objects_id s : set_objects (objects s) s = s.
Proof. by destruct s. Qed.

Lemma rg_with_scene_id a : rg_with_scene (rg_scene a) a = a.
Proof. by destruct a. Qed.

(** *** One ring, then all of them *)

(** The two statements of the callback are one update of the ring. *)
Lemma spin_ring_exec ring a :
  st_exec (spin_ring ring) a
  = rg_with_scene
      (set_objects (alter (on_rotation (ring_step (speed_of ring a))) ring
                          (objects (rg_scene a)))
                   (rg_scene a)) a.
Proof.
  unfold spin_ring, get_userData, in_scene, update_object. st_run. simpl.
  unfold rg_with_scene, set_objects. simpl.
  by rewrite list_alter_alter_eq.
Qed.

(** What is written to an object's [userData] is what is read from it,
    and nothing else of the table has changed. *)
Lemma get_set_userData id key v a :
  st_eval (get_userData id key) (st_exec (set_userData id key v) a) = Some v.
Proof.
  unfold get_userData, set_userData, st_eval, st_exec. simpl.
  rewrite lookup_insert_eq. simpl. by rewrite lookup_insert_eq.
Qed.

Lemma get_set_userData_ne id key id' key' v a :
  (id, key) ≠ (id', key') →
  st_eval (get_userData id' key') (st_exec (set_userData id key v) a)
  = st_eval (get_userData id' key') a.
Proof.
  intros Hne. unfold get_userData, set_userData, st_eval, st_exec. simpl.
  destruct (decide (id = id')) as [<-|Hid];
    [|by rewrite lookup_insert_ne by done].
  rewrite lookup_insert_eq. simpl.
  rewrite lookup_insert_ne by congruence.
  by destruct (userData a !! id).
Qed.

(** Turning a ring leaves the array [rings] as it is. *)
Lemma spin_ring_rings ring a : rings (st_exec (spin_ring ring) a) = rings a.
Proof. by rewrite spin_ring_exec. Qed.

(** The loop over the array: the rings are updated one after the other,
    each by the speed it had when the loop began. *)
Lemma spin_rings_exec (l : list nat) a :
  st_exec (forEach_of l spin_ring) a
  = rg_with_scene
      (set_objects
         (foldl (λ os i, alter (on_rotation (ring_step (speed_of i a))) i os)
                (objects (rg_scene a)) l)
         (rg_scene a)) a.
Proof.
  induction l as [|i l IH] using rev_ind.
  - simpl. by rewrite set_objects_id, rg_with_scene_id.
  - by rewrite forEach_of_snoc, IH, spin_ring_exec, foldl_snoc.
Qed.

Lemma rings_spun_lookup a j :
  rings_spun a !! j
  = (λ o, if bool_decide (j ∈ rings a)
          then on_rotation (ring_step (speed_of j a)) o else o)
    <$> objects (rg_scene a) !! j.
Proof. apply list_lookup_imap. Qed.

Lemma rings_spun_kind a j :
  kind <$> rings_spun a !! j = kind <$> objects (rg_scene a) !! j.
Proof.
  rewrite rings_spun_lookup. destruct (objects (rg_scene a) !! j); [|done].
  simpl. by destruct (bool_decide _).
Qed.

(** When the array names no ring twice, the loop is one pass over the
    heap. *)
Lemma spin_rings_spun a :
  NoDup (rings a) →
  st_exec (forEach_of (rings a) spin_ring) a
  = rg_with_scene (set_objects (rings_spun a) (rg_scene a)) a.
Proof.
  intros Hnd. rewrite spin_rings_exec. unfold rings_spun.
  by rewrite (foldl_alter_imap _ (rings a)) by done.
Qed.

(** *** The tick *)

Lemma animate_rings_final a :
  NoDup (rings a) →
  final (animate_rings a)
  = rg_with_renderer
      (final (render (rg_scene (animate_rings_state a)) (rg_camera a)
                     (rg_renderer a)))
      (animate_rings_state a).
Proof.
  intros Hnd. unfold animate_rings, render_call_rings.
  by rewrite final_Outcome_map, (spin_rings_spun (rg_with_raf _ a)).
Qed.

Lemma animate_rings_thrown a :
  thrown (animate_rings a)
  = if context_lost (rg_renderer a) then Some TickFailure else None.
Proof.
  unfold animate_rings, render_call_rings, render.
  rewrite thrown_Outcome_map, spin_rings_exec.
  cbn [rg_renderer rg_with_scene rg_with_raf].
  by destruct (context_lost (rg_renderer a)).
Qed.

(** What a tick leaves alone, whatever the array holds. *)
Lemma animate_rings_fields a :
  rings (final (animate_rings a)) = rings a
  ∧ userData (final (animate_rings a)) = userData a
  ∧ rg_camera (final (animate_rings a)) = rg_camera a
  ∧ rg_raf (final (animate_rings a)) = S (rg_raf a).
Proof.
  unfold animate_rings, render_call_rings.
  by rewrite final_Outcome_map, spin_rings_exec.
Qed.

Lemma animate_rings_renderer a :
  rg_renderer (final (animate_rings a))
  = final (render (rg_scene (final (animate_rings a))) (rg_camera a)
                  (rg_renderer a)).
Proof.
  unfold animate_rings, render_call_rings.
  by rewrite final_Outcome_map, spin_rings_exec.
Qed.

(** A ring of the array is turned by its speed; an object the array does
    not refer to is left as it is. *)
Lemma animate_rings_rotation a id cfg :
  NoDup (rings a) → id ∈ rings a → ring_at id cfg a →
  rotation_of id (rg_scene (final (animate_rings a)))
  = ring_step (speed cfg) <$> rotation_of id (rg_scene a).
Proof.
  intros Hnd Hid (_ & Hsp & _). rewrite animate_rings_final by done.
  unfold rotation_of. cbn [rg_scene rg_with_renderer animate_rings_state
    set_objects objects].
  rewrite rings_spun_lookup, bool_decide_true by done.
  unfold speed_of. rewrite Hsp. by destruct (objects (rg_scene a) !! id).
Qed.

Lemma animate_rings_other a j :
  NoDup (rings a) → j ∉ rings a →
  objects (rg_scene (final (animate_rings a))) !! j
  = objects (rg_scene a) !! j.
Proof.
  intros Hnd Hj. rewrite animate_rings_final by done.
  cbn [rg_scene rg_with_renderer animate_rings_state set_objects objects].
  rewrite rings_spun_lookup, bool_decide_false by done.
  by destruct (objects (rg_scene a) !! j).
Qed.

(** *** Construction *)

Lemma setup_rings_ok env :
  webgl env = true → setup_rings env = inr (rings_app0 env).
Proof. intros Hgl. unfold setup_rings, WebGLRenderer. by rewrite Hgl. Qed.

Lemma setup_rings_error env :
  webgl env = false → setup_rings env = inl ConstructionError.
Proof. intros Hgl. unfold setup_rings, WebGLRenderer. by rewrite Hgl. Qed.
(** *** Typing *)

Lemma rings_app0_typed env : rings_typed (rings_app0 env).
Proof.
  split.
  - split.
    + apply Forall_forall. intros j Hj%(elem_of_seq 0 6). simpl. lia.
    + apply (NoDup_seq 0 6).
    + done.
    + repeat constructor.
  - repeat constructor.
  - apply NoDup_seq.
Qed.
(** The typing depends on the kinds of the objects, on [userData] and
    on the two lists of references. *)
Lemma rings_typed_kinds a a' :
  (∀ j, kind <$> objects (rg_scene a') !! j
        = kind <$> objects (rg_scene a) !! j) →
  textures (rg_scene a') = textures (rg_scene a) →
  children (rg_scene a') = children (rg_scene a) →
  background (rg_scene a') = background (rg_scene a) →
  userData a' = userData a → rings a' = rings a →
  rings_typed a → rings_typed a'.
Proof.
  intros Hk Ht Hc Hb Hu Hr [Hs Hrs Hnd]. split.
  - by apply (store_wf_kinds (rg_scene a)).
  - rewrite Hr. eapply Forall2_impl; [exact Hrs|].
    intros id cfg (Hid & Hsp & Hin). unfold ring_at. by rewrite Hk, Hu, Hc.
  - by rewrite Hr.
Qed.

Lemma rings_typed_raf n a : rings_typed a → rings_typed (rg_with_raf n a).
Proof. by apply rings_typed_kinds. Qed.

Lemma rings_typed_renderer r a :
  rings_typed a → rings_typed (rg_with_renderer r a).
Proof. by apply rings_typed_kinds. Qed.

(** A tick keeps the references typed. *)
Lemma animate_rings_typed a :
  rings_typed a → rings_typed (final (animate_rings a)).
Proof.
  intros Ha. rewrite animate_rings_final by apply Ha.
  apply (rings_typed_kinds a); try done. apply rings_spun_kind.
Qed.
End lemmas.

(** ** The program *)

Section program.
Context {R : Type} `{Number R}.
Implicit Types (env : Env R) (a : RingsApp R).

(** The loop of [animate] over [rings] and the render call, against the
    reference definition. *)
Lemma animate_rings_unfolded a :
  NoDup (rings a) → animate_rings a = animate_rings_result a.
Proof.
  intros Hnd. unfold animate_rings, animate_rings_result, render_call_rings,
    render.
  rewrite (spin_rings_spun (rg_with_raf _ a)) by done.
  cbn [rg_with_raf rg_scene rg_camera rg_renderer rg_with_scene].
  by destruct (context_lost (rg_renderer a)).
Qed.


(** C34: The two operations of the variant against their reference
    definitions.  [animate]: the source turns the rings in a loop over
    the array [rings], through references into the scene and with the
    speed read from each ring; when the array names no ring twice, the
    call as a whole is: one more callback registered, every object of the
    heap that the array refers to turned by [(speed, speed * 0.6, 0)] and
    every other object untouched, then the frame of that state appended to
    the log, or [TickFailure] thrown with that state in place when the
    graphics context is lost.  Construction, on both branches: without a
    graphics context the renderer's constructor throws
    [ConstructionError] before anything is built; with one, the effect
    leaves the camera at depth 40, the four rings of [ringsConfig]
    followed by the ambient and the point light as the six children of
    the scene, the array [rings] naming the four rings in the order of the
    table, and on each ring the speed of its entry. *)
Theorem rings_operations_spec env a :
  (NoDup (rings a) → animate_rings a = animate_rings_result a)
  ∧ setup_rings env
    = if webgl env then inr (rings_app0 env) else inl ConstructionError.
Proof.
  split; [apply animate_rings_unfolded|].
  destruct (webgl env) eqn:Hgl;
    [by apply setup_rings_ok | by apply setup_rings_error].
Qed.
End program.

#[global] Opaque animate_rings.
