(* ===== verification/RingsLoop.v ===== *)
(** * The multi-ring variant on the page

    The variant of [Rings] under the events of [Loop].  Its effect
    registers one callback with [requestAnimationFrame] and nothing else:
    no scroll handler is bound, no texture is loaded, and, like the live
    component, it returns no cleanup function.  A display refresh runs the
    pending callback; every other event but the loss of the graphics
    context leaves the variant as it is. *)

From stdpp Require Import gmap strings.
From S2P Require Import Prelude Number Vector Scene Camera Render App.
From S2P Require Import Scroll Animate Loop Rings.

Record RingsWorld (R : Type) : Type := mkRingsWorld {
  rg_app : RingsApp R;
  rg_reported : list Error;
}.
Arguments mkRingsWorld {R}.
Arguments rg_app {R}.
Arguments rg_reported {R}.

Section loop.
Context {R : Type} `{Number R}.
Implicit Types (env : Env R) (a : RingsApp R) (w : RingsWorld R) (e : Event R).

(** The world a finished effect leaves. *)
Definition rings_world_of (o : Outcome (RingsApp R)) : RingsWorld R :=
  mkRingsWorld (final o) (option_list (thrown o)).

(** One pending callback runs; what it throws is reported to the host. *)
Definition run_callback_rings w : RingsWorld R :=
  let o := animate_rings (rg_app w) in
  mkRingsWorld (final o) (rg_reported w ++ option_list (thrown o)).

(** A display refresh runs the callbacks that are pending; those they
    register are for the next refresh. *)
Definition on_frame_rings w : RingsWorld R :=
  Nat.iter (rg_raf (rg_app w)) run_callback_rings
           (mkRingsWorld (rg_with_raf 0 (rg_app w)) (rg_reported w)).

Definition on_context_lost_rings w : RingsWorld R :=
  mkRingsWorld
    (rg_with_renderer (lose_context (rg_renderer (rg_app w))) (rg_app w))
    (rg_reported w).

(** The variant has no handler for a scroll event, no texture whose load
    could end, and no cleanup to run at unmount. *)
Definition step_rings e w : RingsWorld R :=
  match e with
  | EvFrame => on_frame_rings w
  | EvContextLost => on_context_lost_rings w
  | EvScroll _ | EvTexture _ _ | EvUnmount => w
  end.

Definition run_rings (es : list (Event R)) w : RingsWorld R :=
  foldl (λ w e, step_rings e w) w es.

(** The world the effect leaves on a host with a graphics context. *)
Definition rings_app1 env : RingsApp R :=
  final (animate_rings (rings_app0 env)).

Definition rings_world0 env : RingsWorld R := mkRingsWorld (rings_app1 env) [].

(** The invariant of the variant's worlds: the references are typed, the
    array [rings] is the one construction left, one callback is
    pending. *)
Record rings_inv w : Prop := {
  ri_typed : rings_typed (rg_app w);
  ri_rings : rings (rg_app w) = seq 0 4;
  ri_raf : rg_raf (rg_app w) = 1;
}.

(** The display refreshes accounted for: the frames rendered and the
    exceptions handed to the host. *)
Definition rings_tally w : nat :=
  length (frames (rg_renderer (rg_app w))) + length (rg_reported w).

(** The rotation of the ring the [i]-th entry of the array refers to. *)
Definition ring_rotation (i : nat) w : option (Vector3 R) :=
  rings (rg_app w) !! i ≫= λ id, rotation_of id (rg_scene (rg_app w)).

End loop.

(** ** Lemmas *)

Section lemmas.
Context {R : Type} `{Number R}.
Implicit Types (env : Env R) (a : RingsApp R) (w : RingsWorld R) (e : Event R).
Implicit Types (es : list (Event R)) (cfg : RingConfig R).

Lemma mount_rings_ok env :
  webgl env = true → mount_rings env = inr (Done (rings_app1 env)).
Proof.
  intros Hgl. unfold mount_rings, rings_app1.
  rewrite (setup_rings_ok env Hgl).
  rewrite (Outcome_done (animate_rings (rings_app0 env))) at 1; [done|].
  by rewrite animate_rings_thrown.
Qed.

Lemma mount_rings_error env :
  webgl env = false → mount_rings env = inl ConstructionError.
Proof. intros Hgl. unfold mount_rings. by rewrite (setup_rings_error env Hgl). Qed.

Lemma mount_rings_world env o :
  mount_rings env = inr o → rings_world_of o = rings_world0 env.
Proof.
  destruct (webgl env) eqn:Hgl.
  - rewrite (mount_rings_ok env Hgl). by intros [= <-].
  - by rewrite (mount_rings_error env Hgl).
Qed.

(** *** The invariant *)

Lemma rings_inv_world0 env : rings_inv (rings_world0 env).
Proof.
  destruct (animate_rings_fields (rings_app0 env)) as (Hr & _ & _ & Hraf).
  split; [|done|done]. apply animate_rings_typed, rings_app0_typed.
Qed.

(** With one callback pending, a display refresh is one call of
    [animate]. *)
Lemma on_frame_rings_one w :
  rg_raf (rg_app w) = 1 →
  on_frame_rings w
  = run_callback_rings
      (mkRingsWorld (rg_with_raf 0 (rg_app w)) (rg_reported w)).
Proof. intros Hr. unfold on_frame_rings. by rewrite Hr. Qed.

Lemma rings_inv_step e w : rings_inv w → rings_inv (step_rings e w).
Proof.
  intros [Ht Hr Hraf]. destruct e; try done.
  - simpl. rewrite on_frame_rings_one by done.
    destruct (animate_rings_fields (rg_with_raf 0 (rg_app w)))
      as (Hr' & _ & _ & Hraf').
    split; [|by rewrite <- Hr|done].
    by apply (animate_rings_typed (rg_with_raf 0 (rg_app w))),
      rings_typed_raf.
  - split; [by apply rings_typed_renderer | done | done].
Qed.

Lemma rings_inv_run env es : rings_inv (run_rings es (rings_world0 env)).
Proof.
  apply (foldl_invariant step_rings rings_inv rings_inv_step).
  apply rings_inv_world0.
Qed.

(** The reference the [i]-th entry of the array holds, and its type. *)
Lemma rings_inv_lookup w i cfg :
  rings_inv w → ringsConfig !! i = Some cfg →
  rings (rg_app w) !! i = Some i ∧ ring_at i cfg (rg_app w).
Proof.
  intros [Ht Hr _] Hcfg.
  destruct (Forall2_lookup_r _ _ _ _ _ (rt_rings _ Ht) Hcfg) as (id & Hid & Hat).
  rewrite Hr in Hid. apply lookup_seq in Hid as [-> _].
  split; [|done]. rewrite Hr. apply lookup_seq. split; [done|].
  by apply lookup_lt_Some in Hcfg.
Qed.

(** *** One event and one ring *)

Lemma ring_rotation_step e w i cfg :
  rings_inv w → ringsConfig !! i = Some cfg →
  ring_rotation i (step_rings e w)
  = (if is_frame e then ring_step (speed cfg) else id) <$> ring_rotation i w.
Proof.
  intros Hw Hcfg. destruct (rings_inv_lookup w i cfg Hw Hcfg) as [Hi Hat].
  destruct (rings_inv_lookup _ i cfg (rings_inv_step e w Hw) Hcfg) as [Hi' _].
  unfold ring_rotation. rewrite Hi, Hi'. simpl.
  destruct e; simpl; rewrite ?option_fmap_id; try done.
  rewrite on_frame_rings_one by apply Hw.
  apply (animate_rings_rotation (rg_with_raf 0 (rg_app w)) i cfg);
    [apply Hw | by eapply list_elem_of_lookup_2 | done].
Qed.

Lemma ring_rotation_world0 env i cfg :
  ringsConfig !! i = Some cfg →
  ring_rotation i (rings_world0 env) = Some (ring_step (speed cfg) vzero).
Proof.
  intros Hcfg.
  destruct (rings_inv_lookup _ i cfg (rings_inv_world0 env) Hcfg) as [Hi _].
  unfold ring_rotation. rewrite Hi.
  change (rotation_of i (rg_scene (final (animate_rings (rings_app0 env))))
          = Some (ring_step (speed cfg) vzero)).
  assert (ring_at i cfg (rings_app0 env) ∧ i ∈ seq 0 4) as [Hat Hin].
  { unfold ringsConfig in Hcfg.
    repeat (destruct i as [|i]; [injection Hcfg as <-; repeat constructor|]).
    done. }
  rewrite (animate_rings_rotation (rings_app0 env) i cfg)
    by (done || apply (NoDup_seq 0 4)).
  unfold ringsConfig in Hcfg.
  repeat (destruct i as [|i]; [by injection Hcfg as <-|]). done.
Qed.

Lemma ring_rotation_run env es i cfg :
  ringsConfig !! i = Some cfg →
  ring_rotation i (run_rings es (rings_world0 env))
  = Some (Nat.iter (S (count is_frame es)) (ring_step (speed cfg)) vzero).
Proof.
  intros Hcfg. unfold run_rings, count.
  rewrite (counted_foldl step_rings rings_inv rings_inv_step (ring_rotation i)
             is_frame (ring_step (speed cfg)))
    by (apply rings_inv_world0 || intros; by apply ring_rotation_step).
  rewrite (ring_rotation_world0 env i cfg Hcfg). simpl.
  by rewrite <- Nat.iter_succ_r.
Qed.

(** *** Frames and failures *)

Lemma rings_tally_world0 env : rings_tally (rings_world0 env) = 1.
Proof.
  unfold rings_tally, rings_world0, rings_app1; cbn [rg_app rg_reported].
  by rewrite animate_rings_renderer, render_frames.
Qed.

Lemma rings_tally_step e w :
  rings_inv w →
  rings_tally (step_rings e w)
  = (if is_frame e then S else id) (rings_tally w).
Proof.
  intros Hw. unfold rings_tally. destruct e; try done.
  simpl. rewrite on_frame_rings_one by apply Hw.
  unfold run_callback_rings; cbn [rg_app rg_reported].
  rewrite animate_rings_renderer, render_frames, animate_rings_thrown.
  cbn [rg_renderer rg_with_raf].
  destruct (context_lost (rg_renderer (rg_app w)));
    rewrite !length_app; simpl; lia.
Qed.

(** After [n] display refreshes the frames rendered and the exceptions
    reported are [n + 1] together. *)
Lemma rings_tally_run env es :
  rings_tally (run_rings es (rings_world0 env)) = S (count is_frame es).
Proof.
  assert (Some (rings_tally (run_rings es (rings_world0 env)))
          = Nat.iter (count is_frame es) S
              <$> Some (rings_tally (rings_world0 env))) as Hc.
  { apply (counted_foldl step_rings rings_inv rings_inv_step
             (λ w, Some (rings_tally w)) is_frame S);
      [|apply rings_inv_world0].
    intros e w Hw. rewrite rings_tally_step by done. by destruct (is_frame e). }
  rewrite rings_tally_world0 in Hc. injection Hc as ->.
  induction (count is_frame es) as [|n IH]; simpl; [done | by rewrite IH].
Qed.
End lemmas.

(** ** The program *)

Section program.
Context {R : Type} `{Number R}.
Implicit Types (env : Env R) (w : RingsWorld R) (e : Event R).
Implicit Types (es : list (Event R)) (cfg : RingConfig R).

(** C32: The references of the variant stay typed.  After the effect
    and any sequence of host events, the array [rings] is the one
    construction left and names no ring twice; each of its entries refers
    to a torus mesh of the heap that was built from the entry of
    [ringsConfig] at the same index, is a child of the scene and carries
    that entry's speed in its [userData]; the scene's children and material
    maps are valid references; and one callback is pending.  So the loop
    of [animate] never reads an [undefined] speed, never writes through a
    dangling reference, and never stops. *)
Theorem rings_typed_reachable env o es :
  mount_rings env = inr o → rings_inv (run_rings es (rings_world_of o)).
Proof. intros ->%mount_rings_world. apply rings_inv_run. Qed.

(** C33: Every ring of the variant turns once per tick, by its own
    speed.  After the effect and any sequence of host events, the ring
    built from the [i]-th entry of [ringsConfig] has been turned by
    [(speed, speed * 0.6, 0)] once for the effect's own call of [animate]
    and once per display refresh; scrolling, a lost graphics context and
    unmounting change nothing of it. *)
Theorem rings_turned_once_per_frame env o es i cfg :
  mount_rings env = inr o → ringsConfig !! i = Some cfg →
  ring_rotation i (run_rings es (rings_world_of o))
  = Some (Nat.iter (S (count is_frame es)) (ring_step (speed cfg)) vzero).
Proof. intros ->%mount_rings_world. apply ring_rotation_run. Qed.
End program.
