(* ===== verification/Component.v ===== *)
(** * The component function and React's hooks

    [App] (lines 9-139 of [src/src/App.jsx]) is a function React calls:
    it asks for a ref ([useRef(null)], line 10), hands React an effect with
    an empty dependency array ([useEffect(..., [])], lines 12-117) and
    returns the markup with the ref on the canvas (lines 119-138).  The
    multi-ring variant (lines 148-216) is a component of the same shape
    around its own effect and its own markup.

    React's part is modelled from its documented behaviour.  The hooks of
    a mounted component are cells in the order of the calls; a render
    runs the function from the first cell; [useRef] makes its cell at
    the first render and finds it again at every later one; [useEffect]
    schedules its function at the first render and afterwards only when
    the dependencies differ from those of the render before.  The commit
    that follows a render puts the element in the ref, then runs the
    scheduled effects.  An unmount drops the cells; the effects of these
    components returned no cleanup function for it to call.

    An element is named by its position in the markup, in document order.
    The effect reads [canvasRef.current] when it runs (line 22); the
    renderer's constructor throws when it is handed no canvas.

    What React needs to know of a component is the interface
    [MountsOnce]: the first render makes a ref cell and an effect cell
    and schedules the effect, a later render changes nothing, and the
    markup carries the ref.  Against it the run of a component under
    React is computed once ([react_run_outside]): the effect runs for
    every render of a component that is not mounted and never for a
    re-render.  Both components implement the interface.  For the live
    one the result is the page of [Lifecycle]. *)

From stdpp Require Import gmap strings.
From S2P Require Import Prelude Number Vector Scene Camera Render App.
From S2P Require Import Scroll Animate Loop Frames Lifecycle Markup.
From S2P Require Import Rings RingsLoop.

#[local] Set Warnings "-register-all".

(** A dependency array; [None] is no array at all. *)
Definition Deps : Type := option (list Z).

Inductive Cell : Type :=
| RefCell (current : option nat)
| EffectCell (deps : Deps).

(** What an effect does when React runs it: it reads the cells (the refs)
    and the host, and works on what lies outside React ([P], the page). *)
Definition Effect (R P : Type) : Type := list Cell → Env R → P → P.

Record Hooks (R P : Type) : Type := mkHooks {
  cells : list Cell;
  cursor : nat;
  scheduled : list (Effect R P);
}.
Arguments mkHooks {R P}.
Arguments cells {R P}.
Arguments cursor {R P}.
Arguments scheduled {R P}.

(** A function component: its result is the markup and the ref its
    [ref] attribute names. *)
Definition FC (R P : Type) : Type := ST (Hooks R P) (Node * nat).

(** The component under React: its cells when it is mounted, and the
    page its effects have worked on. *)
Record React (P : Type) : Type := mkReact {
  fiber : option (list Cell);
  page : P;
}.
Arguments mkReact {P}.
Arguments fiber {P}.
Arguments page {P}.

(** What happens to a component: React renders it or unmounts it, and
    the host does to the page what it does without React ([E]). *)
Inductive ReactEvent (E : Type) : Type :=
| ReRender
| ReUnmount
| ReHost (e : E).
Arguments ReRender {E}.
Arguments ReUnmount {E}.
Arguments ReHost {E}.

(** The events of the host on the page of the live component. *)
Inductive HostEvent (R : Type) : Type :=
| HScroll (t : R)
| HFrame.
Arguments HScroll {R}.
Arguments HFrame {R}.

(** What the page outside React sees: the effect run for a mount, or an
    event of the host. *)
Inductive Outside (E : Type) : Type :=
| OMount
| OHost (e : E).
Arguments OMount {E}.
Arguments OHost {E}.

Definition is_OMount {E} (o : Outside E) : bool :=
  match o with OMount => true | OHost _ => false end.

(** Dependencies are compared element by element; without an array the
    effect runs after every render. *)
Definition deps_changed (old new : Deps) : bool :=
  match old, new with
  | Some o, Some n => negb (bool_decide (o = n))
  | _, _ => true
  end.

Definition ref_current (ref : nat) (cs : list Cell) : option nat :=
  match cs !! ref with
  | Some (RefCell current) => current
  | _ => None
  end.

(** The commit puts the element that carries the [ref] attribute in the
    ref. *)
Definition attach_ref (tree : Node) (ref : nat) (cs : list Cell) : list Cell :=
  match list_find (λ n, has_ref n = true) (elements tree) with
  | Some (i, _) => <[ref := RefCell (Some i)]> cs
  | None => cs
  end.

(** The cells of a mounted component of the two hooks: the ref holds
    the element [target], and the effect's dependencies are the empty
    array. *)
Definition cells_mounted (target : nat) : list Cell :=
  [RefCell (Some target); EffectCell (Some [])].

Definition fiber_of (target : nat) (mounted : bool) : option (list Cell) :=
  if mounted then Some (cells_mounted target) else None.

Section react.
Context {R P E : Type}.
Implicit Types (env : Env R) (h : Hooks R P) (p : P) (rp : React P).
Implicit Types (cs : list Cell) (C : FC R P) (host : Env R → E → P → P).
Implicit Types (es : list (ReactEvent E)).

(** ** The hooks *)

(** [useRef(initialValue)]: the ref object is the cell. *)
Definition useRef (initialValue : option nat) : ST (Hooks R P) nat :=
  λ h,
    let i := cursor h in
    match cells h !! i with
    | Some _ => (i, mkHooks (cells h) (S i) (scheduled h))
    | None =>
        (i, mkHooks (cells h ++ [RefCell initialValue]) (S i) (scheduled h))
    end.

(** [useEffect(f, deps)] *)
Definition useEffect (f : Effect R P) (deps : Deps) : ST (Hooks R P) unit :=
  λ h,
    let i := cursor h in
    match cells h !! i with
    | Some (EffectCell old) =>
        if deps_changed old deps
        then (tt, mkHooks (<[i := EffectCell deps]> (cells h)) (S i)
                          (scheduled h ++ [f]))
        else (tt, mkHooks (cells h) (S i) (scheduled h))
    | _ =>
        (tt, mkHooks (cells h ++ [EffectCell deps]) (S i)
                     (scheduled h ++ [f]))
    end.

(** ** React *)

(** A render and its commit. *)
Definition react_render C env rp : React P :=
  let '((tree, ref), h) := C (mkHooks (default [] (fiber rp)) 0 []) in
  let cs := attach_ref tree ref (cells h) in
  mkReact (Some cs) (foldl (λ p f, f cs env p) (page rp) (scheduled h)).

(** The unmount: no cleanup function was returned, so the page stays. *)
Definition react_unmount rp : React P := mkReact None (page rp).

Definition react_step C host env (e : ReactEvent E) rp : React P :=
  match e with
  | ReRender => react_render C env rp
  | ReUnmount => react_unmount rp
  | ReHost e => mkReact (fiber rp) (host env e (page rp))
  end.

Definition react_run C host env es rp : React P :=
  foldl (λ rp e, react_step C host env e rp) rp es.

(** ** What the page sees *)

Definition outside_step (effect : nat → Effect R P) (target : nat) host env
    (o : Outside E) p : P :=
  match o with
  | OMount => effect 0 (cells_mounted target) env p
  | OHost e => host env e p
  end.

(** What a sequence of React's events amounts to outside React, for a
    component that is mounted or not: a render of a component that is
    not mounted is a mount, a re-render and an unmount are nothing. *)
Fixpoint outside_events (mounted : bool) es : list (Outside E) :=
  match es with
  | [] => []
  | ReRender :: es' =>
      if mounted then outside_events true es'
      else OMount :: outside_events true es'
  | ReUnmount :: es' => outside_events false es'
  | ReHost e :: es' => OHost e :: outside_events mounted es'
  end.

(** Whether the component is mounted after a sequence of events. *)
Definition mounted_after (mounted : bool) es : bool :=
  foldl (λ m e, match e with
                | ReRender => true
                | ReUnmount => false
                | ReHost _ => m
                end) mounted es.

(** The interface: a component of one ref and one effect with the empty
    dependency array, whose markup carries the ref on the element
    [target]. *)
Class MountsOnce C (effect : nat → Effect R P) (tree : Node) (target : nat) :
    Prop := {
  render_first :
    C (mkHooks [] 0 [])
    = ((tree, 0), mkHooks [RefCell None; EffectCell (Some [])] 2 [effect 0]);
  render_again :
    C (mkHooks (cells_mounted target) 0 [])
    = ((tree, 0), mkHooks (cells_mounted target) 2 []);
  ref_target cs : attach_ref tree 0 cs = <[0 := RefCell (Some target)]> cs;
}.

End react.

Section components.
Context {R : Type} `{Number R}.
Implicit Types (env : Env R).

(** ** The two components *)

(** Line 22: the canvas the renderer is constructed on is what the ref
    holds; the constructor throws without one. *)
Definition env_with_canvas (canvas : option nat) env : Env R :=
  mkEnv (innerWidth env) (innerHeight env) (devicePixelRatio env)
        (webgl env && bool_decide (is_Some canvas))
        (random env) (spread env) (controls_update env).

(** Lines 12-117, the function passed to [useEffect]: the effect of
    [Loop], run on the page, with the canvas read from the ref. *)
Definition App_effect (canvasRef : nat) : Effect R (Page R) :=
  λ cs env p, page_mount (env_with_canvas (ref_current canvasRef cs) env) p.

(** Lines 9-139. *)
Definition App_function : FC R (Page R) :=
  canvasRef ← useRef None;
  useEffect (App_effect canvasRef) (Some []);;
  mret (App_markup, canvasRef).

(** The host on the page of the live component. *)
Definition page_host env (e : HostEvent R) (p : Page R) : Page R :=
  match e with
  | HScroll t => page_scroll t p
  | HFrame => page_frame env p
  end.

Definition react0 : React (Page R) := mkReact None page0.

(** The events of the page of [Lifecycle] a sequence of React's events
    amounts to, for a component that has been mounted [n] times. *)
Fixpoint page_events (mounted : bool) (n : nat)
    (es : list (ReactEvent (HostEvent R))) : list (PageEvent R) :=
  match es with
  | [] => []
  | ReRender :: es' =>
      if mounted then page_events true n es'
      else PgMount :: page_events true (S n) es'
  | ReUnmount :: es' =>
      if mounted then PgUnmount (n - 1) :: page_events false n es'
      else page_events false n es'
  | ReHost (HScroll t) :: es' => PgScroll t :: page_events mounted n es'
  | ReHost HFrame :: es' => PgFrame :: page_events mounted n es'
  end.

(** Lines 151-211, the function the variant passes to [useEffect]: its
    effect adds an instance to the page, or throws and adds none. *)
Definition Rings_effect (canvasRef : nat) : Effect R (list (RingsWorld R)) :=
  λ cs env p,
    match mount_rings (env_with_canvas (ref_current canvasRef cs) env) with
    | inl _ => p
    | inr o => p ++ [rings_world_of o]
    end.

(** Lines 148-216. *)
Definition Rings_function : FC R (list (RingsWorld R)) :=
  canvasRef ← useRef None;
  useEffect (Rings_effect canvasRef) (Some []);;
  mret (Rings_markup, canvasRef).

(** The host on the page of the variant: an event reaches every
    instance. *)
Definition rings_host env (e : Event R) (p : list (RingsWorld R)) :
    list (RingsWorld R) :=
  step_rings e <$> p.

End components.

(** ** Lemmas: any component of the interface *)

Section interface.
Context {R P E : Type} (C : FC R P) (effect : nat → Effect R P).
Context (tree : Node) (target : nat) `{!MountsOnce C effect tree target}.
Context (host : Env R → E → P → P).
Implicit Types (env : Env R) (p : P) (es : list (ReactEvent E)).

(** The render that mounts the component runs the effect, once, with
    the element in the ref. *)
Lemma react_render_mount env p :
  react_render C env (mkReact None p)
  = mkReact (Some (cells_mounted target))
            (effect 0 (cells_mounted target) env p).
Proof.
  unfold react_render. cbn [fiber default page]. rewrite render_first.
  cbv beta iota. cbn [cells scheduled foldl]. by rewrite ref_target.
Qed.

(** A re-render runs no effect. *)
Lemma react_render_again env p :
  react_render C env (mkReact (Some (cells_mounted target)) p)
  = mkReact (Some (cells_mounted target)) p.
Proof.
  unfold react_render.
  change (default [] (fiber (mkReact (Some (cells_mounted target)) p)))
    with (cells_mounted target).
  rewrite render_again. cbv beta iota. cbn [cells scheduled foldl].
  by rewrite ref_target.
Qed.

Lemma react_step_outside env (e : ReactEvent E) mounted p :
  react_step C host env e (mkReact (fiber_of target mounted) p)
  = mkReact (fiber_of target (mounted_after mounted [e]))
            (foldl (λ p o, outside_step effect target host env o p) p
                   (outside_events mounted [e])).
Proof.
  destruct e, mounted; simpl;
    rewrite ?react_render_mount, ?react_render_again; done.
Qed.

(** The run of the component under React: the effect for every mount,
    the host's events as they come. *)
Lemma react_run_outside env es : ∀ mounted p,
  react_run C host env es (mkReact (fiber_of target mounted) p)
  = mkReact (fiber_of target (mounted_after mounted es))
            (foldl (λ p o, outside_step effect target host env o p) p
                   (outside_events mounted es)).
Proof.
  induction es as [|e es IH]; intros mounted p; [done|].
  change (react_run C host env (e :: es) ?rp)
    with (react_run C host env es (react_step C host env e rp)).
  rewrite (react_step_outside env e mounted p).
  destruct e, mounted; first [exact (IH true _) | exact (IH false _)].
Qed.

(** While the component stays mounted the effect does not run. *)
Lemma outside_events_mounted es :
  Forall (λ e, e ≠ ReUnmount) es →
  OMount ∉ outside_events true es.
Proof.
  induction 1 as [|e es He _ IH]; [apply not_elem_of_nil|].
  destruct e; simpl; [done | done |].
  apply not_elem_of_cons. by split.
Qed.
End interface.

(** ** Lemmas: the two components *)

Section lemmas.
Context {R : Type} `{Number R}.
Implicit Types (env : Env R) (p : Page R).
Implicit Types (es : list (ReactEvent (HostEvent R))).

#[export] Instance App_mounts_once :
  MountsOnce (R:=R) App_function App_effect App_markup 1.
Proof. by split. Qed.

#[export] Instance Rings_mounts_once :
  MountsOnce (R:=R) Rings_function Rings_effect Rings_markup 0.
Proof. by split. Qed.

(** The element the ref of the live component holds is the canvas. *)
Lemma ref_target_canvas : elements App_markup !! 1 = Some canvas.
Proof. reflexivity. Qed.

(** With the canvas in hand the construction depends on the host
    alone. *)
Lemma env_with_canvas_Some i env : env_with_canvas (Some i) env = env.
Proof.
  unfold env_with_canvas.
  rewrite bool_decide_true, andb_true_r by done. by destruct env.
Qed.

Lemma env_with_canvas_None env : webgl (env_with_canvas None env) = false.
Proof. simpl. by destruct (webgl env). Qed.

Lemma App_effect_mounted env p :
  App_effect 0 (cells_mounted 1) env p = page_mount env p.
Proof.
  unfold App_effect. change (ref_current 0 _) with (Some 1).
  by rewrite env_with_canvas_Some.
Qed.

Lemma Rings_effect_mounted env (ws : list (RingsWorld R)) :
  webgl env = true →
  Rings_effect 0 (cells_mounted 0) env ws = ws ++ [rings_world0 env].
Proof.
  intros Hgl. unfold Rings_effect. change (ref_current 0 _) with (Some 0).
  by rewrite env_with_canvas_Some, (mount_rings_ok env Hgl).
Qed.

(** What the page of the live component sees is a run of the page of
    [Lifecycle]. *)
Lemma page_events_outside env es : ∀ mounted n p,
  page_run env (page_events mounted n es) p
  = foldl (λ p o, outside_step App_effect 1 page_host env o p) p
          (outside_events mounted es).
Proof.
  induction es as [|e es IH]; intros mounted n p; [done|].
  destruct e as [| |[t|]], mounted; simpl; rewrite ?App_effect_mounted;
    apply IH.
Qed.

Lemma react_run_react0 env es :
  react_run App_function page_host env es react0
  = mkReact (fiber_of 1 (mounted_after false es))
            (page_run env (page_events false 0 es) page0).
Proof.
  rewrite page_events_outside.
  apply (react_run_outside App_function App_effect App_markup 1 page_host
           env es false page0).
Qed.

(** While the component stays mounted no event is a mount. *)
Lemma mounts_page_events n es :
  Forall (λ e, e ≠ ReUnmount) es → mounts (page_events true n es) = 0.
Proof.
  unfold mounts. induction 1 as [|e es He _ IH]; [done|].
  destruct e as [| |[t|]]; simpl; [done|done|..]; by rewrite filter_cons_False.
Qed.

(** However often the component is rendered again, scrolled and
    refreshed, the scene is built once. *)
Lemma rerenders_build_nothing env es :
  webgl env = true → Forall (λ e, e ≠ ReUnmount) es →
  length (instances (page (react_run App_function page_host env
                                     (ReRender :: es) react0))) = 1.
Proof.
  intros Hgl Hes. rewrite react_run_react0. cbn [page].
  rewrite instances_run by done.
  change (page_events false 0 (ReRender :: es))
    with (PgMount :: page_events true 1 es).
  unfold mounts. rewrite filter_cons_True by done. simpl. f_equal.
  apply (mounts_page_events 1 es Hes).
Qed.

(** Under strict mode React mounts, unmounts and mounts again: two
    scenes are built, and both loops run. *)
Lemma strict_mode_two_loops env :
  webgl env = true →
  let p := page (react_run App_function page_host env
                           [ReRender; ReUnmount; ReRender] react0) in
  length (instances p) = 2 ∧ Forall running (instances p).
Proof.
  intros Hgl p. unfold p. rewrite react_run_react0. cbn [page].
  split; [by rewrite instances_run|].
  eapply Forall_impl; [apply (page_inv_run env _ Hgl)|].
  intros w [Hi _]. unfold running. rewrite (inv_raf _ Hi). lia.
Qed.

(** *** The variant *)

Lemma rings_outside_step env (o : Outside (Event R))
    (ws : list (RingsWorld R)) :
  webgl env = true → Forall rings_inv ws →
  Forall rings_inv (outside_step Rings_effect 0 rings_host env o ws)
  ∧ length (outside_step Rings_effect 0 rings_host env o ws)
    = length ws + (if is_OMount o then 1 else 0).
Proof.
  intros Hgl Hp. destruct o as [|e]; simpl.
  - rewrite Rings_effect_mounted by done. split.
    + apply Forall_app. split; [done|].
      apply Forall_singleton, rings_inv_world0.
    + by rewrite length_app.
  - unfold rings_host. rewrite length_fmap, Nat.add_0_r. split; [|done].
    apply Forall_fmap. eapply Forall_impl; [exact Hp|].
    intros w Hw. by apply rings_inv_step.
Qed.

Lemma rings_outside_run env (os : list (Outside (Event R))) :
  webgl env = true →
  let ws := foldl (λ ws o, outside_step Rings_effect 0 rings_host env o ws)
                  [] os in
  Forall rings_inv ws
  ∧ length ws = length (filter (λ o, is_OMount o = true) os).
Proof.
  intros Hgl. induction os as [|o os [IH1 IH2]] using rev_ind; [done|].
  cbn zeta. rewrite foldl_snoc, filter_app, length_app.
  destruct (rings_outside_step env o _ Hgl IH1) as [Hi ->].
  split; [done|]. rewrite IH2. f_equal.
  destruct o; [by rewrite filter_cons_True | by rewrite filter_cons_False].
Qed.

(** The variant under React: there is an instance for every render of
    a component that was not mounted, and every instance is in order
    with its loop running, unmounted or not. *)
Lemma rings_react_run env (es : list (ReactEvent (Event R))) :
  webgl env = true →
  let ws := page (react_run Rings_function rings_host env es
                            (mkReact None [])) in
  Forall rings_inv ws
  ∧ length ws
    = length (filter (λ o, is_OMount o = true) (outside_events false es)).
Proof.
  intros Hgl.
  rewrite (react_run_outside Rings_function Rings_effect Rings_markup 0
             rings_host env es false []).
  by apply rings_outside_run.
Qed.
End lemmas.

(** ** The component under React *)

Section program.
Context {R : Type} `{Number R}.
Implicit Types (env : Env R) (es : list (ReactEvent (HostEvent R))).

(** C16: React runs the effect once for every mount and never for a
    re-render, and always on the canvas.  After any sequence of renders,
    unmounts, scroll events and display refreshes, the page is the one
    [Lifecycle] describes for the events [page_events] makes of the
    sequence (a render of a component that is not mounted is a mount, a
    re-render is nothing), and the cells of a mounted component are the
    ref holding the canvas and the empty dependency array.  The
    construction is [mount] on the host as it is: the effect never finds
    the ref empty. *)
Theorem react_runs_effect_once_per_mount env es :
  react_run App_function page_host env es react0
  = mkReact (fiber_of 1 (mounted_after false es))
            (page_run env (page_events false 0 es) page0).
Proof. apply react_run_react0. Qed.
End program.
