(* ===== verification/Exact.v ===== *)
(** * Exact arithmetic

    What the handlers compute when numbers are exact ([ExactNumber], in
    particular the rationals): the closed forms the specification states
    ("after T ticks the rotation equals T * (0.01, 0.005, 0.01)",
    "cameraZ = baseZ + scrollTop * k"), the same for the rings of the
    multi-ring variant, the direction in which the camera moves when the
    page is scrolled down, and the bounds of the star field.

    The bounds are stated against two promises about the environment,
    written as classes: [UnitRandom] ([Math.random()] returns a number of
    [[0, 1)]) and [ThreeJsSpread] ([randFloatSpread(range)] is
    [range * (0.5 - Math.random())], its definition in three.js). *)

From Stdlib Require Import Lqa.
From S2P Require Import Prelude Number Vector Scene Camera Render App.
From S2P Require Import Scroll Animate Loop Construction Rings RingsLoop.

(** [THREE.MathUtils.randFloatSpread], the formula. *)
Definition spread_threejs (range u : Q) : Q := range * (0.5 - u).

(** The promises about the environment. *)
Class UnitRandom (env : Env Q) : Prop :=
  random_unit : ∀ n, (0 <= random env n)%Q ∧ (random env n < 1)%Q.

Class ThreeJsSpread (env : Env Q) : Prop :=
  spread_formula : ∀ range u, (spread env range u == spread_threejs range u)%Q.

(** A coordinate of a star: in the interval [(-50, 50]]. *)
Definition in_spread (x : Q) : Prop := (-50 < x)%Q ∧ (x <= 50)%Q.

Definition in_cube (v : Vector3 Q) : Prop :=
  in_spread (vx v) ∧ in_spread (vy v) ∧ in_spread (vz v).

(** The specification's formulas: the rotation [n] ticks add up to, the
    rotations [n] scroll events add up to, and the depth of an offset. *)
Definition ticks_rotation {R} `{Number R} (n : nat) : Vector3 R :=
  vscale_lit n 0.01 0.005 0.01.

Definition moon_scrolls_rotation {R} `{Number R} (n : nat) : Vector3 R :=
  vscale_lit n 0.05 0.075 0.05.

Definition jeff_scrolls_rotation {R} `{Number R} (n : nat) : Vector3 R :=
  vscale_lit n 0 0.01 0.01.

Definition depth_at {R} `{Number R} (q : Q) : R := lit (30 - q * 0.01).

(** The rotation [n] ticks give a ring of speed [v] in the multi-ring
    variant: [n * (v, v * 0.6, 0)]. *)
Definition ring_turns {R} `{Number R} (n : nat) (v : R) : Vector3 R :=
  let k := lit (inject_Z (Z.of_nat n)) in
  mkVector3 (k ⊗ v) (k ⊗ (v ⊗ lit 0.6)) (lit 0).

(** ** Closed forms *)

Section exact.
Context {R : Type} `{ExactNumber R}.
Implicit Types (env : Env R) (es : list (Event R)) (o : Outcome (App R)).

Add Ring exact_number_ring_closed :
  exact_ring (setoid exact_equivalence exact_ring_eq_ext).

Lemma torus_steps_closed n :
  Nat.iter n torus_step (vzero (R:=R)) ≡ vscale_lit n 0.01 0.005 0.01.
Proof.
  unfold torus_step. rewrite iter_add_xyz_closed. apply vadd_vzero_l.
Qed.

Lemma moon_steps_closed n :
  Nat.iter n moon_step (vzero (R:=R)) ≡ vscale_lit n 0.05 0.075 0.05.
Proof.
  unfold moon_step. rewrite iter_add_xyz_closed. apply vadd_vzero_l.
Qed.

Lemma jeff_steps_closed n :
  Nat.iter n jeff_step (vzero (R:=R)) ≡ vscale_lit n 0 0.01 0.01.
Proof.
  unfold jeff_step. rewrite iter_add_yz_closed. apply vadd_vzero_l.
Qed.

(** The depth formula on a literal offset, the sign of the slope
    resolved. *)
Lemma scrollToCameraZ_lit (q : Q) :
  scrollToCameraZ (lit q) ≡@{R} lit (30 - q * 0.01).
Proof.
  unfold scrollToCameraZ, Qminus. rewrite lit_add, lit_neg, lit_mul. ring.
Qed.

Lemma ring_steps_closed n (v : R) :
  Nat.iter n (ring_step v) vzero ≡ ring_turns n v.
Proof.
  unfold ring_step. rewrite iter_add_xy.
  repeat split; simpl; rewrite ?add_times_scaled; ring.
Qed.

(** C38: In exact arithmetic the rotations of the program have closed
    forms.  After the effect and [n] display refreshes the torus's
    rotation is [(n + 1) * (0.01, 0.005, 0.01)], componentwise and
    exactly, whatever other events are interleaved.  After [n] scroll
    events the moon's rotation is [n * (0.05, 0.075, 0.05)] and the jeff
    box's [n * (0, 0.01, 0.01)]: their angle is a function of the number
    of scroll events, not of the scroll offset and not of time. *)
Theorem rotations_closed_form env o es :
  mount env = inr o →
  ∃ v vm vj,
    torus_rotation (app (run env es (world_of o))) = Some v
    ∧ moon_rotation (app (run env es (world_of o))) = Some vm
    ∧ jeffBox_rotation (app (run env es (world_of o))) = Some vj
    ∧ v ≡ ticks_rotation (S (count is_frame es))
    ∧ vm ≡ moon_scrolls_rotation (count is_scroll es)
    ∧ vj ≡ jeff_scrolls_rotation (count is_scroll es).
Proof.
  intros ->%mount_world.
  destruct (decor_rotation_world0 env es) as [Hm Hj].
  eexists _, _, _.
  split_and!; [apply torus_rotation_world0 | exact Hm | exact Hj | ..].
  - apply torus_steps_closed.
  - apply moon_steps_closed.
  - apply jeff_steps_closed.
Qed.

(** In exact arithmetic a ring of the variant has, after the
    effect and [n] display refreshes, the rotation
    [(n + 1) * (speed, speed * 0.6, 0)] for the speed of its entry in
    [ringsConfig]: the rings turn about two axes only, each at a rate of
    its own, and the outer rings turn slower. *)
Theorem ring_rotation_closed_form env (o : Outcome (RingsApp R)) es i cfg :
  mount_rings env = inr o → ringsConfig !! i = Some cfg →
  ∃ v, ring_rotation i (run_rings es (rings_world_of o)) = Some v
       ∧ v ≡ ring_turns (S (count is_frame es)) (speed cfg).
Proof.
  intros ->%mount_rings_world Hcfg. eexists.
  split; [by apply ring_rotation_run|]. apply ring_steps_closed.
Qed.

End exact.

(** ** The direction of the scroll *)

Section direction.
Context (env : Env Q).
Implicit Types (es : list (Event Q)) (o : Outcome (App Q)).

(** The depth of an offset falls with the offset, and is 30 at the top
    of the page. *)
Lemma scrollToCameraZ_antitone (t t' : Q) :
  (t' <= t)%Q → (scrollToCameraZ t <= scrollToCameraZ t')%Q.
Proof. unfold scrollToCameraZ. simpl. lra. Qed.

Lemma scrollToCameraZ_top (t : Q) : (t <= 0)%Q → (30 <= scrollToCameraZ t)%Q.
Proof. unfold scrollToCameraZ. simpl. lra. Qed.

(** C37: Scrolling down moves the camera back.  The offset the handler
    reads is the top of the page's body, which is 0 at the top of the
    page and falls as the user scrolls down.  The camera, which starts at
    [z = 30], is therefore never at a smaller depth than at mount, and
    the further the page is scrolled the greater its distance along the
    z axis from the torus, which stays at [z = -20], and from the jeff
    box, which stays at [z = -5]. *)
Theorem scroll_down_moves_camera_back o es es' (t t' : Q) :
  orbit_disjoint (controls_update env) → mount env = inr o →
  last_scroll es = Some t → last_scroll es' = Some t' →
  (t' <= t)%Q → (t <= 0)%Q →
  (30 <= depth (app (run env es (world_of o))))%Q
  ∧ (depth (app (run env es (world_of o)))
     <= depth (app (run env es' (world_of o))))%Q
  ∧ position_of 0 (scene (app (run env es' (world_of o))))
    = Some (mkVector3 0 0 (-20))%Q
  ∧ position_of 203 (scene (app (run env es' (world_of o))))
    = Some (mkVector3 2 0 (-5))%Q.
Proof.
  intros Hd ->%mount_world Ht Ht' Hle H0.
  rewrite !depth_world0, Ht, Ht', !position_of_run by done. simpl.
  split_and!; [by apply scrollToCameraZ_top | by apply scrollToCameraZ_antitone
              | done | ].
  unfold position_of. by rewrite (scene0_tail env 0).
Qed.
End direction.

(** ** The bounds of the star field *)

Section bounds.
Context (env : Env Q) `{!UnitRandom env} `{!ThreeJsSpread env}.
Implicit Types (es : list (Event Q)) (o : Outcome (App Q)).

(** For a positive range and a random number of [[0, 1)] the spread lies
    in [(-range/2, range/2]]: the upper end is attained, the lower is
    not. *)
Lemma spread_threejs_bounds (range u : Q) :
  (0 < range)%Q → (0 <= u)%Q → (u < 1)%Q →
  (- (range * 0.5) < spread_threejs range u)%Q
  ∧ (spread_threejs range u <= range * 0.5)%Q.
Proof.
  intros Hr H0 H1. unfold spread_threejs.
  assert (range * (0.5 - u) <= range * 0.5)%Q as Hle
    by (apply Qmult_le_l; [done | lra]).
  assert (range * - 0.5 < range * (0.5 - u))%Q as Hlt
    by (apply Qmult_lt_l; [done | lra]).
  split; lra.
Qed.

Lemma spread_in_spread d : in_spread (spread env (lit 100) (random env d)).
Proof.
  destruct (random_unit d) as [H0 H1]. unfold in_spread.
  rewrite spread_formula.
  destruct (spread_threejs_bounds 100 (random env d)) as [Hlo Hhi];
    [done..|].
  simpl lit. split; lra.
Qed.

Lemma star_in_cube d : in_cube (position (star env d)).
Proof. split_and!; apply spread_in_spread. Qed.

(** When [Math.random()] returns 0 as the first number drawn for a
    star, the star's x coordinate is exactly 50. *)
Lemma star_x_of_zero d :
  (random env d == 0)%Q →
  (vx (position (star env d)) == 50)%Q
  ∧ ¬ (vx (position (star env d)) < 50)%Q.
Proof.
  intros Hr.
  assert (vx (position (star env d)) == 50)%Q as Hx.
  { simpl. rewrite spread_formula. unfold spread_threejs. rewrite Hr.
    reflexivity. }
  split; [done|]. rewrite Hx. apply Qlt_irrefl.
Qed.

(** C39: Under the two promises about the environment, every star is
    inside the cube of side 100 centred at the origin, in every world that
    follows the effect: each of its coordinates [c] satisfies
    [-50 < c <= 50].  The cube is closed above and open below: when
    [Math.random()] returns 0 as the first of the three numbers drawn for
    the star, its x coordinate is exactly 50.  The interval of a
    coordinate is [(-50, 50]], not [[-50, 50)]. *)
Theorem stars_within_cube o es i :
  mount env = inr o → i < 200 →
  ∃ v, position_of (star_id i) (scene (app (run env es (world_of o)))) = Some v
       ∧ in_cube v
       ∧ ((random env (3 * i) == 0)%Q → (vx v == 50)%Q ∧ ¬ (vx v < 50)%Q).
Proof.
  intros ->%mount_world Hi. exists (position (star env (3 * i))).
  unfold position_of. rewrite star_lookup_run by done.
  split_and!; [done | apply star_in_cube | apply star_x_of_zero].
Qed.
End bounds.
