(* ===== verification/Orbit.v ===== *)
(** * The orbit controller and the track of the camera

    [new OrbitControls(camera, renderer.domElement)] (line 47) hands the
    camera to a controller of three.js, and every tick calls
    [controls.update()] (line 112).  Two drivers therefore write the one
    camera: the scroll handler assigns [position.z] (line 99) and the
    controller moves the camera about its target, the origin.

    The first part projects the program onto the camera: [camera_track]
    keeps only the number of updates and the camera and follows the
    events, and the program's camera is this track after every run,
    whatever the controller does.

    The second part gives the controller its gestures, from the
    documentation of three.js: a drag turns the camera about the vertical
    axis through the target ([turn_theta], the turn given by its cosine
    and sine, which keeps it among the rationals), a wheel step scales the
    distance to the target ([dolly]).  Panning and damping, which move the
    target and need a state of the controller's own, and the orientation
    [lookAt] writes, are not modelled.  What is shown: the gestures keep
    or scale the squared distance to the target; a turn is undone by the
    opposite turn; a controller that never hears of a gesture keeps the
    two promises the other files assume of it, and a drag that reaches
    it breaks both, so that the depth of the camera is no longer the
    image of the scroll offset.  Whatever the controller does, a scroll
    event has the last word on the depth. *)

From Stdlib Require Import Lqa.
From S2P Require Import Prelude Number Vector Scene Camera Render App.
From S2P Require Import Scroll Animate Loop Interleave.

(** ** The track of the camera *)

Section track.
Context {R : Type} `{Number R}.
Implicit Types (env : Env R) (es : list (Event R)) (w : World R).

(** [camera.position.z = 30 + t * -0.01] (line 99). *)
Definition track_scroll (t : R) (kc : nat * Camera R) : nat * Camera R :=
  (kc.1, on_cam_position (set_z (scrollToCameraZ t)) kc.2).

(** [controls.update()] (line 112), the controller's next update. *)
Definition track_update env (kc : nat * Camera R) : nat * Camera R :=
  (S kc.1, controls_update env kc.1 kc.2).

(** What one event does to the number of updates and to the camera: a
    scroll assigns the depth, a frame hands the camera to the controller,
    nothing else writes it. *)
Definition track_step env (kc : nat * Camera R) (e : Event R) :
    nat * Camera R :=
  match e with
  | EvScroll t => track_scroll t kc
  | EvFrame => track_update env kc
  | _ => kc
  end.

Definition camera_track env es (kc : nat * Camera R) : nat * Camera R :=
  foldl (track_step env) kc es.

(** The rig as the effect leaves it: one update made, by the first tick. *)
Definition rig1 env : nat * Camera R :=
  (1, controls_update env 0 (camera0 env)).

Definition rig_of w : nat * Camera R := (updates (app w), camera (app w)).

End track.

(** ** The gestures *)

Inductive Gesture : Type :=
| Idle
| RotateLeft (c s : Q)
| Dolly (f : Q).

(** The squared distance of a position to the target, the origin. *)
Definition radius2 (v : Vector3 Q) : Q :=
  (vx v * vx v + vy v * vy v + vz v * vz v)%Q.

(** [c] and [s] are the cosine and the sine of an angle. *)
Definition is_turn (c s : Q) : Prop := (c * c + s * s == 1)%Q.

(** The azimuth [atan2(x, z)] grows by the angle: [x] and [z] turn, the
    height stays. *)
Definition turn_theta (c s : Q) (v : Vector3 Q) : Vector3 Q :=
  mkVector3 (c * vx v + s * vz v)%Q (vy v) (c * vz v - s * vx v)%Q.

(** The distance to the target is multiplied by [f]. *)
Definition dolly (f : Q) (v : Vector3 Q) : Vector3 Q :=
  mkVector3 (f * vx v)%Q (f * vy v)%Q (f * vz v)%Q.

(** What a gesture does to the position of the camera. *)
Definition apply_gesture (g : Gesture) (v : Vector3 Q) : Vector3 Q :=
  match g with
  | Idle => v
  | RotateLeft c s => turn_theta c s v
  | Dolly f => dolly f v
  end.

(** [controls.update()] when the gesture since the last update was
    [input k]. *)
Definition orbit_update (input : nat → Gesture) : nat → Camera Q → Camera Q :=
  λ k cam,
    match input k with
    | Idle => cam
    | RotateLeft c s => on_cam_position (turn_theta c s) cam
    | Dolly f => on_cam_position (dolly f) cam
    end.

(** A gesture that keeps the distance to the target: none, or a drag. *)
Definition is_drag (g : Gesture) : Prop :=
  match g with
  | Idle => True
  | RotateLeft c s => is_turn c s
  | Dolly _ => False
  end.

(** Two positions with equal coordinates. *)
Definition same_place (v w : Vector3 Q) : Prop :=
  (vx v == vx w)%Q ∧ (vy v == vy w)%Q ∧ (vz v == vz w)%Q.

(** ** Lemmas: the track *)

Section track_lemmas.
Context {R : Type} `{Number R}.
Implicit Types (env : Env R) (es : list (Event R)) (w : World R).

Lemma rig_scroll env t w :
  inv (app w) → rig_of (step env (EvScroll t) w)
                = track_step env (rig_of w) (EvScroll t).
Proof.
  intros Hinv. unfold rig_of. simpl.
  rewrite on_scroll_bound by apply Hinv. by rewrite moveCamera_camera.
Qed.

Lemma rig_frame env w :
  inv (app w) → rig_of (step env EvFrame w) = track_step env (rig_of w) EvFrame.
Proof.
  intros Hinv. unfold rig_of. simpl. rewrite app_on_frame by done.
  by rewrite animate_updates, animate_camera.
Qed.

Lemma rig_step env e w :
  inv (app w) → rig_of (step env e w) = track_step env (rig_of w) e.
Proof.
  destruct e; [apply rig_scroll | apply rig_frame | done | done | done].
Qed.

Lemma rig_run env es w :
  inv (app w) → rig_of (run env es w) = camera_track env es (rig_of w).
Proof.
  intros Hinv. induction es as [|e es IH] using rev_ind; [done|].
  destruct (run_snoc_inv env es e w Hinv) as (-> & Hi & _).
  unfold camera_track. by rewrite foldl_snoc, rig_step, IH.
Qed.

(** The scroll handler has the last word on the depth, whatever the
    controller did before. *)
Lemma scroll_wins env es t w :
  inv (app w) →
  depth (app (run env (es ++ [EvScroll t]) w)) = scrollToCameraZ t.
Proof.
  intros Hinv. destruct (run_snoc_inv env es (EvScroll t) w Hinv) as (-> & Hi & _).
  pose proof (rig_scroll env t _ Hi) as Hr. apply (f_equal snd) in Hr.
  unfold depth. unfold rig_of in Hr. cbn [snd] in Hr. by rewrite Hr.
Qed.

Lemma rig_world0 env : rig_of (world0 env) = rig1 env.
Proof.
  unfold rig_of, rig1, world0, app1. simpl.
  by rewrite animate_updates, animate_camera.
Qed.

(** C20: The camera is written by the scroll handler and by the orbit
    controller and by nothing else.  After any run from a mounted page,
    the number of updates the controller has made and the camera are
    those of the track: from the camera of line 14 at [z = 30], updated
    once by the first tick, every scroll event assigns the depth of its
    offset and every frame hands the camera to the controller's next
    update; a lost context, a settled texture and an unmount leave both
    alone.  No assumption is made on the controller. *)
Theorem camera_follows_track env o es :
  mount env = inr o →
  rig_of (run env es (world_of o)) = camera_track env es (rig1 env).
Proof.
  intros ->%mount_world. rewrite rig_run by apply inv_app1.
  by rewrite rig_world0.
Qed.

End track_lemmas.

(** ** Lemmas: the gestures *)

Section gestures.
Implicit Types (c s f : Q) (v : Vector3 Q) (input : nat → Gesture).

#[local] Open Scope Q_scope.

(** A turn keeps the height and the distance to the target. *)
Lemma turn_theta_radius c s v :
  is_turn c s → radius2 (turn_theta c s v) == radius2 v.
Proof.
  unfold is_turn. intros Ht. unfold radius2, turn_theta. simpl.
  transitivity ((c * c + s * s) * (vx v * vx v + vz v * vz v) + vy v * vy v);
    [ring|]. rewrite Ht. ring.
Qed.

(** A wheel step scales it. *)
Lemma dolly_radius f v : radius2 (dolly f v) == f * f * radius2 v.
Proof. unfold radius2, dolly. simpl. ring. Qed.

(** The opposite drag is a turn as well, and undoes the drag. *)
Lemma is_turn_opp c s : is_turn c s → is_turn c (- s).
Proof. unfold is_turn. intros Ht. rewrite <- Ht. ring. Qed.

Lemma turn_theta_back c s v :
  is_turn c s → same_place (turn_theta c (- s) (turn_theta c s v)) v.
Proof.
  unfold is_turn. intros Ht.
  unfold same_place, turn_theta. simpl. split_and!; [|done|].
  - transitivity ((c * c + s * s) * vx v); [ring|]. rewrite Ht. ring.
  - transitivity ((c * c + s * s) * vz v); [ring|]. rewrite Ht. ring.
Qed.

(** The cosine of a turn lies between -1 and 1. *)
Lemma is_turn_cos c s : is_turn c s → -1 <= c ∧ c <= 1.
Proof. unfold is_turn. intros Ht. split; nra. Qed.

Lemma cam_position_orbit_update input k cam :
  cam_position (orbit_update input k cam)
  = apply_gesture (input k) (cam_position cam).
Proof. unfold orbit_update. by destruct (input k). Qed.

Lemma orbit_update_radius input k cam :
  is_drag (input k) →
  radius2 (cam_position (orbit_update input k cam))
  == radius2 (cam_position cam).
Proof.
  unfold orbit_update. destruct (input k); simpl; [done| |done].
  apply turn_theta_radius.
Qed.

(** Without a gesture the controller keeps both promises: it leaves the
    depth and the lens alone, and commutes with the scroll driver. *)
Lemma orbit_update_idle input :
  (∀ k, input k = Idle) →
  orbit_disjoint (orbit_update input) ∧ orbit_commutes (orbit_update input).
Proof.
  intros Hi. split; intros k; unfold orbit_update; by rewrite Hi.
Qed.

(** A drag by a proper angle moves the camera at [(0, 0, 1)] off its
    depth, before and after the depth was assigned. *)
Lemma orbit_update_turn input k c s :
  input k = RotateLeft c s → ¬ c == 1 →
  ¬ orbit_disjoint (orbit_update input) ∧ ¬ orbit_commutes (orbit_update input).
Proof.
  intros Hi Hc. pose (cam := mkCamera 0 0 0 0 (mkVector3 0 0 1) vzero).
  split; intros Hd; apply Hc.
  - destruct (Hd k cam) as [Hz _]. unfold orbit_update in Hz.
    rewrite Hi in Hz. simpl in Hz.
    assert (c * 1 - s * 0 == 1) as Hq by (by rewrite Hz). lra.
  - pose proof (f_equal (λ x, vz (cam_position x)) (Hd k 1 cam)) as Hz.
    unfold orbit_update in Hz. rewrite Hi in Hz. simpl in Hz.
    assert (c * 1 - s * 0 == 1) as Hq by (by rewrite Hz). lra.
Qed.

End gestures.

(** ** The page under a drag *)

Section page.
Context (env : Env Q) (input : nat → Gesture).
Hypothesis controls_orbit : controls_update env = orbit_update input.
Implicit Types (o : Outcome (App Q)) (c s t : Q).

#[local] Open Scope Q_scope.

(** The camera after the page was scrolled to [t] and a frame followed,
    when no gesture was made before the mount's tick and the gesture [g]
    before the frame. *)
Lemma gestured_camera o g t :
  mount env = inr o → input 0%nat = Idle → input 1%nat = g →
  cam_position (camera (app (run env [EvScroll t; EvFrame] (world_of o))))
  = apply_gesture g (mkVector3 0 0 (scrollToCameraZ t)).
Proof.
  intros ->%mount_world H0 H1.
  pose proof (rig_run env [EvScroll t; EvFrame] (world0 env) (inv_app1 env))
    as Hr.
  rewrite rig_world0 in Hr. apply (f_equal snd) in Hr.
  unfold rig_of in Hr. cbn [snd] in Hr. rewrite Hr.
  unfold camera_track, rig1.
  cbn [foldl track_step track_scroll track_update fst snd].
  rewrite controls_orbit, cam_position_orbit_update, H1.
  unfold orbit_update. by rewrite H0.
Qed.

(** A wheel step that reaches the controller scales the depth the scroll
    handler assigned. *)
Lemma wheel_scales_depth o f t :
  mount env = inr o → input 0%nat = Idle → input 1%nat = Dolly f →
  depth (app (run env [EvScroll t; EvFrame] (world_of o)))
  == f * scrollToCameraZ t.
Proof.
  intros Hm H0 H1. unfold depth.
  by rewrite (gestured_camera o (Dolly f) t Hm H0 H1).
Qed.

(** While the page is not scrolled, drags keep the camera on the sphere
    of radius 30 about the origin on which line 20 puts it. *)
Theorem drags_keep_distance o es :
  mount env = inr o → (∀ k, is_drag (input k)) → last_scroll es = None →
  radius2 (cam_position (camera (app (run env es (world_of o))))) == 900.
Proof.
  intros ->%mount_world Hg.
  pose proof (rig_run env es (world0 env) (inv_app1 env)) as Hr.
  rewrite rig_world0 in Hr. apply (f_equal snd) in Hr.
  unfold rig_of in Hr. cbn [snd] in Hr. rewrite Hr. clear Hr.
  unfold camera_track, rig1.
  induction es as [|e es IH] using rev_ind; intros Hs.
  - simpl. by rewrite controls_orbit, orbit_update_radius.
  - rewrite last_scroll_snoc in Hs. rewrite foldl_snoc.
    destruct e; try done; simpl; [|by apply IH..].
    rewrite controls_orbit in IH |- *.
    rewrite orbit_update_radius by done. by apply IH.
Qed.


End page.
