(* ===== verification/Process.v ===== *)
(** * The page as a process

    The handlers of [Loop] are run by the browser's event loop, which has
    no end of its own: the page returns to the host after the effect and
    after every handler, and the host hands it the next event.  This
    file writes that loop as an interaction tree.  Its visible events are
    what the page and the host exchange: the page waits for the next event
    ([Await]), its canvas shows a frame ([Present], the render call of
    line 113) and an exception a callback did not catch reaches the host
    ([Report]).

    The loop is written once, against an interface: [Handlers] is what a
    component gives the host (the reaction to an event, the frames it has
    rendered and the exceptions it has thrown so far, and the condition
    its worlds satisfy between two handlers), [HandlersGrow] the promise
    that a handler keeps that condition and only appends to the two
    logs.  Three components implement it: the program of lines 9-141
    ([program]), the multi-ring variant of lines 143-218 ([variant]), and
    the document in which the component is mounted several times on the
    one canvas ([document], from [Lifecycle]).

    [host] is a browser with a finite queue of events, a canvas and a
    console.  What is shown, for every implementation: run by such a
    host, the loop ends in the world the fold of the handlers computes,
    the canvas has shown the frames of that world and the console its
    exceptions, in their order; the worlds in which the loop can be left
    are exactly those folds; and run by [busy_host], a browser that has
    another event whenever the page waits for one, the loop does not
    return.  [page] is the effect of the program followed by its
    loop. *)

From ITree Require Import ITree ITreeFacts Events.State Events.StateFacts.
From ITree Require Import Props.Leaf.
From S2P Require Import Prelude Number Vector Scene Camera Render App.
From S2P Require Import Scroll Animate Loop Frames Lifecycle Rings RingsLoop.

Import LeafNotations.

(** ** The interface *)

(** What a component gives the host: worlds [W], events [E], frames [F]. *)
Record Handlers (W E F : Type) : Type := mkHandlers {
  handle : E → W → W;
  shown_frames : W → list F;
  thrown_errors : W → list Error;
  between : W → Prop;
}.
Arguments mkHandlers {W E F}.
Arguments handle {W E F}.
Arguments shown_frames {W E F}.
Arguments thrown_errors {W E F}.
Arguments between {W E F}.

(** What it promises: a handler leaves a world as it should be between
    two handlers, and only appends to the logs. *)
Class HandlersGrow {W E F : Type} (hs : Handlers W E F) : Prop := {
  between_handle e w : between hs w → between hs (handle hs e w);
  frames_grow e w :
    between hs w →
    shown_frames hs w `prefix_of` shown_frames hs (handle hs e w);
  errors_grow e w :
    between hs w →
    thrown_errors hs w `prefix_of` thrown_errors hs (handle hs e w);
}.

(** The handlers of a list of events, one after the other. *)
Definition handle_all {W E F} (hs : Handlers W E F) (es : list E) (w : W) : W :=
  foldl (λ w e, handle hs e w) w es.

(** ** The loop *)

(** What the page and the host exchange.  [Await] is answered by the next
    event, or by nothing when the document is closed. *)
Inductive hostE (E F : Type) : Type → Type :=
| Await : hostE E F (option E)
| Present (f : F) : hostE E F unit
| Report (err : Error) : hostE E F unit.
Arguments Await {E F}.
Arguments Present {E F}.
Arguments Report {E F}.

(** A browser: the events it will deliver, what its canvas has shown and
    what its console holds. *)
Record Host (E F : Type) : Type := mkHost {
  queue : list E;
  canvas_log : list F;
  console : list Error;
}.
Arguments mkHost {E F}.
Arguments queue {E F}.
Arguments canvas_log {E F}.
Arguments console {E F}.

Section loop.
Context {W E F : Type} (hs : Handlers W E F).

(** One visible event for each element of a list, in order. *)
Definition each {A} (ev : A → hostE E F unit) (l : list A) :
    itree (hostE E F) unit :=
  foldr (λ x t, ITree.bind (ITree.trigger (ev x)) (λ _, t)) (Ret tt) l.

(** What a log gained. *)
Definition gained {A} (old new : list A) : list A := drop (length old) new.

(** What the host sees of the change from [w] to [w']: the frames the
    canvas was given, then the exceptions. *)
Definition shows (w w' : W) : itree (hostE E F) unit :=
  ITree.bind (each Present (gained (shown_frames hs w) (shown_frames hs w')))
    (λ _, each Report (gained (thrown_errors hs w) (thrown_errors hs w'))).

(** One turn of the event loop: the page waits, the handler of the event
    runs to its end, the host sees what it did. *)
Definition turn (w : W) : itree (hostE E F) (W + W) :=
  ITree.bind (ITree.trigger Await) (λ oe,
    match oe with
    | Some e => ITree.bind (shows w (handle hs e w))
                           (λ _, Ret (inl (handle hs e w)))
    | None => Ret (inr w)
    end).

Definition event_loop (w : W) : itree (hostE E F) W := ITree.iter turn w.

Definition host : hostE E F ~> Monads.stateT (Host E F) (itree void1) :=
  λ _ ev h,
    match ev with
    | Await =>
        match queue h with
        | [] => Ret (h, None)
        | e :: q => Ret (mkHost q (canvas_log h) (console h), Some e)
        end
    | Present f => Ret (mkHost (queue h) (canvas_log h ++ [f]) (console h), tt)
    | Report err => Ret (mkHost (queue h) (canvas_log h) (console h ++ [err]), tt)
    end.

(** A browser that never closes the document: it answers the [n]-th wait
    with the event [next n], and lets frames and exceptions pass. *)
Definition busy_host (next : nat → E) :
    hostE E F ~> Monads.stateT nat (itree void1) :=
  λ _ ev n,
    match ev with
    | Await => Ret (S n, Some (next n))
    | Present _ => Ret (n, tt)
    | Report _ => Ret (n, tt)
    end.

(** The host that has seen all of a world. *)
Definition host_of (es : list E) (w : W) : Host E F :=
  mkHost es (shown_frames hs w) (thrown_errors hs w).

End loop.

(** ** The implementations *)

Section implementations.
Context {R : Type} `{Number R}.
Implicit Types (env : Env R).

(** The program: the reactions of [Loop], the frame log of the renderer
    and the exceptions handed to the host. *)
Definition program env : Handlers (World R) (Event R) (Frame R) :=
  mkHandlers (step env) frames_of reported (λ w, inv (app w)).

(** The multi-ring variant. *)
Definition variant : Handlers (RingsWorld R) (Event R) (Frame R) :=
  mkHandlers step_rings (λ w, frames (rg_renderer (rg_app w))) rg_reported
             rings_inv.

(** The document with its one canvas, on which the component may be
    mounted more than once. *)
Definition document env : Handlers (Page R) (PageEvent R) (Frame R) :=
  mkHandlers (page_step env) drawn (λ _, []) (λ _, True).

(** The page: the effect, then the loop.  When the constructor of the
    renderer throws, nothing was registered and the page is over. *)
Definition page env : itree (hostE (Event R) (Frame R)) (Error + World R) :=
  match mount env with
  | inl err => ITree.bind (ITree.trigger (Report err)) (λ _, Ret (inl err))
  | inr o =>
      ITree.bind (each Present (frames_of (world_of o))) (λ _,
      ITree.bind (each Report (reported (world_of o))) (λ _,
      ITree.bind (event_loop (program env) (world_of o)) (λ w, Ret (inr w))))
  end.

End implementations.

(** ** Lemmas: any implementation *)

Section loop_lemmas.
Context {W E F : Type} (hs : Handlers W E F) `{!HandlersGrow hs}.
Implicit Types (w : W) (e : E) (es : list E) (h : Host E F).

Lemma gained_prefix {A} (old new : list A) :
  old `prefix_of` new → old ++ gained old new = new.
Proof. intros [k ->]. unfold gained. by rewrite drop_app_length. Qed.

Lemma handle_all_snoc es e w :
  handle_all hs (es ++ [e]) w = handle hs e (handle_all hs es w).
Proof. unfold handle_all. by rewrite foldl_snoc. Qed.

(** *** The host's view *)

Lemma host_presents (fs : list F) h :
  interp_state host (each Present fs) h
  ≈ Ret (mkHost (queue h) (canvas_log h ++ fs) (console h), tt).
Proof.
  revert h. induction fs as [|f fs IH]; intros [q c l]; simpl.
  - rewrite interp_state_ret. by rewrite app_nil_r.
  - rewrite interp_state_bind, interp_state_trigger. cbn.
    rewrite bind_ret_l. cbn. rewrite IH. cbn. by rewrite <- app_assoc.
Qed.

Lemma host_reports (errs : list Error) h :
  interp_state host (each Report errs) h
  ≈ Ret (mkHost (queue h) (canvas_log h) (console h ++ errs), tt).
Proof.
  revert h. induction errs as [|err errs IH]; intros [q c l]; simpl.
  - rewrite interp_state_ret. by rewrite app_nil_r.
  - rewrite interp_state_bind, interp_state_trigger. cbn.
    rewrite bind_ret_l. cbn. rewrite IH. cbn. by rewrite <- app_assoc.
Qed.

Lemma host_shows es w w' :
  shown_frames hs w `prefix_of` shown_frames hs w' →
  thrown_errors hs w `prefix_of` thrown_errors hs w' →
  interp_state host (shows hs w w') (host_of hs es w)
  ≈ Ret (host_of hs es w', tt).
Proof.
  intros Hf Hr. unfold shows, host_of.
  rewrite interp_state_bind, host_presents, bind_ret_l. cbn.
  rewrite host_reports. cbn. by rewrite !gained_prefix.
Qed.

(** Run by a host that delivers [es] and then closes the document, the
    loop ends in the world the handlers of [es] lead to, and the host has
    seen all of that world. *)
Lemma host_event_loop es w :
  between hs w →
  interp_state host (event_loop hs w) (host_of hs es w)
  ≈ Ret (host_of hs [] (handle_all hs es w), handle_all hs es w).
Proof.
  revert w. induction es as [|e es IH]; intros w Hi; unfold event_loop.
  - rewrite unfold_iter. unfold turn. rewrite bind_bind.
    rewrite interp_state_bind, interp_state_trigger. cbn.
    rewrite !bind_ret_l. cbn. rewrite bind_ret_l, interp_state_ret.
    reflexivity.
  - rewrite unfold_iter. unfold turn at 1. rewrite bind_bind.
    rewrite interp_state_bind, interp_state_trigger. cbn.
    rewrite !bind_ret_l. cbn. rewrite bind_bind, interp_state_bind.
    change (mkHost es _ _) with (host_of hs es w).
    rewrite host_shows, !bind_ret_l
      by (by apply frames_grow || by apply errors_grow). cbn.
    rewrite interp_state_tau, tau_eutt.
    fold (event_loop hs (handle hs e w)).
    rewrite IH by (by apply between_handle). reflexivity.
Qed.

(** *** The leaves of the loop *)

Lemma each_leaf {A} (ev : A → hostE E F unit) (l : list A) : tt ∈ each ev l.
Proof.
  induction l as [|x l IH]; simpl; [apply Leaf_Ret|].
  eapply Leaf_bind; [|exact IH]. apply (Leaf_Vis _ _ _ _ _ _ tt), Leaf_Ret.
Qed.

(** A turn ends the loop with the world it began with, or goes on with
    the world one event leads to. *)
Lemma turn_leaves w (r : W + W) :
  r ∈ turn hs w ↔ r = inr w ∨ ∃ e, r = inl (handle hs e w).
Proof.
  unfold turn. split.
  - intros ([e|] & _ & Hr)%Leaf_bind_inv.
    + apply Leaf_bind_inv in Hr as (_ & _ & ->%Leaf_Ret_inv). eauto.
    + apply Leaf_Ret_inv in Hr as ->. by left.
  - intros [->|[e ->]].
    + eapply Leaf_bind; [apply (Leaf_Vis _ _ _ _ _ _ None), Leaf_Ret|].
      apply Leaf_Ret.
    + eapply Leaf_bind; [apply (Leaf_Vis _ _ _ _ _ _ (Some e)), Leaf_Ret|].
      eapply Leaf_bind; [|apply Leaf_Ret].
      unfold shows. eapply Leaf_bind; apply each_leaf.
Qed.

(** The loop can be left exactly in the worlds some list of events leads
    to. *)
Lemma event_loop_leaves w w' :
  w' ∈ event_loop hs w ↔ ∃ es, w' = handle_all hs es w.
Proof.
  split.
  - apply (Leaf_iter_inv (turn hs) w (λ i, ∃ es, i = handle_all hs es w)
                         (λ r, ∃ es, r = handle_all hs es w)); [|by exists []].
    intros i r [es ->] [->|[e ->]]%turn_leaves; simpl; [by exists es|].
    exists (es ++ [e]). by rewrite handle_all_snoc.
  - intros [es ->]. revert w. induction es as [|e es IH]; intros w;
      unfold event_loop; rewrite unfold_iter.
    + eapply Leaf_bind; [apply turn_leaves; by left|]. apply Leaf_Ret.
    + eapply Leaf_bind; [apply turn_leaves; right; by exists e|].
      apply Leaf_Tau, IH.
Qed.

(** *** A host that never closes the document *)

Lemma busy_each {A} (next : nat → E) (ev : A → hostE E F unit)
    (Hev : ∀ x n, busy_host next unit (ev x) n = Ret (n, tt)) (l : list A) n :
  interp_state (busy_host next) (each ev l) n ≈ Ret (n, tt).
Proof.
  induction l as [|x l IH]; simpl; [by rewrite interp_state_ret|].
  rewrite interp_state_bind, interp_state_trigger, Hev, bind_ret_l.
  exact IH.
Qed.

(** With such a host a turn always goes on with the next world. *)
Lemma busy_turn next w n :
  interp_state (busy_host next) (turn hs w) n
  ≈ Ret (S n, inl (handle hs (next n) w)).
Proof.
  unfold turn. rewrite interp_state_bind, interp_state_trigger. cbn.
  rewrite bind_ret_l. cbn. unfold shows.
  rewrite !interp_state_bind, busy_each, bind_ret_l by done. cbn.
  rewrite busy_each, bind_ret_l by done. cbn. by rewrite interp_state_ret.
Qed.

(** So the loop never returns. *)
Lemma busy_event_loop next w n (sr : nat * W) :
  ¬ sr ∈ interp_state (busy_host next) (event_loop hs w) n.
Proof.
  intros Hsr.
  apply (Leaf_interp_state_iter_inv (busy_host next) (turn hs)
           (λ _, True) (λ _, True) (λ _, False) n w) in Hsr;
    [destruct sr; by destruct Hsr | | done | done].
  intros n' w' _ _ sx. rewrite busy_turn. by intros ->%Leaf_Ret_inv.
Qed.

End loop_lemmas.

(** ** Lemmas: the implementations *)

Section implementation_lemmas.
Context {R : Type} `{Number R}.
Implicit Types (env : Env R) (w : World R) (es : list (Event R)).
Implicit Types (o : Outcome (App R)).

#[global] Instance program_grows env : HandlersGrow (program env).
Proof.
  split; simpl; intros e w Hi; [by apply inv_step | |].
  - rewrite frames_step by done. by apply prefix_app_r.
  - rewrite reported_step by done. by apply prefix_app_r.
Qed.

#[global] Instance variant_grows : HandlersGrow (variant (R:=R)).
Proof.
  split; simpl; intros e w Hi; [by apply rings_inv_step | |];
    (destruct e; simpl; [done | | done..]);
    rewrite on_frame_rings_one by apply Hi;
    unfold run_callback_rings; cbn [rg_app rg_reported].
  - rewrite animate_rings_renderer, render_frames. by apply prefix_app_r.
  - by apply prefix_app_r.
Qed.

#[global] Instance document_grows env : HandlersGrow (document env).
Proof.
  split; simpl; intros e p _; [done| |done].
  destruct e; simpl; [|done| |by apply prefix_app_r].
  - unfold page_mount. destruct (mount _); [done|]. by apply prefix_app_r.
  - unfold page_scroll. by destruct (onscroll_slot p).
Qed.

(** The variant, once mounted, and the document from its first load, as
    a host with the events [es] sees them. *)
Lemma host_sees_the_variant env (o : Outcome (RingsApp R)) es :
  mount_rings env = inr o →
  interp_state host (event_loop variant (rings_world_of o))
               (host_of variant es (rings_world_of o))
  ≈ Ret (host_of variant [] (run_rings es (rings_world_of o)),
         run_rings es (rings_world_of o)).
Proof.
  intros Hm. apply (host_event_loop variant). simpl.
  rewrite (mount_rings_world env o Hm). apply rings_inv_world0.
Qed.

Lemma host_sees_the_document env (es : list (PageEvent R)) :
  interp_state host (event_loop (document env) page0) (mkHost es [] [])
  ≈ Ret (mkHost [] (drawn (page_run env es page0)) [], page_run env es page0).
Proof. by apply (host_event_loop (document env)). Qed.

(** The worlds the mounted page can be in are the runs from the world
    the effect leaves. *)
Lemma reachable_mounted env o w :
  mount env = inr o → reachable env w ↔ ∃ es, w = run env es (world_of o).
Proof.
  intros Hm. rewrite reachable_run, (mount_world env o Hm).
  split; [by intros [_ ?]|]. intros He. split; [|done].
  destruct (webgl env) eqn:Hgl; [done|]. by rewrite mount_error in Hm.
Qed.

Lemma page_leaves_mounted env o (r : Error + World R) :
  mount env = inr o →
  r ∈ page env ↔ ∃ w, r = inr w ∧ w ∈ event_loop (program env) (world_of o).
Proof.
  intros Hm. unfold page. rewrite Hm. split.
  - intros (_ & _ & (_ & _ & Hr)%Leaf_bind_inv)%Leaf_bind_inv.
    apply Leaf_bind_inv in Hr as (w & Hw & ->%Leaf_Ret_inv). eauto.
  - intros (w & -> & Hw). do 2 (eapply Leaf_bind; [apply each_leaf|]).
    eapply Leaf_bind; [exact Hw|]. apply Leaf_Ret.
Qed.

Lemma page_leaves_failed env err (r : Error + World R) :
  mount env = inl err → r ∈ page env ↔ r = inl err.
Proof.
  intros Hm. unfold page. rewrite Hm. split.
  - by intros (_ & _ & ->%Leaf_Ret_inv)%Leaf_bind_inv.
  - intros ->. eapply Leaf_bind; [|apply Leaf_Ret].
    apply (Leaf_Vis _ _ _ _ _ _ tt), Leaf_Ret.
Qed.


(** The values the page can end with: the exception of a failed mount,
    or a reachable world. *)
Lemma page_leaves env (r : Error + World R) :
  r ∈ page env
  ↔ match r with
    | inl err => mount env = inl err
    | inr w => reachable env w
    end.
Proof.
  destruct (mount env) as [err|o] eqn:Hm.
  - rewrite (page_leaves_failed env err r Hm).
    destruct r as [err'|w]; [split; congruence|].
    split; [done|]. intros [Hgl _]%reachable_run.
    by rewrite (mount_ok env Hgl) in Hm.
  - rewrite (page_leaves_mounted env o r Hm).
    setoid_rewrite (event_loop_leaves (program env)). destruct r as [err|w].
    + split; [by intros (? & ? & _)|done].
    + rewrite (reachable_mounted env o w Hm). split.
      * by intros (? & [= <-] & ?).
      * intros He. by exists w.
Qed.

(** Under a host that never closes the document the page ends only when
    the mount fails. *)
Lemma busy_page env next n (sr : nat * (Error + World R)) :
  sr ∈ interp_state (busy_host next) (page env) n →
  ∃ err, mount env = inl err ∧ sr = (n, inl err).
Proof.
  unfold page. destruct (mount env) as [err|o].
  - rewrite interp_state_bind, interp_state_trigger. cbn.
    rewrite !bind_ret_l. cbn. rewrite interp_state_ret.
    intros ->%Leaf_Ret_inv. by exists err.
  - rewrite interp_state_bind, busy_each, bind_ret_l by done. cbn [fst snd].
    rewrite interp_state_bind, busy_each, bind_ret_l by done. cbn [fst snd].
    rewrite interp_state_bind.
    by intros (? & ?%(busy_event_loop (program env)) & _)%Leaf_bind_inv.
Qed.


End implementation_lemmas.
