(* ===== verification/Binary64.v ===== *)
(** * Binary64 arithmetic

    The program as a browser runs it: every number an IEEE-754 double
    ([float_Number], the kernel's primitive floats).  The theorems of
    [Loop] hold for any arithmetic, so the values below are those
    theorems evaluated at doubles.

    The depth of the specification's scroll scenarios is exact.  The
    rotation of the torus is not: [0.01] is not a double, and every
    addition rounds.  The accumulated error stays below the
    specification's tolerance of [1e-6] for the first 10000 ticks (all of
    them are checked) and has left it at tick 2458000, about eleven hours
    at sixty frames a second.  The angle cannot grow without bound: at
    [2^47] the addition of [0.01] is absorbed.  The aspect ratio of the
    camera is a quotient the effect does not guard; for a window of
    height zero it is infinite. *)

From Stdlib Require Import Floats Uint63 Qabs.
From S2P Require Import Prelude Number Vector Scene Camera Render App.
From S2P Require Import Scroll Animate Loop Rings.

(** The tolerance of the specification. *)
Definition eps : Q := 1 # 1000000.

(** Each component of [v] is within [eps] of the rational beside it. *)
Definition vector_near (a b c : Q) (v : Vector3 float) : bool :=
  float_near eps a (vx v) && float_near eps b (vy v) && float_near eps c (vz v).

(** The partial sums [x + d], [x + d + d], ... up to [n] terms are within
    [eps] of [(k + 1) d], [(k + 2) d], ... *)
Fixpoint drift_from (n : nat) (k : Z) (d : Q) (x : float) : bool :=
  match n with
  | 0 => true
  | S n =>
      let x' := x ⊕ lit d in
      float_near eps (inject_Z (k + 1) * d) x' && drift_from n (k + 1) d x'
  end.

(** The number of ticks up to which every partial sum is checked. *)
Definition checked_ticks : nat := Pos.to_nat 10000.

(** A tick count at which the tolerance is exceeded. *)
Definition late_tick : positive := 2458000.

(** The specification's scroll scenarios: an offset and the depth it is to
    give. *)
Definition scroll_scenarios : list (Q * float) :=
  [((-500)%Q, 35%float); ((-100)%Q, 31%float); ((-200)%Q, 32%float)].

(** [THREE.MathUtils.randFloatSpread] on doubles. *)
Definition spread_binary64 (range u : float) : float :=
  (range * (0.5 - u))%float.

(** A generator of doubles in [[0, 1)]: multiples of [2^-31]. *)
Definition lcg_binary64 (n : nat) : float :=
  (float_of_Z ((1103515245 * Z.of_nat n + 12345) mod 2147483648)
   / float_of_Z 2147483648)%float.

Definition envF : Env float :=
  mkEnv (lit 1920) (lit 1080) (lit 1) true lcg_binary64 spread_binary64
        inert_controls.

(** ** Lemmas *)

Lemma drift_from_sound n k d x j :
  drift_from n k d x = true → 0 < j ≤ n →
  float_near eps (inject_Z (k + Z.of_nat j) * d) (add_times j (lit d) x) = true.
Proof.
  revert k x j. induction n as [|n IH]; intros k x j Hn Hj; [lia|].
  simpl in Hn. apply andb_prop in Hn as [Hx Hn].
  destruct j as [|[|j]]; [lia | exact Hx |].
  rewrite add_times_S_r.
  replace (k + Z.of_nat (S (S j)))%Z with (k + 1 + Z.of_nat (S j))%Z by lia.
  apply IH; [done | lia].
Qed.

Lemma drift_from_zero n d j :
  drift_from n 0 d (lit 0) = true → 0 < j ≤ n →
  float_near eps (inject_Z (Z.of_nat j) * d) (add_times j (lit d) (lit 0))
  = true.
Proof. exact (drift_from_sound n 0 d (lit 0) j). Qed.

Lemma drift_001 : drift_from checked_ticks 0 0.01 (lit 0) = true.
Proof. vm_compute. reflexivity. Qed.

Lemma drift_0005 : drift_from checked_ticks 0 0.005 (lit 0) = true.
Proof. vm_compute. reflexivity. Qed.

(** The torus after [n] rotation steps, on doubles. *)
Lemma torus_steps_binary64 n :
  Nat.iter n torus_step (vzero (R:=float))
  = mkVector3 (add_times n (lit 0.01) (lit 0)) (add_times n (lit 0.005) (lit 0))
              (add_times n (lit 0.01) (lit 0)).
Proof. unfold torus_step. by rewrite iter_add_xyz. Qed.

Lemma torus_steps_near n :
  0 < n ≤ checked_ticks →
  vector_near (inject_Z (Z.of_nat n) * 0.01) (inject_Z (Z.of_nat n) * 0.005)
              (inject_Z (Z.of_nat n) * 0.01)
              (Nat.iter n torus_step vzero) = true.
Proof.
  intros Hn. rewrite torus_steps_binary64. unfold vector_near; cbn [vx vy vz].
  rewrite (drift_from_zero _ 0.01 n drift_001 Hn).
  by rewrite (drift_from_zero _ 0.005 n drift_0005 Hn).
Qed.

Lemma late_tick_off :
  float_near eps (inject_Z (Zpos late_tick) * 0.01)
             (add_times (Pos.to_nat late_tick) (lit 0.01) (lit 0)) = false.
Proof. rewrite add_times_pos. vm_compute. reflexivity. Qed.

Lemma scroll_depths_binary64 :
  Forall (λ '(q, z), scrollToCameraZ (lit q) = z) scroll_scenarios.
Proof. repeat constructor. Qed.

(** The multi-ring variant multiplies each ring's speed by [0.6] on every
    tick.  On doubles the four products are the doubles of the decimals
    [0.006], [0.0048], [0.0036] and [0.0024]. *)
Lemma ring_speeds_binary64 :
  (λ cfg, speed cfg ⊗ lit 0.6) <$> ringsConfig (R:=float)
  = lit <$> [0.006; 0.0048; 0.0036; 0.0024]%Q.
Proof. reflexivity. Qed.

(** The angle never becomes infinite: from [2^47] on, adding [0.01]
    changes nothing, so [rotation.x += 0.01] has a fixed point long
    before the largest double. *)
Lemma rotation_absorbed : 0x1p47%float ⊕ lit 0.01 = 0x1p47%float.
Proof. reflexivity. Qed.

(** The division of line 16 is not guarded: a window of height zero
    gives the camera an infinite aspect ratio, and a window of no extent
    NaN. *)
Lemma aspect_of_empty_window :
  aspect (camera0 (mkEnv (lit 1920) (lit 0) (lit 1) true lcg_binary64
                         spread_binary64 inert_controls))
  = infinity
  ∧ PrimFloat.is_nan
      (aspect (camera0 (mkEnv (lit 0) (lit 0) (lit 1) true lcg_binary64
                              spread_binary64 inert_controls))) = true.
Proof. split; reflexivity. Qed.

(** ** The program on doubles *)

Section program.
Implicit Types (env : Env float) (es : list (Event float)).
Implicit Types (o : Outcome (App float)).

(** C40: On doubles the depth of the specification's scroll scenarios is
    exact and the rotation of the torus is not.  After a scroll to -500
    the camera depth is the double 35, after -100 it is 31 and after -200
    it is 32, whatever was scrolled or rendered before, when the orbit
    controller keeps to its own fields.  The torus's rotation stays
    within the specification's tolerance for the first 10000 ticks, and
    not for ever: after the effect and [n] display refreshes,
    [n + 1 <= 10000], each component is within [1e-6] of
    [(n + 1) * (0.01, 0.005, 0.01)]; but the rotation is not exactly
    [T * 0.01]: after 100 ticks the x rotation is the third double above
    1, and after 2458000 ticks it differs from 24580 by more than
    [1e-6]. *)
Theorem binary64_depth_exact_rotation_drifts env o es :
  mount env = inr o →
  (orbit_disjoint (controls_update env) →
   Forall (λ '(q, z),
             depth (app (run env (es ++ [EvScroll (lit q)]) (world_of o))) = z)
          scroll_scenarios)
  ∧ ∃ v, torus_rotation (app (run env es (world_of o))) = Some v
       ∧ (S (count is_frame es) ≤ checked_ticks →
          vector_near (inject_Z (Z.of_nat (S (count is_frame es))) * 0.01)
                      (inject_Z (Z.of_nat (S (count is_frame es))) * 0.005)
                      (inject_Z (Z.of_nat (S (count is_frame es))) * 0.01)
                      v = true)
       ∧ (S (count is_frame es) = 100 → vx v = 0x1.0000000000003p+0%float)
       ∧ (S (count is_frame es) = Pos.to_nat late_tick →
          float_near eps (inject_Z (Zpos late_tick) * 0.01) (vx v) = false).
Proof.
  intros ->%mount_world. split.
  { intros Hd. eapply Forall_impl; [apply scroll_depths_binary64|].
    intros [q z] Hq. by rewrite depth_world0, last_scroll_snoc. }
  eexists. split; [apply torus_rotation_world0|].
  split_and!; intros Hn.
  - apply torus_steps_near. lia.
  - rewrite Hn, torus_steps_binary64; cbn [vx]. vm_compute. reflexivity.
  - rewrite Hn, torus_steps_binary64; cbn [vx]. apply late_tick_off.
Qed.
End program.
