(* ===== verification/Scenario.v ===== *)
(** * A concrete page

    The theorems of the development applied to one environment over the
    rationals and to the specification's scenarios: a 1920 x 1080 window
    with a graphics context, a linear congruential generator as
    [Math.random], three.js's [randFloatSpread], and an orbit controller
    that receives no input (the canvas of the page has
    [pointer-events-none]).  The multi-ring variant is mounted in the same
    environment, and a second page has a controller that hears of one
    drag. *)

From Stdlib Require Import Lqa Floats String.
From S2P Require Import Prelude Number Vector Scene Camera Render App.
From S2P Require Import Scroll Animate Loop Construction Frames Machine Exact.
From S2P Require Import Binary64 Interleave Markup Lifecycle Rings RingsLoop.
From S2P Require Import Component Orbit.

(** The [n]-th random number:
    [((1103515245 n + 12345) mod 2^31) / 2^31]. *)
Definition lcg (n : nat) : Q :=
  Qmake ((1103515245 * Z.of_nat n + 12345) mod 2147483648) 2147483648.

Definition envQ : Env Q :=
  mkEnv 1920%Q 1080%Q 1%Q true lcg spread_threejs inert_controls.

(** The same page with a generator that returns 0 first. *)
Definition envZero : Env Q :=
  mkEnv 1920%Q 1080%Q 1%Q true (λ _, 0%Q) spread_threejs inert_controls.

(** The mounted page. *)
Definition pageQ : Outcome (App Q) := Done (app1 envQ).
Definition pageZero : Outcome (App Q) := Done (app1 envZero).

(** The specification's scenarios as one run: a frame, a scroll to -100,
    a scroll to -500, a frame. *)
Definition scenario : list (Event Q) :=
  [EvFrame; EvScroll (-100)%Q; EvScroll (-500)%Q; EvFrame].

#[export] Instance lcg_unit : UnitRandom envQ.
Proof.
  intros n. unfold Qle, Qlt. simpl.
  pose proof (Z.mod_pos_bound (1103515245 * Z.of_nat n + 12345) 2147483648
                eq_refl).
  lia.
Qed.

#[export] Instance envQ_spread : ThreeJsSpread envQ.
Proof. by intros range u. Qed.

#[export] Instance envZero_spread : ThreeJsSpread envZero.
Proof. by intros range u. Qed.

#[export] Instance envZero_unit : UnitRandom envZero.
Proof. by intros n. Qed.

Lemma envQ_mount : mount envQ = inr pageQ.
Proof. by apply mount_ok. Qed.

Lemma envZero_mount : mount envZero = inr pageZero.
Proof. by apply mount_ok. Qed.

Lemma envQ_disjoint : orbit_disjoint (controls_update envQ).
Proof. apply inert_controls_disjoint. Qed.

Lemma pageQ_reachable : reachable envQ (world_of pageQ).
Proof. apply reachable_mount, envQ_mount. Qed.

(** The page after the graphics context is lost. *)
Lemma pageQ_lost_reachable :
  reachable envQ (on_context_lost (world_of pageQ)).
Proof.
  eapply reachable_step; [apply pageQ_reachable | apply Step_context_lost].
Qed.

(** ** The theorems at this page *)

Lemma depth_follows_last_scroll_witness :
  depth (app (run envQ scenario (world_of pageQ)))
  = from_option (λ t, lit 30 ⊕ t ⊗ ⊝ lit 0.01) (lit 30) (last_scroll scenario).
Proof.
  exact (depth_follows_last_scroll envQ pageQ scenario envQ_disjoint
           envQ_mount).
Defined.

Lemma torus_turned_once_per_frame_witness :
  torus_rotation (app (run envQ scenario (world_of pageQ)))
  = Some (Nat.iter 3 torus_step vzero).
Proof. exact (torus_turned_once_per_frame envQ pageQ scenario envQ_mount). Defined.

Lemma decor_turned_once_per_scroll_witness :
  moon_rotation (app (run envQ scenario (world_of pageQ)))
  = Some (Nat.iter 2 moon_step vzero)
  ∧ jeffBox_rotation (app (run envQ scenario (world_of pageQ)))
    = Some (Nat.iter 2 jeff_step vzero).
Proof. exact (decor_turned_once_per_scroll envQ pageQ scenario envQ_mount). Defined.

Lemma reachable_invariant_witness : inv (app (world_of pageQ)).
Proof. exact (reachable_invariant envQ (world_of pageQ) pageQ_reachable). Defined.


Lemma one_frame_per_refresh_witness :
  reported (run envQ scenario (world_of pageQ)) = []
  ∧ length (frames_of (run envQ scenario (world_of pageQ))) = 3.
Proof.
  exact (one_frame_per_refresh envQ pageQ scenario envQ_mount eq_refl).
Defined.

Lemma frame_shows_finished_tick_witness :
  frame_torus (frame_of (app1 envQ)) = Some (Nat.iter 1 torus_step vzero).
Proof.
  exact (frame_shows_finished_tick envQ pageQ scenario 0 (frame_of (app1 envQ))
           envQ_mount eq_refl (first_frame envQ scenario)).
Defined.

Lemma render_reads_updated_state_witness :
  let a' := app (step envQ EvFrame (world_of pageQ)) in
  frames_of (step envQ EvFrame (world_of pageQ))
  = frames_of (world_of pageQ) ++ [mkFrame (scene a') (camera a')]
  ∧ camera a' = controls_update envQ (updates (app (world_of pageQ)))
                  (camera (app (world_of pageQ)))
  ∧ torus_rotation a' = torus_step <$> torus_rotation (app (world_of pageQ)).
Proof.
  apply (render_reads_updated_state envQ (world_of pageQ) pageQ_reachable).
  apply (frames_world0 envQ).
Defined.

Lemma tick_failure_not_fatal_witness :
  let w := on_context_lost (world_of pageQ) in
  reported (step envQ EvFrame w) = reported w ++ [TickFailure]
  ∧ frames_of (step envQ EvFrame w) = frames_of w
  ∧ torus_rotation (app (step envQ EvFrame w))
    = torus_step <$> torus_rotation (app w)
  ∧ running (step envQ EvFrame w).
Proof.
  exact (tick_failure_not_fatal envQ _ pageQ_lost_reachable eq_refl).
Defined.

Lemma frames_only_grow_witness :
  frames_of (world_of pageQ) `prefix_of`
    frames_of (run envQ scenario (world_of pageQ))
  ∧ (lost (world_of pageQ) = true →
     lost (run envQ scenario (world_of pageQ)) = true).
Proof. exact (frames_only_grow envQ _ scenario pageQ_reachable). Defined.

Lemma program_refines_machine_witness :
  sim (abs_run30 scenario abs_init30) (run envQ scenario (world_of pageQ)).
Proof.
  exact (program_refines_machine envQ pageQ scenario envQ_disjoint envQ_mount
           eq_refl).
Defined.


Lemma star_field_generated_witness :
  st_exec (make_stars envQ 200) Scene
  = mkStore (stars envQ 0 200) [] (seq 0 200) None 600
  ∧ length (stars envQ 0 200) = 200.
Proof. exact (star_field_generated envQ 200 Scene Scene_wf). Defined.


Lemma construction_never_changes_witness :
  placed 204 (scene (app (run envQ scenario (world_of pageQ))))
  = placed 204 (scene0 envQ)
  ∧ children (scene (app (run envQ scenario (world_of pageQ)))) = seq 0 205
  ∧ objects (scene (app (run envQ scenario (world_of pageQ)))) !! star_id 7
    = Some (star envQ 21).
Proof.
  apply (construction_never_changes envQ pageQ scenario 204 7 envQ_mount). lia.
Defined.


Lemma rotations_closed_form_witness :
  ∃ v vm vj,
    torus_rotation (app (run envQ scenario (world_of pageQ))) = Some v
    ∧ moon_rotation (app (run envQ scenario (world_of pageQ))) = Some vm
    ∧ jeffBox_rotation (app (run envQ scenario (world_of pageQ))) = Some vj
    ∧ v ≡ ticks_rotation 3
    ∧ vm ≡ moon_scrolls_rotation 2
    ∧ vj ≡ jeff_scrolls_rotation 2.
Proof. exact (rotations_closed_form envQ pageQ scenario envQ_mount). Defined.

(** Scrolled to -100 and then, further down, to -500: the camera is
    further back. *)
Lemma scroll_down_moves_camera_back_witness :
  (30 <= depth (app (run envQ [EvScroll (-100)%Q] (world_of pageQ))))%Q
  ∧ (depth (app (run envQ [EvScroll (-100)%Q] (world_of pageQ)))
     <= depth (app (run envQ scenario (world_of pageQ))))%Q
  ∧ position_of 0 (scene (app (run envQ scenario (world_of pageQ))))
    = Some (mkVector3 0 0 (-20))%Q
  ∧ position_of 203 (scene (app (run envQ scenario (world_of pageQ))))
    = Some (mkVector3 2 0 (-5))%Q.
Proof.
  apply (scroll_down_moves_camera_back envQ pageQ [EvScroll (-100)%Q] scenario
           (-100)%Q (-500)%Q envQ_disjoint envQ_mount eq_refl eq_refl);
    by vm_compute.
Defined.

Lemma viewport_fixed_at_mount_witness :
  viewport (app (run envQ scenario (world_of pageQ)))
  = ((75, 1920 / 1080, 0.1, 1000)%Q,
     (true, Some 1%Q, Some (1920%Q, 1080%Q), Some SRGBColorSpace)).
Proof.
  exact (viewport_fixed_at_mount envQ pageQ scenario envQ_disjoint envQ_mount).
Defined.

(** The image of the jeff box fails to load, a frame is rendered, a
    second load succeeds. *)
Definition reload : list (Event Q) :=
  [EvTexture 1 false; EvFrame; EvTexture 1 true].

Lemma textures_wired_and_settled_witness :
  let s := scene (app (run envQ reload (world_of pageQ))) in
  background_image s = Some spaceImg
  ∧ object_images 0 s = []
  ∧ object_images 203 s = [Some jeffImg]
  ∧ object_images 204 s = [Some moonImg; Some normalImg]
  ∧ load_state_of 1 s = Some Loaded.
Proof.
  apply (textures_wired_and_settled envQ pageQ reload 1 envQ_mount). lia.
Defined.

Lemma scroll_and_frame_commute_witness :
  run envQ ([EvScroll (-100)%Q; EvFrame] ++ scenario) (world_of pageQ)
  ≡ run envQ ([EvFrame; EvScroll (-100)%Q] ++ scenario) (world_of pageQ).
Proof.
  exact (scroll_and_frame_commute envQ _ (-100)%Q scenario pageQ_reachable
           inert_controls_commutes).
Defined.


Lemma stars_within_cube_witness :
  ∃ v, position_of (star_id 7)
         (scene (app (run envZero scenario (world_of pageZero)))) = Some v
       ∧ in_cube v
       ∧ ((random envZero (3 * 7) == 0)%Q → (vx v == 50)%Q ∧ ¬ (vx v < 50)%Q).
Proof.
  apply (stars_within_cube envZero pageZero scenario 7 envZero_mount). lia.
Defined.

(** A user who, were the controller to hear of it, would drag the camera
    to depth 0 at every update. *)
Definition wild_user : nat → Camera Q → Camera Q :=
  λ _ c, on_cam_position (set_z 0%Q) c.

Definition envPage : Env Q :=
  mkEnv 1920%Q 1080%Q 1%Q true lcg spread_threejs (page_controls wild_user).


(** React's strict mode: the effect runs, the component is unmounted, the
    effect runs again; then a display refresh. *)
Definition strict_mode : list (PageEvent Q) :=
  [PgMount; PgUnmount 0; PgMount; PgFrame].




(** The component under React: rendered, refreshed, rendered again,
    unmounted and mounted again.  The effect has run twice. *)
Lemma react_runs_effect_once_per_mount_witness :
  react_run App_function page_host envQ
            [ReRender; ReHost HFrame; ReRender; ReUnmount; ReRender] react0
  = mkReact (Some (cells_mounted 1))
            (page_run envQ [PgMount; PgFrame; PgUnmount 0; PgMount] page0).
Proof. exact (react_runs_effect_once_per_mount envQ _). Defined.


(** ** The page under a drag

    A user who drags once, before the second update of the controller,
    by the angle of cosine 3/5 and sine 4/5, on a page whose canvas would
    hear of it. *)
Definition drag_once (k : nat) : Gesture :=
  if decide (k = 1) then RotateLeft (3 # 5) (4 # 5) else Idle.

Definition envDrag : Env Q :=
  mkEnv 1920%Q 1080%Q 1%Q true lcg spread_threejs (orbit_update drag_once).

Definition pageDrag : Outcome (App Q) := Done (app1 envDrag).

Lemma envDrag_mount : mount envDrag = inr pageDrag.
Proof. by apply mount_ok. Qed.

Lemma camera_follows_track_witness :
  rig_of (run envDrag scenario (world_of pageDrag))
  = camera_track envDrag scenario (rig1 envDrag).
Proof. exact (camera_follows_track envDrag pageDrag scenario envDrag_mount). Defined.


(** ** The same page on doubles *)

Definition pageF : Outcome (App float) := Done (app1 envF).

(** Ninety-nine display refreshes: with the effect's own call, a hundred
    ticks. *)
Definition ninety_nine_frames : list (Event float) := repeat EvFrame 99.

Lemma envF_mount : mount envF = inr pageF.
Proof. by apply mount_ok. Qed.

Lemma binary64_depth_exact_rotation_drifts_witness :
  Forall (λ '(q, z),
            depth (app (run envF (ninety_nine_frames ++ [EvScroll (lit q)])
                            (world_of pageF))) = z)
         scroll_scenarios
  ∧ ∃ v, torus_rotation (app (run envF ninety_nine_frames (world_of pageF)))
         = Some v
       ∧ vector_near
           (inject_Z (Z.of_nat (S (count is_frame ninety_nine_frames))) * 0.01)
           (inject_Z (Z.of_nat (S (count is_frame ninety_nine_frames))) * 0.005)
           (inject_Z (Z.of_nat (S (count is_frame ninety_nine_frames))) * 0.01)
           v = true
       ∧ vx v = 0x1.0000000000003p+0%float.
Proof.
  destruct (binary64_depth_exact_rotation_drifts envF pageF ninety_nine_frames
              envF_mount) as (Hs & v & Hv & Hnear & Hx & _).
  split; [exact (Hs inert_controls_disjoint)|].
  exists v. split_and!; [done | | by apply Hx].
  apply Hnear. vm_compute. lia.
Defined.

(** ** Frames and textures *)

Lemma frame_shows_textures_of_its_tick_witness :
  ∃ f, frames_of (run envQ ([EvTexture 2 true] ++ EvFrame :: [EvTexture 2 false])
                      (world_of pageQ)) !! 1 = Some f
       ∧ load_state_of 2 (frame_store f) = Some Loaded.
Proof.
  apply (frame_shows_textures_of_its_tick envQ pageQ [EvTexture 2 true]
           [EvTexture 2 false] 2 envQ_mount eq_refl). lia.
Defined.

(** ** The multi-ring variant on the same page *)

Definition ringsQ : Outcome (RingsApp Q) := Done (rings_app1 envQ).

Lemma envQ_mount_rings : mount_rings envQ = inr ringsQ.
Proof. by apply mount_rings_ok. Qed.

Lemma rings_operations_spec_witness :
  animate_rings (rings_app0 envQ) = animate_rings_result (rings_app0 envQ)
  ∧ setup_rings envQ = inr (rings_app0 envQ).
Proof.
  destruct (rings_operations_spec envQ (rings_app0 envQ)) as [Ha Hs].
  split; [exact (Ha (NoDup_seq 0 4)) | exact Hs].
Defined.

Lemma rings_typed_reachable_witness :
  rings_inv (run_rings scenario (rings_world_of ringsQ)).
Proof.
  exact (rings_typed_reachable envQ ringsQ scenario envQ_mount_rings).
Defined.

(** The second ring, of speed 0.008, after the effect and two display
    refreshes. *)
Lemma rings_turned_once_per_frame_witness :
  ring_rotation 1 (run_rings scenario (rings_world_of ringsQ))
  = Some (Nat.iter 3 (ring_step (lit 0.008)) vzero).
Proof.
  exact (rings_turned_once_per_frame envQ ringsQ scenario 1
           (mkRingConfig 14 2.5 0x00ffff 0.008)%Q envQ_mount_rings eq_refl).
Defined.

(** The same ring in closed form: [3 * (0.008, 0.0048, 0)]. *)
Lemma ring_rotation_closed_form_witness :
  ∃ v, ring_rotation 1 (run_rings scenario (rings_world_of ringsQ)) = Some v
       ∧ v ≡ ring_turns 3 (lit 0.008)
       ∧ mkVector3 0.024%Q 0.0144%Q 0%Q ≡ ring_turns 3 (lit 0.008).
Proof.
  destruct (ring_rotation_closed_form envQ ringsQ scenario 1
              (mkRingConfig 14 2.5 0x00ffff 0.008)%Q envQ_mount_rings eq_refl)
    as (v & Hv & Hc).
  exists v. split_and!; [done | done | by vm_compute].
Defined.

